(** * Emission & Lighting Calculator: a shallow embedding of [__init__.py]

    The add-on is a Blender material panel with five operators.  This file
    embeds its utility functions, its property group and the operators
    [material.calc_room_lumens], [material.use_lumens] and
    [material.calc_emission_strength], and proves properties of them.

    Conventions of the embedding.

    - Python floats are idealised as exact rationals ([Q]); rounding is not
      modelled.  The literals [0.05], [3.28], [0.5], [0.0001] and [2.7] are
      the decimal fractions they denote.  Equality of computed numbers is
      [Qeq] (written [==]).
    - A Python exception is the outcome [RAISED]; [self.report] calls are
      collected in a log that is returned with the state.
    - NumPy's element-wise division does not raise on a zero divisor.
      [bounding_box_area_xy] divides a vector by its norm, which is zero
      only on the zero vector: the quotient is then 0/0, nan in every
      component, and every number computed from it is nan.  This nan is
      the value [NonFinite].  The properties that are assigned from such a result,
      directly or through another property ([room_area], the three
      recommended lumens, [lumens], [strength], and the strength input of
      a shader node), hold a number or nan ([npfloat]); arithmetic with
      nan gives nan and every comparison with nan is false.
    - [np.linalg.eig] and [np.linalg.norm] are external numerical routines
      and [bpy.ops.object.transform_apply] is a host operator: they are
      parameters of the definitions that call them.
    - A [bpy.props] property declared with [min=m] stores [m] when a smaller
      value is assigned (the host's documented behaviour for the hard
      minimum); assignment to such a property is [assign].  A nan is not
      smaller than the minimum and is stored as it is ([assign_float]). *)

From Stdlib Require Import QArith Qminmax Qabs Lqa QNsatz ZArith Lia List String Ascii Bool.
Import ListNotations.

Local Open Scope string_scope.
Local Open Scope Q_scope.
Local Open Scope list_scope.

(* ------------------------------------------------------------------ *)
(** * mathutils: vectors and the world matrix                          *)
(* ------------------------------------------------------------------ *)

Module mathutils.

Record Vector := mkVector { x : Q; y : Q; z : Q }.

(** A 4x4 matrix, row by row. *)
Record Matrix := mkMatrix {
  row0 : Q * Q * Q * Q;
  row1 : Q * Q * Q * Q;
  row2 : Q * Q * Q * Q;
  row3 : Q * Q * Q * Q }.

Definition row_dot (r : Q * Q * Q * Q) (v : Vector) : Q :=
  let '(a, b, c, d) := r in a * x v + b * y v + c * z v + d.

(** [m @ v] for a 4x4 matrix and a 3D vector: the vector is extended with
    w = 1 and the first three components of the product are returned. *)
Definition matmul (m : Matrix) (v : Vector) : Vector :=
  mkVector (row_dot (row0 m) v) (row_dot (row1 m) v) (row_dot (row2 m) v).

Definition identity : Matrix :=
  mkMatrix (1, 0, 0, 0) (0, 1, 0, 0) (0, 0, 1, 0) (0, 0, 0, 1).

End mathutils.

Notation "m @ v" := (mathutils.matmul m v) (at level 40, left associativity).

(* ------------------------------------------------------------------ *)
(** * Python built-ins on lists of numbers                             *)
(* ------------------------------------------------------------------ *)

(** [sum(xs)]: left to right, starting from 0. *)
Definition py_sum (xs : list Q) : Q := fold_left Qplus xs 0.

(** [max(xs)] and [min(xs)] of a non-empty list; [None] is the ValueError
    Python raises on an empty one. *)
Definition py_max (xs : list Q) : option Q :=
  match xs with
  | [] => None
  | a :: r => Some (fold_left Qmax r a)
  end.

Definition py_min (xs : list Q) : option Q :=
  match xs with
  | [] => None
  | a :: r => Some (fold_left Qmin r a)
  end.

(** Comparisons as booleans. *)
Definition Qleb (a b : Q) : bool := Qle_bool a b.
Definition Qltb (a b : Q) : bool := negb (Qle_bool b a).

(* ------------------------------------------------------------------ *)
(** * Floats that may be nan                                           *)
(* ------------------------------------------------------------------ *)

(** A float that is a number, or the nan a NumPy division by zero left. *)
Inductive npfloat := Finite (q : Q) | NonFinite.

Coercion Finite : Q >-> npfloat.

(** Arithmetic: nan in, nan out. *)
Definition fmul (a b : npfloat) : npfloat :=
  match a, b with
  | Finite x, Finite y => Finite (x * y)
  | _, _ => NonFinite
  end.

(** [a / b] where [b] is not zero (Python raises on a zero divisor, see
    [py_div]). *)
Definition fdiv (a b : npfloat) : npfloat :=
  match a, b with
  | Finite x, Finite y => Finite (x / y)
  | _, _ => NonFinite
  end.

(** Comparisons: false as soon as one side is nan. *)
Definition fleb (a b : npfloat) : bool :=
  match a, b with
  | Finite x, Finite y => Qleb x y
  | _, _ => false
  end.

Definition fltb (a b : npfloat) : bool :=
  match a, b with
  | Finite x, Finite y => Qltb x y
  | _, _ => false
  end.

Definition fle (a b : npfloat) : Prop :=
  match a, b with
  | Finite x, Finite y => x <= y
  | _, _ => False
  end.

Definition flt (a b : npfloat) : Prop :=
  match a, b with
  | Finite x, Finite y => x < y
  | _, _ => False
  end.

(** The same value: equal numbers, or nan on both sides.  (Python's [==]
    is false on nan; this is the identity of the stored value.) *)
Definition feq (a b : npfloat) : Prop :=
  match a, b with
  | Finite x, Finite y => x == y
  | NonFinite, NonFinite => True
  | _, _ => False
  end.

Declare Scope float_scope.
Delimit Scope float_scope with float.
Bind Scope float_scope with npfloat.

Infix "*" := fmul : float_scope.
Infix "/" := fdiv : float_scope.
Infix "<=" := fle : float_scope.
Infix "<" := flt : float_scope.
Infix "==" := feq (at level 70, no associativity) : float_scope.

(* ------------------------------------------------------------------ *)
(** * Scene data: meshes and objects                                   *)
(* ------------------------------------------------------------------ *)

(** A face as [bmesh] exposes it: its material slot and what
    [face.calc_area()] returns. *)
Record Face := mkFace { material_index : Z; calc_area : Q }.

(** [obj.data] of a mesh object: [v.co] of every vertex, and the faces. *)
Record Mesh := mkMesh { vertices : list mathutils.Vector; faces : list Face }.

(** [bpy.types.Object]: [type] is the host's type tag (['MESH'], ['CAMERA'],
    ...); [data] is read only behind a [type == 'MESH'] test. *)
Record Object := mkObject {
  type : string;
  data : Mesh;
  matrix_world : mathutils.Matrix;
  active_material_index : Z }.

Definition is_mesh (o : Object) : bool := String.eqb (type o) "MESH".

(* ------------------------------------------------------------------ *)
(** * Utility functions                                                *)
(* ------------------------------------------------------------------ *)

(** [get_active_material_area(obj)]: total area of the faces whose material
    slot is the object's active one. *)
Definition get_active_material_area (obj : option Object) : Q :=
  match obj with
  | None => 0
  | Some o =>
      if negb (is_mesh o) then 0
      else
        let active_index := active_material_index o in
        py_sum (map calc_area
                  (filter (fun face => Z.eqb (material_index face) active_index)
                          (faces (data o))))
  end.

(** World-space z of every vertex: [[(obj.matrix_world @ v.co).z for v in ...]]. *)
Definition world_zs (o : Object) : list Q :=
  map (fun co => mathutils.z (matrix_world o @ co)) (vertices (data o)).

(** [object_height(obj)]. *)
Definition object_height (obj : option Object) : Q :=
  match obj with
  | None => 0
  | Some o =>
      if negb (is_mesh o) then 0
      else
        let zs := world_zs o in
        match py_max zs, py_min zs with
        | Some hi, Some lo => hi - lo
        | _, _ => 0
        end
  end.

(* ------------------------------------------------------------------ *)
(** * Property declarations                                            *)
(* ------------------------------------------------------------------ *)

(** What a [bpy.props.FloatProperty(default=..., min=...)] declares. *)
Record FloatProperty := mkFloatProperty {
  prop_default : Q;
  prop_min : option Q }.

(** Assigning [v] to a property: a value below the declared hard minimum is
    stored as that minimum. *)
Definition assign (decl : FloatProperty) (v : Q) : Q :=
  match prop_min decl with
  | Some m => if Qltb v m then m else v
  | None => v
  end.

(** The same for a property that may be handed nan: nan is below no
    minimum, and is stored as it is. *)
Definition assign_float (decl : FloatProperty) (v : npfloat) : npfloat :=
  match prop_min decl with
  | Some m => if fltb v m then Finite m else v
  | None => v
  end.

Definition lumens_decl      := mkFloatProperty 850 (Some 0).
Definition ler_decl         := mkFloatProperty 300 (Some 1).
Definition area_decl        := mkFloatProperty (2 # 100) (Some (1 # 10000)).
Definition strength_decl    := mkFloatProperty 0 None.
Definition room_area_decl   := mkFloatProperty 20 (Some 1).
Definition room_height_decl := mkFloatProperty (27 # 10) (Some (5 # 10)).
Definition lumens_min_decl  := mkFloatProperty 0 None.
Definition lumens_avg_decl  := mkFloatProperty 0 None.
Definition lumens_max_decl  := mkFloatProperty 0 None.

(** [num_lights] is an [IntProperty(default=1, min=1)]. *)
Definition num_lights_default : Z := 1.
Definition num_lights_min : Z := 1.

(** ** Enumerations *)

(** [ler_preset]: the items of the [EnumProperty]. *)
Inductive LerPreset :=
  | LER_300 | LER_250 | LER_683 | LER_150 | LER_100 | LER_50 | LER_CUSTOM.

(** The identifier (first component) of each item: the value Python sees. *)
Definition ler_preset_id (k : LerPreset) : string :=
  match k with
  | LER_300 => "300" | LER_250 => "250" | LER_683 => "683"
  | LER_150 => "150" | LER_100 => "100" | LER_50 => "50"
  | LER_CUSTOM => "CUSTOM"
  end.

Inductive RoomAreaSource := AREA_MANUAL | AREA_BOUNDING_BOX.
Inductive HeightSource := HEIGHT_MANUAL | HEIGHT_FROM_OBJECT.

(** [room_type]: one constructor per item, named by the item's identifier. *)
Inductive RoomType :=
  | kitchen_gen | kitchen_task | living_gen | living_read
  | bedroom_gen | bedroom_read | office | workshop
  | bathroom_gen | bathroom_mirror | studio | dining
  | hallway | laundry | gym | patio.

(** The items list of the [room_type] property: identifier and label. *)
Definition room_type_items : list (string * string) :=
  [("kitchen_gen", "Kitchen – General (250 Lux)");
   ("kitchen_task", "Kitchen – Task (500 Lux)");
   ("living_gen", "Living Room – General (150 Lux)");
   ("living_read", "Living Room – Reading (400 Lux)");
   ("bedroom_gen", "Bedroom – General (100 Lux)");
   ("bedroom_read", "Bedroom – Reading (300 Lux)");
   ("office", "Office (400 Lux)");
   ("workshop", "Workshop (500 Lux)");
   ("bathroom_gen", "Bathroom – General (250 Lux)");
   ("bathroom_mirror", "Bathroom – Mirror (500 Lux)");
   ("studio", "Studio/Art Room (750 Lux)");
   ("dining", "Dining Room (150 Lux)");
   ("hallway", "Hallway (100 Lux)");
   ("laundry", "Laundry (300 Lux)");
   ("gym", "Gym (300 Lux)");
   ("patio", "Outdoor Patio (100 Lux)")].

Definition room_type_id (t : RoomType) : string :=
  match t with
  | kitchen_gen => "kitchen_gen" | kitchen_task => "kitchen_task"
  | living_gen => "living_gen" | living_read => "living_read"
  | bedroom_gen => "bedroom_gen" | bedroom_read => "bedroom_read"
  | office => "office" | workshop => "workshop"
  | bathroom_gen => "bathroom_gen" | bathroom_mirror => "bathroom_mirror"
  | studio => "studio" | dining => "dining"
  | hallway => "hallway" | laundry => "laundry"
  | gym => "gym" | patio => "patio"
  end.

(** A Python dict with string keys, as the literal lists it. *)
Fixpoint dict_get {V : Type} (d : list (string * V)) (key : string) : option V :=
  match d with
  | [] => None
  | (k, v) :: r => if String.eqb k key then Some v else dict_get r key
  end.

(** The label the enum shows for a room type. *)
Definition room_type_label (t : RoomType) : option string :=
  dict_get room_type_items (room_type_id t).

Inductive LumensMode := MIN | AVG | MAX.

(* ------------------------------------------------------------------ *)
(** * The property group                                               *)
(* ------------------------------------------------------------------ *)

(** [MaterialEmissionProperties].  The pointer properties hold the object
    they point to, or [None]. *)
Record MaterialEmissionProperties := mkProps {
  lumens : npfloat;
  ler_preset : LerPreset;
  ler : Q;
  auto_area : bool;
  area : Q;
  num_lights : Z;
  strength : npfloat;
  room_area_source : RoomAreaSource;
  room_area : npfloat;
  wall_a : option Object;
  wall_b : option Object;
  height_source : HeightSource;
  height_object : option Object;
  room_height : Q;
  room_type : RoomType;
  lumens_min : npfloat;
  lumens_avg : npfloat;
  lumens_max : npfloat;
  temp_min : Z;
  temp_avg : Z;
  temp_max : Z }.

(** The record a new material gets: every property at its default. *)
Definition default_props : MaterialEmissionProperties :=
  mkProps (prop_default lumens_decl) LER_300 (prop_default ler_decl)
          true (prop_default area_decl) num_lights_default
          (prop_default strength_decl)
          AREA_MANUAL (prop_default room_area_decl) None None
          HEIGHT_MANUAL None (prop_default room_height_decl)
          living_gen 0 0 0 0%Z 0%Z 0%Z.

(** ** Attribute assignment, one function per assigned attribute *)

Definition set_lumens (v : npfloat) (p : MaterialEmissionProperties) :=
  mkProps (assign_float lumens_decl v) (ler_preset p) (ler p) (auto_area p) (area p)
          (num_lights p) (strength p) (room_area_source p) (room_area p)
          (wall_a p) (wall_b p) (height_source p) (height_object p)
          (room_height p) (room_type p) (lumens_min p) (lumens_avg p)
          (lumens_max p) (temp_min p) (temp_avg p) (temp_max p).

Definition set_ler_preset (k : LerPreset) (p : MaterialEmissionProperties) :=
  mkProps (lumens p) k (ler p) (auto_area p) (area p)
          (num_lights p) (strength p) (room_area_source p) (room_area p)
          (wall_a p) (wall_b p) (height_source p) (height_object p)
          (room_height p) (room_type p) (lumens_min p) (lumens_avg p)
          (lumens_max p) (temp_min p) (temp_avg p) (temp_max p).

Definition set_ler (v : Q) (p : MaterialEmissionProperties) :=
  mkProps (lumens p) (ler_preset p) (assign ler_decl v) (auto_area p) (area p)
          (num_lights p) (strength p) (room_area_source p) (room_area p)
          (wall_a p) (wall_b p) (height_source p) (height_object p)
          (room_height p) (room_type p) (lumens_min p) (lumens_avg p)
          (lumens_max p) (temp_min p) (temp_avg p) (temp_max p).

Definition set_strength (v : npfloat) (p : MaterialEmissionProperties) :=
  mkProps (lumens p) (ler_preset p) (ler p) (auto_area p) (area p)
          (num_lights p) (assign_float strength_decl v) (room_area_source p)
          (room_area p)
          (wall_a p) (wall_b p) (height_source p) (height_object p)
          (room_height p) (room_type p) (lumens_min p) (lumens_avg p)
          (lumens_max p) (temp_min p) (temp_avg p) (temp_max p).

Definition set_room_area (v : npfloat) (p : MaterialEmissionProperties) :=
  mkProps (lumens p) (ler_preset p) (ler p) (auto_area p) (area p)
          (num_lights p) (strength p) (room_area_source p)
          (assign_float room_area_decl v)
          (wall_a p) (wall_b p) (height_source p) (height_object p)
          (room_height p) (room_type p) (lumens_min p) (lumens_avg p)
          (lumens_max p) (temp_min p) (temp_avg p) (temp_max p).

Definition set_height_object (o : option Object) (p : MaterialEmissionProperties) :=
  mkProps (lumens p) (ler_preset p) (ler p) (auto_area p) (area p)
          (num_lights p) (strength p) (room_area_source p) (room_area p)
          (wall_a p) (wall_b p) (height_source p) o
          (room_height p) (room_type p) (lumens_min p) (lumens_avg p)
          (lumens_max p) (temp_min p) (temp_avg p) (temp_max p).

Definition set_room_height (v : Q) (p : MaterialEmissionProperties) :=
  mkProps (lumens p) (ler_preset p) (ler p) (auto_area p) (area p)
          (num_lights p) (strength p) (room_area_source p) (room_area p)
          (wall_a p) (wall_b p) (height_source p) (height_object p)
          (assign room_height_decl v) (room_type p) (lumens_min p)
          (lumens_avg p)
          (lumens_max p) (temp_min p) (temp_avg p) (temp_max p).

Definition set_lumens_min (v : npfloat) (p : MaterialEmissionProperties) :=
  mkProps (lumens p) (ler_preset p) (ler p) (auto_area p) (area p)
          (num_lights p) (strength p) (room_area_source p) (room_area p)
          (wall_a p) (wall_b p) (height_source p) (height_object p)
          (room_height p) (room_type p) (assign_float lumens_min_decl v)
          (lumens_avg p)
          (lumens_max p) (temp_min p) (temp_avg p) (temp_max p).

Definition set_lumens_avg (v : npfloat) (p : MaterialEmissionProperties) :=
  mkProps (lumens p) (ler_preset p) (ler p) (auto_area p) (area p)
          (num_lights p) (strength p) (room_area_source p) (room_area p)
          (wall_a p) (wall_b p) (height_source p) (height_object p)
          (room_height p) (room_type p) (lumens_min p)
          (assign_float lumens_avg_decl v)
          (lumens_max p) (temp_min p) (temp_avg p) (temp_max p).

Definition set_lumens_max (v : npfloat) (p : MaterialEmissionProperties) :=
  mkProps (lumens p) (ler_preset p) (ler p) (auto_area p) (area p)
          (num_lights p) (strength p) (room_area_source p) (room_area p)
          (wall_a p) (wall_b p) (height_source p) (height_object p)
          (room_height p) (room_type p) (lumens_min p) (lumens_avg p)
          (assign_float lumens_max_decl v) (temp_min p) (temp_avg p) (temp_max p).

(** [props.temp_min, props.temp_avg, props.temp_max = a, b, c]. *)
Definition set_temps (t : Z * Z * Z) (p : MaterialEmissionProperties) :=
  let '(a, b, c) := t in
  mkProps (lumens p) (ler_preset p) (ler p) (auto_area p) (area p)
          (num_lights p) (strength p) (room_area_source p) (room_area p)
          (wall_a p) (wall_b p) (height_source p) (height_object p)
          (room_height p) (room_type p) (lumens_min p) (lumens_avg p)
          (lumens_max p) a b c.

(* ------------------------------------------------------------------ *)
(** * NumPy: the array operations the add-on calls                     *)
(* ------------------------------------------------------------------ *)

Module np.

(** An array of shape (3,) and one of shape (3, 3), row by row. *)
Definition array3 : Type := Q * Q * Q.
Definition array33 : Type := array3 * array3 * array3.

Definition sub (a b : array3) : array3 :=
  let '(a0, a1, a2) := a in
  let '(b0, b1, b2) := b in (a0 - b0, a1 - b1, a2 - b2).

Definition dot (a b : array3) : Q :=
  let '(a0, a1, a2) := a in
  let '(b0, b1, b2) := b in a0 * b0 + a1 * b1 + a2 * b2.

Definition cross (a b : array3) : array3 :=
  let '(a0, a1, a2) := a in
  let '(b0, b1, b2) := b in
  (a1 * b2 - a2 * b1, a2 * b0 - a0 * b2, a0 * b1 - a1 * b0).

Definition count (pts : list array3) : Q := inject_Z (Z.of_nat (List.length pts)).

(** [pts.mean(axis=0)] of an array of shape (N, 3); the add-on calls it
    with N >= 3. *)
Definition mean (pts : list array3) : array3 :=
  let n := count pts in
  (py_sum (map (fun p => fst (fst p)) pts) / n,
   py_sum (map (fun p => snd (fst p)) pts) / n,
   py_sum (map (fun p => snd p) pts) / n).

(** [np.cov(pts.T)] for [pts] of shape (N, 3): the three coordinates are
    the variables and the points the observations; each variable is
    centred on its mean and the products are summed and divided by N - 1. *)
Definition cov (pts : list array3) : array33 :=
  let avg := mean pts in
  let X := map (fun p => sub p avg) pts in
  let fact := count pts - 1 in
  let c (f g : array3 -> Q) := py_sum (map (fun p => f p * g p) X) / fact in
  let c0 := fun p : array3 => fst (fst p) in
  let c1 := fun p : array3 => snd (fst p) in
  let c2 := fun p : array3 => snd p in
  ((c c0 c0, c c0 c1, c c0 c2),
   (c c1 c0, c c1 c1, c c1 c2),
   (c c2 c0, c c2 c1, c c2 c2)).

(** [a.min()] and [a.max()] of a one-dimensional array.  NumPy raises on
    an empty array; every call below is behind a length test. *)
Definition amin (xs : list Q) : Q :=
  match xs with [] => 0 | a :: r => fold_left Qmin r a end.
Definition amax (xs : list Q) : Q :=
  match xs with [] => 0 | a :: r => fold_left Qmax r a end.

(** [np.argmin] and [np.argmax] of an array of shape (3,): the index of
    the first occurrence of the extreme value. *)
Definition argmin (a : array3) : nat :=
  let '(a0, a1, a2) := a in
  if Qleb a0 a1 && Qleb a0 a2 then 0%nat
  else if Qleb a1 a2 then 1%nat else 2%nat.

Definition argmax (a : array3) : nat :=
  let '(a0, a1, a2) := a in
  if Qleb a1 a0 && Qleb a2 a0 then 0%nat
  else if Qleb a2 a1 then 1%nat else 2%nat.

(** [m[:, i]]: column [i] of a (3, 3) array. *)
Definition column (m : array33) (i : nat) : array3 :=
  let '((m00, m01, m02), (m10, m11, m12), (m20, m21, m22)) := m in
  match i with
  | 0%nat => (m00, m10, m20)
  | 1%nat => (m01, m11, m21)
  | _ => (m02, m12, m22)
  end.

(** [a / s] for a scalar [s]: [None] when [s] is zero, where NumPy raises
    nothing and fills the array.  The divisors below are norms, zero only
    on the zero vector: the array is then 0/0, nan in every component. *)
Definition div_scalar (a : array3) (s : Q) : option array3 :=
  if Qeq_bool s 0 then None
  else let '(a0, a1, a2) := a in Some (a0 / s, a1 / s, a2 / s).

(** [[v.x, v.y, v.z]]. *)
Definition of_vector (v : mathutils.Vector) : array3 :=
  (mathutils.x v, mathutils.y v, mathutils.z v).

End np.

(* ------------------------------------------------------------------ *)
(** * Materials, node trees and the context                            *)
(* ------------------------------------------------------------------ *)

(** A shader node, as far as the add-on reads and writes it: its type tag,
    its location, the [default_value] of its strength input ("Emission
    Strength" of a Principled BSDF, "Strength" of an Emission shader) and,
    for an output node, the index of the node linked into "Surface". *)
Record Node := mkNode {
  node_type : string;
  location : Q * Q;
  strength_value : npfloat;
  surface_from : option nat }.

Record Material := mkMaterial {
  emission_props : MaterialEmissionProperties;
  use_nodes : bool;
  nodes : list Node }.

(** [context.object] together with its [active_material] slot. *)
Record ContextObject := mkContextObject {
  ob : Object;
  active_material : option Material }.

Record Context := mkContext {
  object : option ContextObject;
  active_object : option Object }.

(** The outcome of an operator's [execute]: the set it returns, with the
    state it leaves and the reports it made, or the exception it raised. *)
Inductive Outcome (S : Type) :=
  | FINISHED (st : S) (log : list (string * string))
  | CANCELLED (st : S) (log : list (string * string))
  | RAISED (exn : string).

Arguments FINISHED {S} st log.
Arguments CANCELLED {S} st log.
Arguments RAISED {S} exn.

(* ------------------------------------------------------------------ *)
(** * bounding_box_area_xy                                              *)
(* ------------------------------------------------------------------ *)

Definition optional_to_list {A : Type} (o : option A) : list A :=
  match o with Some a => [a] | None => [] end.

(** The reference objects: the walls that are set, else the active object
    when it is a mesh. *)
Definition reference_objects (props : MaterialEmissionProperties)
                             (context : Context) : list Object :=
  let objects := optional_to_list (wall_a props) ++ optional_to_list (wall_b props) in
  match objects, active_object context with
  | [], Some o => if is_mesh o then [o] else objects
  | _, _ => objects
  end.

(** [verts_world]: the world-space vertices of the mesh objects among
    [objects]. *)
Definition gather_verts_world (objects : list Object) : list mathutils.Vector :=
  flat_map (fun obj =>
              if is_mesh obj
              then map (fun co => matrix_world obj @ co) (vertices (data obj))
              else [])
           objects.

Section NumPyLinalg.

(** [np.linalg.eig]: eigenvalues and a matrix whose columns are the
    eigenvectors.  [np.linalg.norm]: the norm of a vector. *)
Variable np_linalg_eig : np.array33 -> np.array3 * np.array33.
Variable np_linalg_norm : np.array3 -> Q.

(** The part of [bounding_box_area_xy] after the two early returns: the
    principal axes of [verts_world] and the rectangle bounding the
    projections.  An axis divided by a zero norm is nan in every component,
    and so are the projections on it, their extremes and the product: the
    area is nan. *)
Definition projected_area (verts_world : list mathutils.Vector) : npfloat :=
  let pts := map np.of_vector verts_world in
  let center := np.mean pts in
  let pts_centered := map (fun p => np.sub p center) pts in
  let cov := np.cov pts_centered in
  let '(eigvals, eigvecs) := np_linalg_eig cov in
  let normal := np.column eigvecs (np.argmin eigvals) in
  let axis_x := np.column eigvecs (np.argmax eigvals) in
  let axis_y := np.cross normal axis_x in
  match np.div_scalar axis_x (np_linalg_norm axis_x),
        np.div_scalar axis_y (np_linalg_norm axis_y) with
  | Some axis_x, Some axis_y =>
      let proj := map (fun p => (np.dot (np.sub p center) axis_x,
                                 np.dot (np.sub p center) axis_y)) pts in
      let min_x := np.amin (map fst proj) in
      let max_x := np.amax (map fst proj) in
      let min_y := np.amin (map snd proj) in
      let max_y := np.amax (map snd proj) in
      Finite (Qabs ((max_x - min_x) * (max_y - min_y)))
  | _, _ => NonFinite
  end.

Definition bounding_box_area_xy (props : MaterialEmissionProperties)
                                (context : Context) : npfloat :=
  let objects := reference_objects props context in
  match objects with
  | [] => Finite 0
  | _ =>
      let verts_world := gather_verts_world objects in
      if (List.length verts_world <? 3)%nat then Finite 0
      else projected_area verts_world
  end.

End NumPyLinalg.

(* ------------------------------------------------------------------ *)
(** * Property update callbacks                                        *)
(* ------------------------------------------------------------------ *)

(** The result of a callback: the record it leaves, or an exception. *)
Inductive Result (A : Type) :=
  | Ok (a : A)
  | Raise (exn : string).

Arguments Ok {A} a.
Arguments Raise {A} exn.

Definition digit_value (c : ascii) : option Z :=
  let n := nat_of_ascii c in
  if ((48 <=? n) && (n <=? 57))%nat then Some (Z.of_nat (n - 48)) else None.

Fixpoint parse_digits (s : string) (acc : Z) : option Z :=
  match s with
  | EmptyString => Some acc
  | String c r =>
      match digit_value c with
      | Some d => parse_digits r (10 * acc + d)%Z
      | None => None
      end
  end.

(** [float(s)] on the strings the add-on passes to it: a non-empty run of
    decimal digits is its value; anything else counts as the ValueError
    that [float('CUSTOM')] is. *)
Definition py_float (s : string) : option Q :=
  match s with
  | EmptyString => None
  | _ => option_map inject_Z (parse_digits s 0)
  end.

(** [update_ler_from_preset(self, context)]. *)
Definition update_ler_from_preset (self : MaterialEmissionProperties)
  : Result MaterialEmissionProperties :=
  if negb (String.eqb (ler_preset_id (ler_preset self)) "CUSTOM") then
    match py_float (ler_preset_id (ler_preset self)) with
    | Some v => Ok (set_ler v self)
    | None => Raise "ValueError"
    end
  else Ok self.

(** [update_height_from_object(self, context)]. *)
Definition update_height_from_object (self : MaterialEmissionProperties)
  : MaterialEmissionProperties :=
  match height_source self, height_object self with
  | HEIGHT_FROM_OBJECT, Some o =>
      if is_mesh o then
        let h := object_height (Some o) in
        if Qltb 0 h then set_room_height h self else self
      else self
  | _, _ => self
  end.

(* ------------------------------------------------------------------ *)
(** * material.calc_room_lumens                                        *)
(* ------------------------------------------------------------------ *)

(** The two dict literals of [execute]. *)
Definition lux_table : list (string * (Z * Z * Z)) :=
  [("kitchen_gen", (150, 250, 350)); ("kitchen_task", (300, 500, 700));
   ("living_gen", (100, 150, 200)); ("living_read", (300, 400, 500));
   ("bedroom_gen", (60, 100, 150)); ("bedroom_read", (200, 300, 400));
   ("office", (300, 400, 500)); ("workshop", (300, 500, 700));
   ("bathroom_gen", (150, 250, 350)); ("bathroom_mirror", (300, 500, 700));
   ("studio", (500, 750, 1000)); ("dining", (100, 150, 200));
   ("hallway", (50, 100, 150)); ("laundry", (200, 300, 400));
   ("gym", (200, 300, 400)); ("patio", (50, 100, 150))]%Z.

Definition temp_k_table : list (string * (Z * Z * Z)) :=
  [("kitchen_gen", (3000, 3500, 4000));
   ("kitchen_task", (4000, 4500, 5000));
   ("living_gen", (2700, 3000, 3500));
   ("living_read", (3000, 3500, 4000));
   ("bedroom_gen", (2500, 2700, 3000));
   ("bedroom_read", (2700, 3000, 3500));
   ("office", (4000, 4500, 5000));
   ("workshop", (4000, 5000, 6500));
   ("bathroom_gen", (3000, 3500, 4000));
   ("bathroom_mirror", (4000, 4500, 5000));
   ("studio", (5000, 5500, 6500));
   ("dining", (2700, 3000, 3500));
   ("hallway", (2700, 3000, 4000));
   ("laundry", (3500, 4000, 4500));
   ("gym", (4000, 4500, 5000));
   ("patio", (2700, 3000, 4000))]%Z.

(** [1 + 0.05 * max(0, (height * 3.28) - 10)]. *)
Definition h_factor (height : Q) : Q :=
  1 + (5 # 100) * Qmax 0 ((height * (328 # 100)) - 10).

(** The height update: [if props.height_source == 'FROM_OBJECT' and
    props.height_object: ...]. *)
Definition update_room_height (props : MaterialEmissionProperties)
  : MaterialEmissionProperties :=
  match height_source props, height_object props with
  | HEIGHT_FROM_OBJECT, Some o =>
      let h := object_height (Some o) in
      if Qltb 0 h then set_room_height h props else props
  | _, _ => props
  end.

(** [execute] from the height update on: everything after the area guard. *)
Definition room_lumens_body (props : MaterialEmissionProperties)
  : Outcome MaterialEmissionProperties :=
  let props := update_room_height props in
  let area := room_area props in
  let height := room_height props in
  match dict_get lux_table (room_type_id (room_type props)) with
  | None => RAISED "KeyError"
  | Some (lux0, lux1, lux2) =>
      match dict_get temp_k_table (room_type_id (room_type props)) with
      | None => RAISED "KeyError"
      | Some temp_k =>
          let hf := h_factor height in
          let props := set_lumens_min (inject_Z lux0 * area * hf) props in
          let props := set_lumens_avg (inject_Z lux1 * area * hf) props in
          let props := set_lumens_max (inject_Z lux2 * area * hf) props in
          FINISHED (set_temps temp_k props) []
      end
  end.

(** The state in which a finished run leaves the properties. *)
Definition room_lumens_result (p : MaterialEmissionProperties)
                              (lux temp : Z * Z * Z) : MaterialEmissionProperties :=
  let '(lux0, lux1, lux2) := lux in
  let p2 := update_room_height p in
  let hf := h_factor (room_height p2) in
  set_temps temp
    (set_lumens_max (inject_Z lux2 * room_area p2 * hf)
       (set_lumens_avg (inject_Z lux1 * room_area p2 * hf)
          (set_lumens_min (inject_Z lux0 * room_area p2 * hf) p2))).

Section RoomLumens.

Variable np_linalg_eig : np.array33 -> np.array3 * np.array33.
Variable np_linalg_norm : np.array3 -> Q.

(** [MATERIAL_OT_calc_room_lumens.execute]; the state is the material's
    [emission_props].  The guard [if area <= 0] is false on an area that
    is nan: the run then goes on and stores it. *)
Definition calc_room_lumens (context : Context)
  : Outcome MaterialEmissionProperties :=
  match object context with
  | None => RAISED "AttributeError"
  | Some cob =>
      match active_material cob with
      | None => RAISED "AttributeError"
      | Some mat =>
          let props := emission_props mat in
          match room_area_source props with
          | AREA_BOUNDING_BOX =>
              let area := bounding_box_area_xy np_linalg_eig np_linalg_norm
                                               props context in
              if fleb area 0
              then CANCELLED props [("WARNING", "Invalid bounding box area")]
              else room_lumens_body (set_room_area area props)
          | AREA_MANUAL => room_lumens_body props
          end
      end
  end.

End RoomLumens.

(* ------------------------------------------------------------------ *)
(** * material.use_lumens                                              *)
(* ------------------------------------------------------------------ *)

Definition use_lumens (mode : LumensMode) (context : Context)
  : Outcome MaterialEmissionProperties :=
  match object context with
  | None => RAISED "AttributeError"
  | Some cob =>
      match active_material cob with
      | None => RAISED "AttributeError"
      | Some mat =>
          let props := emission_props mat in
          let val := match mode with
                     | MIN => lumens_min props
                     | AVG => lumens_avg props
                     | MAX => lumens_max props
                     end in
          FINISHED (set_lumens val props) []
      end
  end.

(* ------------------------------------------------------------------ *)
(** * material.calc_emission_strength                                  *)
(* ------------------------------------------------------------------ *)

(** Python's float division: a zero divisor is a ZeroDivisionError,
    whatever the dividend. *)
Definition py_div (a : npfloat) (b : Q) : option npfloat :=
  if Qeq_bool b 0 then None else Some (a / b)%float.

Fixpoint find_index (f : Node -> bool) (l : list Node) : option nat :=
  match l with
  | [] => None
  | n :: r => if f n then Some 0%nat else option_map S (find_index f r)
  end.

Fixpoint update_at (i : nat) (f : Node -> Node) (l : list Node) : list Node :=
  match l, i with
  | [], _ => []
  | n :: r, O => f n :: r
  | n :: r, S j => n :: update_at j f r
  end.

Definition has_type (t : string) (n : Node) : bool := String.eqb (node_type n) t.

Definition with_strength (s : npfloat) (n : Node) : Node :=
  mkNode (node_type n) (location n) s (surface_from n).

Definition with_surface_from (j : nat) (n : Node) : Node :=
  mkNode (node_type n) (location n) (strength_value n) (Some j).

(** The output node [nodes.new("ShaderNodeOutputMaterial")] creates: at the
    origin, with nothing linked into it. *)
Definition new_output_node : Node := mkNode "OUTPUT_MATERIAL" (0, 0) 0 None.

(** "Update material nodes": write [strength] into the Principled BSDF that
    feeds the first output node, or into a new Emission shader linked to
    that output. *)
Definition update_material_nodes (strength : npfloat) (nodes0 : list Node)
  : list Node :=
  let '(nodes1, out_i) :=
    match find_index (has_type "OUTPUT_MATERIAL") nodes0 with
    | Some i => (nodes0, i)
    | None => (nodes0 ++ [new_output_node], List.length nodes0)
    end in
  let out := nth out_i nodes1 new_output_node in
  let current :=
    match surface_from out with
    | Some j => option_map (fun n => (j, n)) (nth_error nodes1 j)
    | None => None
    end in
  let via_emission :=
    let em := mkNode "EMISSION" (fst (location out) - 300, snd (location out))
                     strength None in
    update_at out_i (with_surface_from (List.length nodes1)) nodes1 ++ [em] in
  match current with
  | Some (j, n) =>
      if has_type "BSDF_PRINCIPLED" n
      then update_at j (with_strength strength) nodes1
      else via_emission
  | None => via_emission
  end.

Section EmissionStrength.

(** [bpy.ops.object.transform_apply(location=False, rotation=False,
    scale=True)] on the one selected object: the host bakes the object's
    scale into its mesh. *)
Variable transform_apply_scale : Object -> Object.

(** [MATERIAL_OT_calc_emission_strength.execute]; the state is
    [context.object] with its material.  The view layer's selection,
    which the operator saves and restores around the scale application,
    is not part of it. *)
Definition calc_emission_strength (context : Context)
  : Outcome (option ContextObject) :=
  match object context with
  | None => CANCELLED None [("WARNING", "Select a mesh object")]
  | Some cob =>
      let obj := ob cob in
      if negb (is_mesh obj)
      then CANCELLED (Some cob) [("WARNING", "Select a mesh object")]
      else
        match active_material cob with
        | None => CANCELLED (Some cob) [("WARNING", "No active material found")]
        | Some mat =>
            let props := emission_props mat in
            let obj := transform_apply_scale obj in
            let area := if negb (auto_area props) then area props
                        else get_active_material_area (Some obj) in
            if Qleb area 0
            then CANCELLED (Some (mkContextObject obj (Some mat)))
                           [("WARNING", "Invalid emission area")]
            else
              let total_area := area * inject_Z (num_lights props) in
              match py_div (lumens props) (ler props) with
              | None => RAISED "ZeroDivisionError"
              | Some q =>
                  match py_div q total_area with
                  | None => RAISED "ZeroDivisionError"
                  | Some strength =>
                      let props := set_strength strength props in
                      let mat := mkMaterial props true
                                   (update_material_nodes strength (nodes mat)) in
                      FINISHED (Some (mkContextObject obj (Some mat)))
                               [("INFO", "Emission Strength set to {strength:.4f}")]
                  end
              end
        end
  end.

End EmissionStrength.

(* ------------------------------------------------------------------ *)
(** * The declared ranges and the operations on the property group     *)
(* ------------------------------------------------------------------ *)

(** No number is below [m] in [v]: a number that is at least [m], or nan. *)
Definition not_below (m : Q) (v : npfloat) : Prop :=
  match v with
  | Finite q => m <= q
  | NonFinite => True
  end.

(** Every property with a declared minimum respects it: none holds a
    number below its minimum. *)
Definition in_declared_range (p : MaterialEmissionProperties) : Prop :=
  not_below 0 (lumens p) /\ 1 <= ler p /\ (1 # 10000) <= area p /\
  (num_lights_min <= num_lights p)%Z /\ not_below 1 (room_area p) /\
  (5 # 10) <= room_height p.

(** One operation on a material's [emission_props]: an edit of [ler] in the
    panel, the two update callbacks fired by the edit that triggers them, and
    a run of each operator that assigns a property.  The two remaining
    operators, [material.make_it_lamp] and [material.apply_temperature],
    edit the shader nodes only and assign no property of the group. *)
Inductive step : MaterialEmissionProperties -> MaterialEmissionProperties -> Prop :=
  | step_edit_ler v p :
      step p (set_ler v p)
  | step_select_preset k p p' :
      update_ler_from_preset (set_ler_preset k p) = Ok p' ->
      step p p'
  | step_pick_height_object o p :
      step p (update_height_from_object (set_height_object o p))
  | step_calc_room_lumens_finished eig norm context cob mat p' log :
      object context = Some cob -> active_material cob = Some mat ->
      calc_room_lumens eig norm context = FINISHED p' log ->
      step (emission_props mat) p'
  | step_calc_room_lumens_cancelled eig norm context cob mat p' log :
      object context = Some cob -> active_material cob = Some mat ->
      calc_room_lumens eig norm context = CANCELLED p' log ->
      step (emission_props mat) p'
  | step_use_lumens mode context cob mat p' log :
      object context = Some cob -> active_material cob = Some mat ->
      use_lumens mode context = FINISHED p' log ->
      step (emission_props mat) p'
  | step_calc_emission_strength apply_scale context cob mat cob' mat' log :
      object context = Some cob -> active_material cob = Some mat ->
      (calc_emission_strength apply_scale context = FINISHED (Some cob') log \/
       calc_emission_strength apply_scale context = CANCELLED (Some cob') log) ->
      active_material cob' = Some mat' ->
      step (emission_props mat) (emission_props mat').

(** The states a material's property group reaches from its defaults by
    these operations. *)
Inductive reachable : MaterialEmissionProperties -> Prop :=
  | reachable_default : reachable default_props
  | reachable_step p p' : reachable p -> step p p' -> reachable p'.

(* ------------------------------------------------------------------ *)
(** * Notions the specification uses                                   *)
(* ------------------------------------------------------------------ *)

(** The summed area of the polygons that use the object's active material. *)
Definition active_material_polygon_area (o : Object) : Q :=
  py_sum (map calc_area
            (filter (fun f => Z.eqb (material_index f) (active_material_index o))
                    (faces (data o)))).

(** The emission area of a run: the manual [area] when [auto_area] is off,
    the polygon area of the (scale-applied) object when it is on. *)
Definition emission_area (props : MaterialEmissionProperties) (obj : Object) : Q :=
  if auto_area props then active_material_polygon_area obj else area props.

(** The invalid-input cases of [material.calc_emission_strength]. *)
Definition emission_input_invalid (apply_scale : Object -> Object)
                                  (context : Context) : bool :=
  match object context with
  | None => true
  | Some cob =>
      negb (is_mesh (ob cob)) ||
      match active_material cob with
      | None => true
      | Some mat =>
          Qleb (if auto_area (emission_props mat)
                then get_active_material_area (Some (apply_scale (ob cob)))
                else area (emission_props mat)) 0
      end
  end.

(** The lux figure a room-type label shows: the number between the opening
    parenthesis and " Lux)". *)
Fixpoint after_open_paren (s : string) : option string :=
  match s with
  | EmptyString => None
  | String c r => if Ascii.eqb c "("%char then Some r else after_open_paren r
  end.

Fixpoint split_at_space (s : string) : string * string :=
  match s with
  | EmptyString => (EmptyString, EmptyString)
  | String c r =>
      if Ascii.eqb c " "%char then (EmptyString, r)
      else let '(a, b) := split_at_space r in (String c a, b)
  end.

Definition label_lux (label : string) : option Z :=
  match after_open_paren label with
  | None => None
  | Some r =>
      let '(num, rest) := split_at_space r in
      if String.eqb rest "Lux)" then
        match num with
        | EmptyString => None
        | _ => parse_digits num 0
        end
      else None
  end.

(** The width times the height of the axis-aligned rectangle that bounds the
    points [pts], taken relative to [center], in the coordinates given by
    the two directions [e1] and [e2]. *)
Definition bounding_rectangle_area (center e1 e2 : np.array3)
                                   (pts : list np.array3) : Q :=
  let xs := map (fun p => np.dot (np.sub p center) e1) pts in
  let ys := map (fun p => np.dot (np.sub p center) e2) pts in
  (np.amax xs - np.amin xs) * (np.amax ys - np.amin ys).

(** The index left over by two distinct indices of 0, 1, 2. *)
Definition third_index (i j : nat) : nat := (3 - i - j)%nat.

(** The columns of [m] are three orthogonal unit vectors. *)
Definition orthonormal_columns (m : np.array33) : Prop :=
  let c0 := np.column m 0 in
  let c1 := np.column m 1 in
  let c2 := np.column m 2 in
  np.dot c0 c0 == 1 /\ np.dot c1 c1 == 1 /\ np.dot c2 c2 == 1 /\
  np.dot c0 c1 == 0 /\ np.dot c0 c2 == 0 /\ np.dot c1 c2 == 0.

(** [n] is the Euclidean norm of [v]. *)
Definition is_norm_of (v : np.array3) (n : Q) : Prop :=
  0 <= n /\ n * n == np.dot v v.

(** [m] is [s] times the identity. *)
Definition is_scalar_matrix (m : np.array33) (s : Q) : Prop :=
  let '((m00, m01, m02), (m10, m11, m12), (m20, m21, m22)) := m in
  m00 == s /\ m11 == s /\ m22 == s /\
  m01 == 0 /\ m02 == 0 /\ m10 == 0 /\ m12 == 0 /\ m20 == 0 /\ m21 == 0.

(** Two arrays of shape (3,) hold equal numbers. *)
Definition eq3 (u v : np.array3) : Prop :=
  let '(u0, u1, u2) := u in
  let '(v0, v1, v2) := v in u0 == v0 /\ u1 == v1 /\ u2 == v2.

(** [t * v] for a scalar [t]. *)
Definition scale3 (t : Q) (v : np.array3) : np.array3 :=
  let '(v0, v1, v2) := v in (t * v0, t * v1, t * v2).

(** The covariance matrix [bounding_box_area_xy] hands to [np.linalg.eig]. *)
Definition vertex_covariance (verts_world : list mathutils.Vector) : np.array33 :=
  let pts := map np.of_vector verts_world in
  np.cov (map (fun p => np.sub p (np.mean pts)) pts).

(* ------------------------------------------------------------------ *)
(** * Sample scenes                                                    *)
(* ------------------------------------------------------------------ *)

(** An eigen-solver and a norm that are exact on axis-aligned data: the
    eigenvalues of a diagonal matrix are its diagonal, with the unit
    vectors as eigenvectors, and the norm of a vector along one axis is
    the absolute value of its only non-zero coordinate. *)
Definition eig_diagonal (m : np.array33) : np.array3 * np.array33 :=
  let '((m00, _, _), (_, m11, _), (_, _, m22)) := m in
  ((m00, m11, m22), ((1, 0, 0), (0, 1, 0), (0, 0, 1))).

Definition norm_axis_parallel (v : np.array3) : Q :=
  let '(v0, v1, v2) := v in Qabs v0 + Qabs v1 + Qabs v2.

(** The eight corners of the box [-a, a] x [-b, b] x [-c, c]. *)
Definition box_corners (a b c : Q) : list mathutils.Vector :=
  [mathutils.mkVector (- a) (- b) (- c); mathutils.mkVector (- a) (- b) c;
   mathutils.mkVector (- a) b (- c);     mathutils.mkVector (- a) b c;
   mathutils.mkVector a (- b) (- c);     mathutils.mkVector a (- b) c;
   mathutils.mkVector a b (- c);         mathutils.mkVector a b c].

(** The faces of that box, all in material slot 0. *)
Definition box_faces (a b c : Q) : list Face :=
  [mkFace 0 (4 * b * c); mkFace 0 (4 * b * c);
   mkFace 0 (4 * a * c); mkFace 0 (4 * a * c);
   mkFace 0 (4 * a * b); mkFace 0 (4 * a * b)].

Definition box_object (a b c : Q) : Object :=
  mkObject "MESH" (mkMesh (box_corners a b c) (box_faces a b c))
           mathutils.identity 0.

(** The host's default cube: 2 m on each side, centred on the origin. *)
Definition default_cube : Object := box_object 1 1 1.

(** A room of 4 m by 2 m, 1 m high. *)
Definition flat_room : Object := box_object 2 1 (1 # 2).

(** A camera: an object that is not a mesh. *)
Definition camera : Object :=
  mkObject "CAMERA" (mkMesh [] []) mathutils.identity 0.

Definition context_of (o : Object) (props : MaterialEmissionProperties) : Context :=
  mkContext (Some (mkContextObject o (Some (mkMaterial props false []))))
            (Some o).

(** The default cube with a new material: every property at its default. *)
Definition default_context : Context := context_of default_cube default_props.



(** Area from the bounding box with no wall set and a camera as the active
    object; height from the default cube. *)
Definition no_reference_props : MaterialEmissionProperties :=
  mkProps 850 LER_300 300 true (2 # 100) 1 0
          AREA_BOUNDING_BOX 20 None None HEIGHT_FROM_OBJECT (Some default_cube)
          (27 # 10) living_gen 0 0 0 0%Z 0%Z 0%Z.

Definition no_reference_context : Context :=
  mkContext (Some (mkContextObject default_cube
                     (Some (mkMaterial no_reference_props false []))))
            (Some camera).

(** Manual area, height from the default cube. *)
Definition measured_height_props : MaterialEmissionProperties :=
  mkProps 850 LER_300 300 true (2 # 100) 1 0
          AREA_MANUAL 20 None None HEIGHT_FROM_OBJECT (Some default_cube)
          (27 # 10) living_gen 0 0 0 0%Z 0%Z 0%Z.

Definition measured_height_context : Context :=
  context_of default_cube measured_height_props.

(** Area from the bounding box of one wall object. *)
Definition wall_props (wall : Object) : MaterialEmissionProperties :=
  mkProps 850 LER_300 300 true (2 # 100) 1 0
          AREA_BOUNDING_BOX 20 (Some wall) None HEIGHT_MANUAL None
          (27 # 10) living_gen 0 0 0 0%Z 0%Z 0%Z.

Definition wall_context (wall : Object) : Context :=
  context_of default_cube (wall_props wall).

(* ------------------------------------------------------------------ *)
(** * Further notions about the scene                                  *)
(* ------------------------------------------------------------------ *)

(** The total area of the faces of an object's mesh. *)
Definition mesh_area (o : Object) : Q := py_sum (map calc_area (faces (data o))).

(** The object moved by [t]: [t] is added to the translation column of
    [matrix_world]. *)
Definition translated (t : mathutils.Vector) (o : Object) : Object :=
  let m := matrix_world o in
  let shift (r : Q * Q * Q * Q) (d : Q) := let '(a, b, c, e) := r in (a, b, c, e + d) in
  mkObject (type o) (data o)
           (mathutils.mkMatrix (shift (mathutils.row0 m) (mathutils.x t))
                               (shift (mathutils.row1 m) (mathutils.y t))
                               (shift (mathutils.row2 m) (mathutils.z t))
                               (mathutils.row3 m))
           (active_material_index o).

(** The number of vertices of the meshes among [objects]. *)
Definition mesh_vertex_count (objects : list Object) : nat :=
  list_sum (map (fun o => if is_mesh o then List.length (vertices (data o)) else 0%nat)
                objects).

(** The context after the material's property group has become [p]. *)
Definition with_emission_props (p : MaterialEmissionProperties)
                               (context : Context) : Context :=
  match object context with
  | Some cob =>
      match active_material cob with
      | Some mat =>
          mkContext (Some (mkContextObject (ob cob)
                             (Some (mkMaterial p (use_nodes mat) (nodes mat)))))
                    (active_object context)
      | None => context
      end
  | None => context
  end.

(** The default cube with its faces in slot 0 and slot 1 active. *)
Definition second_slot_cube : Object :=
  mkObject "MESH" (data default_cube) mathutils.identity 1.

(** A camera as the only wall, with the flat room as the active object. *)
Definition camera_wall_context : Context :=
  mkContext (Some (mkContextObject flat_room
                     (Some (mkMaterial (wall_props camera) false []))))
            (Some flat_room).

(* ------------------------------------------------------------------ *)
(** * Further notions about the node tree and the presets              *)
(* ------------------------------------------------------------------ *)

(** The node linked into the "Surface" input of the first output node. *)
Definition surface_node (nodes : list Node) : option Node :=
  match find_index (has_type "OUTPUT_MATERIAL") nodes with
  | None => None
  | Some i =>
      match nth_error nodes i with
      | None => None
      | Some out =>
          match surface_from out with
          | None => None
          | Some j => nth_error nodes j
          end
      end
  end.

(** The strength the material renders with: the strength input of that
    node. *)
Definition surface_strength (nodes : list Node) : option npfloat :=
  option_map strength_value (surface_node nodes).

(** The surface is fed by a Principled BSDF. *)
Definition surface_is_principled (nodes : list Node) : bool :=
  match surface_node nodes with
  | Some n => has_type "BSDF_PRINCIPLED" n
  | None => false
  end.

(** The material has an output node. *)
Definition has_output (nodes : list Node) : bool :=
  match find_index (has_type "OUTPUT_MATERIAL") nodes with
  | Some _ => true
  | None => false
  end.

(** The number of Emission shaders in the tree. *)
Definition emission_count (nodes : list Node) : nat :=
  List.length (filter (has_type "EMISSION") nodes).

(** The items list of the [ler_preset] property: identifier and label. *)
Definition ler_preset_items : list (string * string) :=
  [("300", "White LED / Standard (300)");
   ("250", "Warm Incandescent (250)");
   ("683", "Ideal Green (683)");
   ("150", "Simulate Higher Exposure – Natural Look (150)");
   ("100", "Simulate Higher Exposure – Bright Room (100)");
   ("50", "Simulate Higher Exposure – Very Bright (50)");
   ("CUSTOM", "Custom")].

(** The number a preset label shows between its parentheses. *)
Fixpoint until_close_paren (s : string) : option string :=
  match s with
  | EmptyString => None
  | String c r =>
      if Ascii.eqb c ")"%char
      then match r with EmptyString => Some EmptyString | _ => None end
      else option_map (String c) (until_close_paren r)
  end.

Definition label_number (label : string) : option Z :=
  match after_open_paren label with
  | None => None
  | Some r =>
      match until_close_paren r with
      | Some (String c num) => parse_digits (String c num) 0
      | _ => None
      end
  end.

(** A material whose output is fed by a Principled BSDF, and one whose
    output is fed by a Diffuse BSDF. *)
Definition principled_nodes : list Node :=
  [mkNode "BSDF_PRINCIPLED" (0, 0) 0 None;
   mkNode "OUTPUT_MATERIAL" (300, 0) 0 (Some 0%nat)].

Definition diffuse_nodes : list Node :=
  [mkNode "BSDF_DIFFUSE" (0, 0) 0 None;
   mkNode "OUTPUT_MATERIAL" (300, 0) 0 (Some 0%nat)].

(* ------------------------------------------------------------------ *)
(** * The panel                                                        *)
(* ------------------------------------------------------------------ *)

Module layout.

(** What [draw] puts into a layout: a label (its text, with the values an
    f-string formats into it), a property field, an operator button (with
    the [mode] assigned to it, if any), a separator, a box and a row. *)
Inductive item :=
  | label (text : string) (icon : option string) (values : list npfloat)
  | prop (name : string)
  | operator (idname : string) (text : option string) (icon : option string)
             (mode : option LumensMode)
  | separator
  | box (items : list item)
  | row (align enabled : bool) (items : list item).

(** The operator buttons of a layout, in drawing order. *)
Fixpoint operators (i : item) : list (string * option LumensMode) :=
  match i with
  | operator idname _ _ mode => [(idname, mode)]
  | box items => flat_map operators items
  | row _ _ items => flat_map operators items
  | _ => []
  end.

(** The texts of the labels of a layout. *)
Fixpoint labels (i : item) : list string :=
  match i with
  | label text _ _ => [text]
  | box items => flat_map labels items
  | row _ _ items => flat_map labels items
  | _ => []
  end.

(** The property fields of a layout that can be edited. *)
Fixpoint editable (enabled : bool) (i : item) : list string :=
  match i with
  | prop name => if enabled then [name] else []
  | box items => flat_map (editable enabled) items
  | row _ e items => flat_map (editable (enabled && e)) items
  | _ => []
  end.

End layout.

(** The three buttons of a Min / Avg / Max row. *)
Definition mode_buttons (idname : string) : layout.item :=
  layout.row true true
    [layout.operator idname (Some "Min") None (Some MIN);
     layout.operator idname (Some "Avg") None (Some AVG);
     layout.operator idname (Some "Max") None (Some MAX)].

(** The blocks of [draw] that depend on the properties: the lines under
    "Ceiling Height Source", the lumens and the temperature rows, and the
    box under "Use Material Area". *)
Definition height_items (props : MaterialEmissionProperties) : list layout.item :=
  match height_source props with
  | HEIGHT_MANUAL => [layout.prop "room_height"]
  | HEIGHT_FROM_OBJECT =>
      layout.prop "height_object" ::
      match height_object props with
      | Some o =>
          [layout.label "Measured Height: {h:.3f} m" None
                        [Finite (object_height (Some o))]]
      | None => []
      end
  end.

Definition lumens_items (props : MaterialEmissionProperties) : list layout.item :=
  if fltb 0 (lumens_avg props)
  then [layout.label
          "Lumens → {props.lumens_min:.0f} / {props.lumens_avg:.0f} / {props.lumens_max:.0f}"
          None [lumens_min props; lumens_avg props; lumens_max props];
        mode_buttons "material.use_lumens"]
  else [].

Definition temperature_items (props : MaterialEmissionProperties) : list layout.item :=
  if (0 <? temp_avg props)%Z
  then [layout.label
          "Color Temp → {props.temp_min}K / {props.temp_avg}K / {props.temp_max}K"
          None [Finite (inject_Z (temp_min props));
                Finite (inject_Z (temp_avg props));
                Finite (inject_Z (temp_max props))];
        mode_buttons "material.apply_temperature"]
  else [].

Definition material_area_items (props : MaterialEmissionProperties)
                               (obj : Object) : list layout.item :=
  if auto_area props
  then let material_area := get_active_material_area (Some obj) in
       [if Qltb 0 material_area
        then layout.label "Material area: {material_area:.4f} m²" None
                          [Finite material_area]
        else layout.label "No valid polygons found" (Some "ERROR") []]
  else [layout.prop "area"].

Section Panel.

Variable np_linalg_eig : np.array33 -> np.array3 * np.array33.
Variable np_linalg_norm : np.array3 -> Q.

(** The lines under "Room Area Source". *)
Definition area_items (props : MaterialEmissionProperties) (context : Context)
  : list layout.item :=
  let calculated_area := bounding_box_area_xy np_linalg_eig np_linalg_norm
                                              props context in
  match room_area_source props with
  | AREA_MANUAL => [layout.prop "room_area"]
  | AREA_BOUNDING_BOX =>
      [layout.label "Bounding Box Objects (XY projection):" None [];
       layout.prop "wall_a";
       layout.prop "wall_b";
       if fltb 0 calculated_area
       then layout.label "Calculated Area: {calculated_area:.2f} m²"
                         None [calculated_area]
       else layout.label "Select at least one valid mesh"
                         (Some "INFO") []]
  end.

(** [MATERIAL_PT_emission_calculator.draw]: the items put into
    [self.layout]. *)
Definition draw (context : Context) : list layout.item :=
  let obj := object context in
  let mat := match obj with Some cob => active_material cob | None => None end in
  match obj, mat with
  | Some cob, Some mat =>
      let props := emission_props mat in
      [layout.box
         [layout.label "Quick Setup" (Some "LIGHT_DATA") [];
          layout.operator "material.make_it_lamp" None
                          (Some "SHADING_RENDERED") None];
       layout.box
         ([layout.label "Room Lighting Estimator" (Some "LIGHT") [];
           layout.prop "room_area_source";
           layout.box (area_items props context);
           layout.prop "height_source";
           layout.box (height_items props);
           layout.prop "room_type";
           layout.operator "material.calc_room_lumens" None
                           (Some "LIGHT_HEMI") None]
          ++ lumens_items props ++ temperature_items props);
       layout.separator;
       layout.label "Emission Calculation" (Some "SHADING_RENDERED") [];
       layout.prop "lumens";
       layout.prop "ler_preset";
       layout.row false
                  (String.eqb (ler_preset_id (ler_preset props)) "CUSTOM")
                  [layout.prop "ler"];
       layout.separator;
       layout.prop "auto_area";
       layout.box (material_area_items props (ob cob));
       layout.prop "num_lights";
       layout.label
         "Note: Scale is auto-applied during strength calculation"
         (Some "INFO") [];
       layout.operator "material.calc_emission_strength" None
                       (Some "LIGHT") None;
       layout.label "Emission Strength: {props.strength:.4f}" None
                    [strength props]]
  | _, _ => [layout.label "Select a mesh with a material" (Some "ERROR") []]
  end.

End Panel.

(** The tuple [classes] that [register] registers: each class with the
    host class it derives from and its [bl_idname]. *)
Definition classes : list (string * string * option string) :=
  [("MaterialEmissionProperties", "PropertyGroup", None);
   ("MATERIAL_OT_make_it_lamp", "Operator", Some "material.make_it_lamp");
   ("MATERIAL_PT_emission_calculator", "Panel",
    Some "MATERIAL_PT_emission_calculator");
   ("MATERIAL_OT_calc_room_lumens", "Operator", Some "material.calc_room_lumens");
   ("MATERIAL_OT_use_lumens", "Operator", Some "material.use_lumens");
   ("MATERIAL_OT_apply_temperature", "Operator",
    Some "material.apply_temperature");
   ("MATERIAL_OT_calc_emission_strength", "Operator",
    Some "material.calc_emission_strength")].

(** The [bl_idname] of every registered operator. *)
Definition registered_operators : list string :=
  flat_map (fun c => match c with
                     | (_, "Operator", Some idname) => [idname]
                     | _ => []
                     end)
           classes.

(** All operator buttons, all labels and all editable fields of a panel. *)
Definition panel_operators (items : list layout.item)
  : list (string * option LumensMode) :=
  flat_map layout.operators items.

Definition panel_labels (items : list layout.item) : list string :=
  flat_map layout.labels items.

Definition panel_editable (items : list layout.item) : list string :=
  flat_map (layout.editable true) items.

(* ------------------------------------------------------------------ *)
(** * The shader node tree as the node-editing operators see it        *)
(* ------------------------------------------------------------------ *)

(** [material.make_it_lamp] and [material.apply_temperature] add, remove
    and link nodes, so they are embedded over the whole tree: every node
    with its sockets, and every link.  A node is identified by its [name],
    which the host keeps unique.  [nodes.new] appends the new node to the
    collection; [nodes.remove] takes the node's links with it;
    [links.new] into an input socket replaces the link that was there.
    What a new node of a given [bl_idname] looks like is the host's
    business and a parameter ([template]). *)
From Stdlib Require DecimalString.

Module graph.

Record Input := mkInput { in_name : string; default_value : option Q }.
Record Output := mkOutput { out_name : string; out_type : string }.

Record Node := mkNode {
  name : nat;
  type : string;
  location : Q * Q;
  inputs : list Input;
  outputs : list Output }.

Record Link := mkLink {
  from_node : nat;
  from_socket : string;
  to_node : nat;
  to_socket : string }.

Record NodeTree := mkNodeTree { nodes : list Node; links : list Link }.

(** A material; [node_tree] is the tree the host shows once [use_nodes]
    is set. *)
Record Material := mkMaterial {
  emission_props : MaterialEmissionProperties;
  use_nodes : bool;
  node_tree : NodeTree }.

(** [context.object], as its [active_material] slot. *)
Record Context := mkContext { object : option (option Material) }.

(** [str] of a Python [int], as an f-string puts it into a message. *)
Definition str (z : Z) : string :=
  DecimalString.NilZero.string_of_int (Z.to_int z).

Definition bind {A B : Type} (r : Result A) (k : A -> Result B) : Result B :=
  match r with
  | Ok a => k a
  | Raise exn => Raise exn
  end.

Notation "x <- e ;; k" := (bind e (fun x => k))
  (at level 61, e at next level, right associativity).

Definition is_type (t : string) (n : Node) : bool := String.eqb (type n) t.

Definition has_input (s : string) (n : Node) : bool :=
  existsb (fun i => String.eqb (in_name i) s) (inputs n).

Definition has_output (s : string) (n : Node) : bool :=
  existsb (fun o => String.eqb (out_name o) s) (outputs n).

(** [any(output.type == 'SHADER' for output in node.outputs)]. *)
Definition is_shader (n : Node) : bool :=
  existsb (fun o => String.eqb (out_type o) "SHADER") (outputs n).

(** [next((n for n in nodes if ...), None)]. *)
Definition first_node (f : Node -> bool) (t : NodeTree) : option Node :=
  find f (nodes t).

Definition with_name (k : nat) (n : Node) : Node :=
  mkNode k (type n) (location n) (inputs n) (outputs n).

Definition with_location (l : Q * Q) (n : Node) : Node :=
  mkNode (name n) (type n) l (inputs n) (outputs n).

Definition with_inputs (i : list Input) (n : Node) : Node :=
  mkNode (name n) (type n) (location n) i (outputs n).

(** [inputs[s].default_value = v]: the first socket of that name. *)
Fixpoint set_named (s : string) (v : Q) (l : list Input) : list Input :=
  match l with
  | [] => []
  | i :: r => if String.eqb (in_name i) s
              then mkInput (in_name i) (Some v) :: r
              else i :: set_named s v r
  end.

(** [inputs[0].default_value = v]. *)
Definition set_first (v : Q) (l : list Input) : list Input :=
  match l with
  | [] => []
  | i :: r => mkInput (in_name i) (Some v) :: r
  end.

(** The two assignments on a node, and the guarded one
    ([if s in node.inputs: ...]). *)
Definition set_on (s : string) (v : Q) (n : Node) : Node :=
  with_inputs (set_named s v (inputs n)) n.

Definition set_first_on (v : Q) (n : Node) : Node :=
  with_inputs (set_first v (inputs n)) n.

Definition set_if_present (s : string) (v : Q) (n : Node) : Node :=
  if has_input s n then set_on s v n else n.

(** [inputs[s].default_value] of a node. *)
Definition input_value (s : string) (n : Node) : option Q :=
  match find (fun i => String.eqb (in_name i) s) (inputs n) with
  | Some i => default_value i
  | None => None
  end.

Definition first_input_value (n : Node) : option Q :=
  match inputs n with
  | i :: _ => default_value i
  | [] => None
  end.

(** A name no node of the tree has. *)
Definition fresh (t : NodeTree) : nat :=
  S (fold_right Nat.max 0%nat (map name (nodes t))).

(** An attribute assignment on the node called [k]. *)
Definition update_node (k : nat) (g : Node -> Node) (t : NodeTree) : NodeTree :=
  mkNodeTree (map (fun n => if (name n =? k)%nat then g n else n) (nodes t))
             (links t).

Definition node_named (k : nat) (t : NodeTree) : option Node :=
  find (fun n => (name n =? k)%nat) (nodes t).

(** [nodes.remove(node)]. *)
Definition nodes_remove (k : nat) (t : NodeTree) : NodeTree :=
  mkNodeTree (filter (fun n => negb (name n =? k)%nat) (nodes t))
             (filter (fun l => negb (from_node l =? k)%nat
                               && negb (to_node l =? k)%nat)
                     (links t)).

Definition into (k : nat) (s : string) (l : Link) : bool :=
  (to_node l =? k)%nat && String.eqb (to_socket l) s.

(** [links.new(from.outputs[a], to.inputs[b])]. *)
Definition links_new (from : nat) (a : string) (to : nat) (b : string)
                     (t : NodeTree) : NodeTree :=
  mkNodeTree (nodes t)
             (filter (fun l => negb (into to b l)) (links t)
              ++ [mkLink from a to b]).

(** The test of the clean sweep: a shader that is not an output node, or
    a Blackbody node. *)
Definition swept (n : Node) : bool :=
  (is_shader n && negb (is_type "OUTPUT_MATERIAL" n)) || is_type "BLACKBODY" n.

(** The nodes after [inputs[0].default_value = v] on the node called [k]. *)
Definition first_input_set (k : nat) (v : Q) (l : list Node) : list Node :=
  map (fun n => if (name n =? k)%nat then set_first_on v n else n) l.

(** [k] names a node the sweep removes. *)
Definition swept_name (t : NodeTree) (k : nat) : bool :=
  existsb (fun n => swept n && (name n =? k)%nat) (nodes t).

(** [for node in list(nodes): if ...: nodes.remove(node)]. *)
Definition clean_sweep (t : NodeTree) : NodeTree :=
  fold_left (fun t n => if swept n then nodes_remove (name n) t else t)
            (nodes t) t.

Section Host.

(** The node [nodes.new(bl_idname)] creates, before the host names it. *)
Variable template : string -> Node.

(** [nodes.new(bl_idname)]: the new node and the tree that holds it. *)
Definition nodes_new (bl_idname : string) (t : NodeTree) : Node * NodeTree :=
  let n := with_name (fresh t) (template bl_idname) in
  (n, mkNodeTree (nodes t ++ [n]) (links t)).

(** [node.inputs[s].default_value = v] on the node called [k]; a socket
    that does not exist is a KeyError. *)
Definition set_input (k : nat) (s : string) (v : Q) (t : NodeTree)
  : Result NodeTree :=
  match node_named k t with
  | Some n =>
      if has_input s n
      then Ok (update_node k (set_on s v) t)
      else Raise "KeyError"
  | None => Raise "KeyError"
  end.

(** [if s in node.inputs: node.inputs[s].default_value = v]. *)
Definition set_input_if_present (k : nat) (s : string) (v : Q) (t : NodeTree)
  : NodeTree :=
  match set_input k s v t with
  | Ok t' => t'
  | Raise _ => t
  end.

(** [node.inputs[0].default_value = v]; no input at all is an IndexError. *)
Definition set_first_input (k : nat) (v : Q) (t : NodeTree) : Result NodeTree :=
  match node_named k t with
  | Some n =>
      match inputs n with
      | [] => Raise "IndexError"
      | _ => Ok (update_node k (set_first_on v) t)
      end
  | None => Raise "IndexError"
  end.

(** The socket a link is made from or to must exist. *)
Definition output_socket (k : nat) (s : string) (t : NodeTree) : Result string :=
  match node_named k t with
  | Some n => if has_output s n then Ok s else Raise "KeyError"
  | None => Raise "KeyError"
  end.

Definition first_output_socket (k : nat) (t : NodeTree) : Result string :=
  match node_named k t with
  | Some n => match outputs n with
              | o :: _ => Ok (out_name o)
              | [] => Raise "IndexError"
              end
  | None => Raise "IndexError"
  end.

Definition input_socket (k : nat) (s : string) (t : NodeTree) : Result string :=
  match node_named k t with
  | Some n => if has_input s n then Ok s else Raise "KeyError"
  | None => Raise "KeyError"
  end.

Definition location_of (k : nat) (t : NodeTree) : Q * Q :=
  match node_named k t with
  | Some n => location n
  | None => (0, 0)
  end.

(** The node-tree part of [MATERIAL_OT_make_it_lamp.execute], steps 1 to 6. *)
Definition lamp_tree (t : NodeTree) : Result NodeTree :=
  (* 1. clean sweep *)
  let t := clean_sweep t in
  (* 2. fresh Principled BSDF, and the material output *)
  let '(principled, t) := nodes_new "ShaderNodeBsdfPrincipled" t in
  let principled := name principled in
  let t := update_node principled (with_location (0, 300)) t in
  let '(output_node, t) :=
    match first_node (is_type "OUTPUT_MATERIAL") t with
    | Some n => (name n, t)
    | None =>
        let '(n, t) := nodes_new "ShaderNodeOutputMaterial" t in
        (name n, update_node (name n) (with_location (300, 300)) t)
    end in
  bsdf <- output_socket principled "BSDF" t ;;
  surface <- input_socket output_node "Surface" t ;;
  let t := links_new principled bsdf output_node surface t in
  (* 3. surface presets *)
  t <- set_input principled "Metallic" 0 t ;;
  t <- set_input principled "Roughness" (50 # 1000) t ;;
  t <- set_input principled "IOR" (1450 # 1000) t ;;
  (* 4. transmission and specular *)
  let t := set_input_if_present principled "IOR Level" (705 # 1000) t in
  let t := set_input_if_present principled "Transmission Weight" 1 t in
  (* 5. secondary reflection layers *)
  let t := set_input_if_present principled "Coat Weight" 0 t in
  let t := set_input_if_present principled "Sheen Weight" 0 t in
  (* 6. a single Blackbody node *)
  let '(bb, t) := nodes_new "ShaderNodeBlackbody" t in
  let bb := name bb in
  let t := update_node bb
             (with_location (fst (location_of principled t) - 450,
                             snd (location_of principled t) - 200)) t in
  t <- set_first_input bb 3500 t ;;
  colour <- first_output_socket bb t ;;
  emission <- input_socket principled "Emission Color" t ;;
  Ok (links_new bb colour principled emission t).

(** The nodes [lamp_tree] makes of the host's new nodes, when each one
    has the sockets that are set without a guard. *)
Definition lamp_principled (k : nat) : Node :=
  set_if_present "Sheen Weight" 0
    (set_if_present "Coat Weight" 0
       (set_if_present "Transmission Weight" 1
          (set_if_present "IOR Level" (705 # 1000)
             (set_on "IOR" (1450 # 1000)
                (set_on "Roughness" (50 # 1000)
                   (set_on "Metallic" 0
                      (with_location (0, 300)
                         (with_name k (template "ShaderNodeBsdfPrincipled"))))))))).

Definition lamp_output (k : nat) : Node :=
  with_location (300, 300) (with_name k (template "ShaderNodeOutputMaterial")).

Definition lamp_blackbody (k : nat) : Node :=
  set_first_on 3500
    (with_location (0 - 450, 300 - 200)
       (with_name k (template "ShaderNodeBlackbody"))).

(** [MATERIAL_OT_make_it_lamp.execute]; the state is the active material. *)
Definition make_it_lamp (context : Context) : Outcome (option Material) :=
  match object context with
  | None => RAISED "AttributeError"
  | Some None => CANCELLED None [("WARNING", "No active material found")]
  | Some (Some mat) =>
      match lamp_tree (node_tree mat) with
      | Raise exn => RAISED exn
      | Ok t =>
          FINISHED (Some (mkMaterial (emission_props mat) true t))
                   [("INFO", "Material purged and PBR Lamp setup applied cleanly.")]
      end
  end.

(** The node-tree part of [MATERIAL_OT_apply_temperature.execute]; the
    second component tells whether a Principled BSDF was found. *)
Definition temperature_tree (temp : Z) (t : NodeTree) : Result (NodeTree * bool) :=
  let '(bb, t) :=
    match first_node (is_type "BLACKBODY") t with
    | Some n => (name n, t)
    | None =>
        let '(n, t) := nodes_new "ShaderNodeBlackbody" t in
        (name n, update_node (name n) (with_location (- (300), 0)) t)
    end in
  t <- set_first_input bb (inject_Z temp) t ;;
  match first_node (is_type "BSDF_PRINCIPLED") t with
  | Some principled =>
      colour <- output_socket bb "Color" t ;;
      emission <- input_socket (name principled) "Emission Color" t ;;
      Ok (links_new bb colour (name principled) emission t, true)
  | None => Ok (t, false)
  end.

(** [{'MIN': props.temp_min, 'AVG': props.temp_avg,
      'MAX': props.temp_max}[self.mode]]. *)
Definition temperature_of (mode : LumensMode) (props : MaterialEmissionProperties)
  : Z :=
  match mode with
  | MIN => temp_min props
  | AVG => temp_avg props
  | MAX => temp_max props
  end.

(** The Blackbody [temperature_tree] makes when the tree has none, and
    what it does to the nodes when the Blackbody called [k] is there. *)
Definition temperature_blackbody (temp : Z) (k : nat) : Node :=
  set_first_on (inject_Z temp)
    (with_location (- (300), 0) (with_name k (template "ShaderNodeBlackbody"))).

(** [MATERIAL_OT_apply_temperature.execute]. *)
Definition apply_temperature (mode : LumensMode) (context : Context)
  : Outcome (option Material) :=
  match object context with
  | None => RAISED "AttributeError"
  | Some None => CANCELLED None [("WARNING", "Material must use nodes")]
  | Some (Some mat) =>
      if negb (use_nodes mat)
      then CANCELLED (Some mat) [("WARNING", "Material must use nodes")]
      else
        let props := emission_props mat in
        let temp := temperature_of mode props in
        match temperature_tree temp (node_tree mat) with
        | Raise exn => RAISED exn
        | Ok (t, true) =>
            FINISHED (Some (mkMaterial props (use_nodes mat) t))
                     [("INFO", "Applied " ++ str temp ++ "K to Emission Color")%string]
        | Ok (t, false) =>
            FINISHED (Some (mkMaterial props (use_nodes mat) t))
                     [("INFO", "Created/updated Blackbody node with " ++ str temp
                               ++ "K")%string]
        end
  end.

End Host.

(** The host's side of the bargain: node names are unique, and the nodes
    it creates have the type tags and the sockets the operators use. *)
Definition well_named (t : NodeTree) : Prop := NoDup (map name (nodes t)).

Definition host_templates (template : string -> Node) : Prop :=
  let principled := template "ShaderNodeBsdfPrincipled" in
  let output := template "ShaderNodeOutputMaterial" in
  let blackbody := template "ShaderNodeBlackbody" in
  type principled = "BSDF_PRINCIPLED" /\
  has_output "BSDF" principled = true /\
  is_shader principled = true /\
  has_input "Metallic" principled = true /\
  has_input "Roughness" principled = true /\
  has_input "IOR" principled = true /\
  has_input "Emission Color" principled = true /\
  type output = "OUTPUT_MATERIAL" /\
  has_input "Surface" output = true /\
  type blackbody = "BLACKBODY" /\
  inputs blackbody <> [] /\
  has_output "Color" blackbody = true /\
  option_map out_name (hd_error (outputs blackbody)) = Some "Color".

(** Every Blackbody, Principled and output node of the tree has the
    sockets of its kind; a Principled BSDF is a shader. *)
Definition host_nodes (t : NodeTree) : Prop :=
  forall n, In n (nodes t) ->
    (is_type "BLACKBODY" n = true ->
     inputs n <> [] /\ has_output "Color" n = true) /\
    (is_type "BSDF_PRINCIPLED" n = true ->
     has_input "Emission Color" n = true /\ is_shader n = true) /\
    (is_type "OUTPUT_MATERIAL" n = true ->
     has_input "Surface" n = true).

Definition count (f : Node -> bool) (t : NodeTree) : nat :=
  List.length (filter f (nodes t)).

(** A link from [a] of the node called [k] to [b] of the node called [j]. *)
Definition linked (k : nat) (a : string) (j : nat) (b : string)
                  (t : NodeTree) : Prop :=
  In (mkLink k a j b) (links t).

End graph.

(** The nodes a recent host creates, as far as the operators touch them. *)
Definition host_template (bl_idname : string) : graph.Node :=
  if String.eqb bl_idname "ShaderNodeBsdfPrincipled" then
    graph.mkNode 0 "BSDF_PRINCIPLED" (0, 0)
      [graph.mkInput "Base Color" None; graph.mkInput "Metallic" (Some 0);
       graph.mkInput "Roughness" (Some (1 # 2)); graph.mkInput "IOR" (Some (3 # 2));
       graph.mkInput "IOR Level" (Some (1 # 2));
       graph.mkInput "Transmission Weight" (Some 0);
       graph.mkInput "Coat Weight" (Some 0); graph.mkInput "Sheen Weight" (Some 0);
       graph.mkInput "Emission Color" None;
       graph.mkInput "Emission Strength" (Some 0)]
      [graph.mkOutput "BSDF" "SHADER"]
  else if String.eqb bl_idname "ShaderNodeOutputMaterial" then
    graph.mkNode 0 "OUTPUT_MATERIAL" (0, 0)
      [graph.mkInput "Surface" None; graph.mkInput "Volume" None;
       graph.mkInput "Displacement" None]
      []
  else if String.eqb bl_idname "ShaderNodeBlackbody" then
    graph.mkNode 0 "BLACKBODY" (0, 0)
      [graph.mkInput "Temperature" (Some 1500)]
      [graph.mkOutput "Color" "RGBA"]
  else graph.mkNode 0 "" (0, 0) [] [].

(** A material as the host makes it: a Principled BSDF linked to the
    output.  And one with a Diffuse BSDF, an image texture and two
    Blackbody nodes. *)
Definition new_material_tree : graph.NodeTree :=
  graph.mkNodeTree
    [graph.with_name 1 (host_template "ShaderNodeBsdfPrincipled");
     graph.with_name 2 (host_template "ShaderNodeOutputMaterial")]
    [graph.mkLink 1 "BSDF" 2 "Surface"].

Definition cluttered_tree : graph.NodeTree :=
  graph.mkNodeTree
    [graph.mkNode 1 "BSDF_DIFFUSE" (0, 0) [graph.mkInput "Color" None]
                  [graph.mkOutput "BSDF" "SHADER"];
     graph.mkNode 2 "TEX_IMAGE" (- (300), 0) [graph.mkInput "Vector" None]
                  [graph.mkOutput "Color" "RGBA"];
     graph.with_name 3 (host_template "ShaderNodeBlackbody");
     graph.with_name 4 (host_template "ShaderNodeOutputMaterial");
     graph.with_name 5 (host_template "ShaderNodeBlackbody")]
    [graph.mkLink 2 "Color" 1 "Color"; graph.mkLink 1 "BSDF" 4 "Surface"].

Definition graph_context (props : MaterialEmissionProperties) (nodes : bool)
                         (t : graph.NodeTree) : graph.Context :=
  graph.mkContext (Some (Some (graph.mkMaterial props nodes t))).

(* ------------------------------------------------------------------ *)
(** * Registration                                                     *)
(* ------------------------------------------------------------------ *)

(** What [register] and [unregister] change in the host: the classes it
    knows, by name, and the properties defined on [bpy.types.Material].
    [register_class] refuses a class that is registered already,
    [unregister_class] one that is not, and [del] an attribute that is
    not there. *)
Record Host := mkHost {
  registered_classes : list string;
  material_properties : list string }.

Definition is_registered (c : string) (h : Host) : bool :=
  existsb (String.eqb c) (registered_classes h).

(** [bpy.utils.register_class(c)] and [bpy.utils.unregister_class(c)]. *)
Definition register_class (c : string) (h : Host) : Result Host :=
  if is_registered c h then Raise "ValueError"
  else Ok (mkHost (registered_classes h ++ [c]) (material_properties h)).

Definition unregister_class (c : string) (h : Host) : Result Host :=
  if is_registered c h
  then Ok (mkHost (filter (fun x => negb (String.eqb c x)) (registered_classes h))
                  (material_properties h))
  else Raise "RuntimeError".

(** [for c in cs: f(c)]. *)
Fixpoint for_each (f : string -> Host -> Result Host) (cs : list string)
                  (h : Host) : Result Host :=
  match cs with
  | [] => Ok h
  | c :: r => match f c h with
              | Ok h' => for_each f r h'
              | Raise exn => Raise exn
              end
  end.

Definition class_names : list string := map (fun c => fst (fst c)) classes.

(** [register()]. *)
Definition register (h : Host) : Result Host :=
  match for_each register_class class_names h with
  | Ok h' =>
      Ok (mkHost (registered_classes h')
                 ("emission_props"
                  :: filter (fun x => negb (String.eqb "emission_props" x))
                            (material_properties h')))
  | Raise exn => Raise exn
  end.

(** [unregister()]. *)
Definition unregister (h : Host) : Result Host :=
  match for_each unregister_class (rev class_names) h with
  | Ok h' =>
      if existsb (String.eqb "emission_props") (material_properties h')
      then Ok (mkHost (registered_classes h')
                      (filter (fun x => negb (String.eqb "emission_props" x))
                              (material_properties h')))
      else Raise "AttributeError"
  | Raise exn => Raise exn
  end.

(* ================================================================== *)
(** * Properties                                                       *)
(* ================================================================== *)

(** ** Comparisons, division and assignment *)

Lemma Qleb_le (a b : Q) : Qleb a b = true <-> a <= b.
Proof. apply Qle_bool_iff. Qed.

Lemma Qleb_gt (a b : Q) : Qleb a b = false <-> b < a.
Proof.
  unfold Qleb. split; intro H.
  - apply Qnot_le_lt. intro Hle. apply Qle_bool_iff in Hle. congruence.
  - destruct (Qle_bool a b) eqn:E; [|reflexivity].
    apply Qle_bool_iff in E. exfalso. apply (Qlt_not_le _ _ H E).
Qed.

Lemma Qltb_lt (a b : Q) : Qltb a b = true <-> a < b.
Proof.
  unfold Qltb. rewrite negb_true_iff. apply Qleb_gt.
Qed.

Lemma Qltb_ge (a b : Q) : Qltb a b = false <-> b <= a.
Proof.
  unfold Qltb. rewrite negb_false_iff. apply Qleb_le.
Qed.

Lemma fltb_lt (a b : npfloat) : fltb a b = true <-> (a < b)%float.
Proof.
  destruct a, b; simpl; try apply Qltb_lt; split; (discriminate || contradiction).
Qed.


Lemma py_div_some (a : npfloat) (b : Q) (q : npfloat) :
  py_div a b = Some q -> ~ b == 0 /\ q = (a / b)%float.
Proof.
  unfold py_div. destruct (Qeq_bool b 0) eqn:E; [discriminate|].
  intro H. injection H as <-. split; [|reflexivity].
  intro Hb. apply Qeq_bool_iff in Hb. congruence.
Qed.

Lemma py_div_nonzero (a : npfloat) (b : Q) :
  ~ b == 0 -> py_div a b = Some (a / b)%float.
Proof.
  intro Hb. unfold py_div. destruct (Qeq_bool b 0) eqn:E; [|reflexivity].
  apply Qeq_bool_iff in E. contradiction.
Qed.

Lemma assign_no_min (d v : Q) : assign (mkFloatProperty d None) v = v.
Proof. reflexivity. Qed.

Lemma assign_ge_min (d m v : Q) : m <= assign (mkFloatProperty d (Some m)) v.
Proof.
  unfold assign; simpl. destruct (Qltb v m) eqn:E.
  - apply Qle_refl.
  - apply Qltb_ge in E. exact E.
Qed.

Lemma assign_in_range (d m v : Q) :
  m <= v -> assign (mkFloatProperty d (Some m)) v = v.
Proof.
  intro H. unfold assign; simpl. destruct (Qltb v m) eqn:E; [|reflexivity].
  apply Qltb_lt in E. exfalso. apply (Qlt_not_le _ _ E H).
Qed.

Lemma assign_float_no_min (d : Q) (v : npfloat) :
  assign_float (mkFloatProperty d None) v = v.
Proof. reflexivity. Qed.

(** On a number the two assignments agree. *)
Lemma assign_float_finite (decl : FloatProperty) (q : Q) :
  assign_float decl (Finite q) = Finite (assign decl q).
Proof.
  unfold assign_float, assign. destruct (prop_min decl) as [m|]; [|reflexivity].
  simpl. destruct (Qltb q m); reflexivity.
Qed.

Lemma assign_float_not_below (d m : Q) (v : npfloat) :
  not_below m (assign_float (mkFloatProperty d (Some m)) v).
Proof.
  destruct v; [|exact I].
  rewrite assign_float_finite. apply assign_ge_min.
Qed.

Lemma assign_float_in_range (d m : Q) (v : npfloat) :
  not_below m v -> assign_float (mkFloatProperty d (Some m)) v = v.
Proof.
  destruct v; [|reflexivity].
  intro H. rewrite assign_float_finite. f_equal. apply assign_in_range. exact H.
Qed.

Lemma assign_float_nan (decl : FloatProperty) :
  assign_float decl NonFinite = NonFinite.
Proof. unfold assign_float. destruct (prop_min decl); reflexivity. Qed.

(** ** material.calc_emission_strength *)

(** A mesh check that passes makes [get_active_material_area] the polygon
    sum; a positive result can only come from a mesh. *)
Lemma get_active_material_area_positive (o : Object) :
  0 < get_active_material_area (Some o) ->
  get_active_material_area (Some o) = active_material_polygon_area o.
Proof.
  unfold get_active_material_area, active_material_polygon_area.
  destruct (is_mesh o); simpl; [reflexivity|].
  intro H. exfalso. apply (Qlt_irrefl 0 H).
Qed.

(** C1.  Every run of [material.calc_emission_strength] that returns
    FINISHED ran on an object with a material, had a positive emission
    area, and stored [strength = lumens / (ler * area * num_lights)], where
    the area is the manual [area] when [auto_area] is off and the summed
    area of the polygons using the active material (of the scale-applied
    object) when it is on. *)
Theorem calc_emission_strength_formula
    (apply_scale : Object -> Object) (context : Context)
    (st : option ContextObject) (log : list (string * string)) :
  calc_emission_strength apply_scale context = FINISHED st log ->
  exists cob mat mat',
    object context = Some cob /\
    active_material cob = Some mat /\
    st = Some (mkContextObject (apply_scale (ob cob)) (Some mat')) /\
    let props := emission_props mat in
    let a := emission_area props (apply_scale (ob cob)) in
    0 < a /\
    (strength (emission_props mat')
      == lumens props / (ler props * a * inject_Z (num_lights props))%Q)%float.
Proof.
  unfold calc_emission_strength.
  destruct (object context) as [cob|] eqn:Hob; [|discriminate].
  destruct (negb (is_mesh (ob cob))); [discriminate|].
  destruct (active_material cob) as [mat|] eqn:Hmat; [|discriminate].
  set (props := emission_props mat).
  set (obj := apply_scale (ob cob)).
  set (a := if negb (auto_area props) then area props
            else get_active_material_area (Some obj)).
  destruct (Qleb a 0) eqn:Ha; [discriminate|].
  apply Qleb_gt in Ha.
  destruct (py_div (lumens props) (ler props)) as [q|] eqn:Hq; [|discriminate].
  destruct (py_div q (a * inject_Z (num_lights props))) as [s|] eqn:Hs;
    [|discriminate].
  intro H. injection H as <- _.
  apply py_div_some in Hq. destruct Hq as [Hler ->].
  apply py_div_some in Hs. destruct Hs as [Htot ->].
  assert (Ea : a = emission_area props obj).
  { unfold a, emission_area. destruct (auto_area props); simpl; [|reflexivity].
    apply get_active_material_area_positive. exact Ha. }
  exists cob, mat. eexists.
  split; [reflexivity|]. split; [exact Hmat|]. split; [reflexivity|].
  cbv zeta. fold props obj. rewrite <- Ea. split; [exact Ha|].
  cbn [emission_props strength set_strength].
  unfold strength_decl; rewrite assign_float_no_min.
  assert (Hn : ~ inject_Z (num_lights props) == 0).
  { intro E. apply Htot. rewrite E. ring. }
  assert (Ha0 : ~ a == 0).
  { intro E. apply Htot. rewrite E. ring. }
  destruct (lumens props) as [l|]; simpl; [|exact I].
  field. repeat split; assumption.
Qed.

Lemma calc_emission_strength_formula_witness :
  exists st log,
    calc_emission_strength (fun o => o) default_context = FINISHED st log /\
    exists cob mat mat',
      object default_context = Some cob /\
      active_material cob = Some mat /\
      st = Some (mkContextObject (ob cob) (Some mat')) /\
      let props := emission_props mat in
      let a := emission_area props (ob cob) in
      0 < a /\
      (strength (emission_props mat')
        == lumens props / (ler props * a * inject_Z (num_lights props))%Q)%float.
Proof.
  eexists. eexists. split.
  - vm_compute. reflexivity.
  - eapply (calc_emission_strength_formula (fun o => o) default_context).
    vm_compute. reflexivity.
Defined.

Lemma in_declared_range_divisors (p : MaterialEmissionProperties) (a : Q) :
  in_declared_range p -> 0 < a ->
  ~ ler p == 0 /\ ~ a * inject_Z (num_lights p) == 0.
Proof.
  intros (_ & Hler & _ & Hn & _) Ha. split.
  - intro E. rewrite E in Hler. revert Hler. apply Qlt_not_le. reflexivity.
  - assert (Hq : 1 <= inject_Z (num_lights p)).
    { change 1 with (inject_Z 1). rewrite <- Zle_Qle. exact Hn. }
    intro E.
    assert (Hpos : 0 < a * inject_Z (num_lights p)).
    { apply Qmult_lt_0_compat; [exact Ha|].
      apply Qlt_le_trans with 1; [reflexivity|exact Hq]. }
    rewrite E in Hpos. apply (Qlt_irrefl 0 Hpos).
Qed.

(** C4.  With the properties inside their declared ranges,
    [material.calc_emission_strength] returns CANCELLED, with one WARNING
    report, exactly when the input is invalid (no object, an object that is
    not a mesh, no active material, or an emission area that is not
    positive), and returns FINISHED in every other case. *)
Theorem calc_emission_strength_cancelled_iff_invalid
    (apply_scale : Object -> Object) (context : Context) :
  (forall cob mat, object context = Some cob ->
                   active_material cob = Some mat ->
                   in_declared_range (emission_props mat)) ->
  (emission_input_invalid apply_scale context = true <->
   exists st msg,
     calc_emission_strength apply_scale context
       = CANCELLED st [("WARNING", msg)]) /\
  (emission_input_invalid apply_scale context = false <->
   exists st msg,
     calc_emission_strength apply_scale context
       = FINISHED st [("INFO", msg)]).
Proof.
  intro Hrange.
  assert (Hcases :
    (emission_input_invalid apply_scale context = true /\
     exists st msg, calc_emission_strength apply_scale context
                      = CANCELLED st [("WARNING", msg)]) \/
    (emission_input_invalid apply_scale context = false /\
     exists st msg, calc_emission_strength apply_scale context
                      = FINISHED st [("INFO", msg)])).
  { unfold emission_input_invalid, calc_emission_strength.
    destruct (object context) as [cob|] eqn:Hob.
    2:{ left. split; [reflexivity|]. eexists; eexists; reflexivity. }
    destruct (negb (is_mesh (ob cob))); cbn [orb].
    { left. split; [reflexivity|]. eexists; eexists; reflexivity. }
    destruct (active_material cob) as [mat|] eqn:Hmat.
    2:{ left. split; [reflexivity|]. eexists; eexists; reflexivity. }
    specialize (Hrange cob mat eq_refl Hmat).
    set (props := emission_props mat) in *.
    replace (if auto_area props
             then get_active_material_area (Some (apply_scale (ob cob)))
             else area props)
      with (if negb (auto_area props) then area props
            else get_active_material_area (Some (apply_scale (ob cob))))
      by (destruct (auto_area props); reflexivity).
    set (a := if negb (auto_area props) then area props
              else get_active_material_area (Some (apply_scale (ob cob)))).
    destruct (Qleb a 0) eqn:Ha.
    { left. split; [reflexivity|]. eexists; eexists; reflexivity. }
    apply Qleb_gt in Ha.
    destruct (in_declared_range_divisors props a Hrange Ha) as [Hler Htot].
    rewrite (py_div_nonzero _ _ Hler), (py_div_nonzero _ _ Htot).
    right. split; [reflexivity|]. eexists; eexists; reflexivity. }
  destruct Hcases as [[Hi (st & msg & Hr)] | [Hi (st & msg & Hr)]];
    rewrite Hi, Hr; split; split; intro H;
    try reflexivity; try discriminate;
    try (exists st, msg; reflexivity);
    destruct H as (st' & msg' & H'); discriminate.
Qed.

Lemma default_props_in_declared_range : in_declared_range default_props.
Proof.
  unfold in_declared_range; simpl.
  repeat split; try (intro H; discriminate H).
Qed.

Lemma calc_emission_strength_cancelled_iff_invalid_witness :
  (forall cob mat, object default_context = Some cob ->
                   active_material cob = Some mat ->
                   in_declared_range (emission_props mat)) /\
  (emission_input_invalid (fun o => o) default_context = false <->
   exists st msg,
     calc_emission_strength (fun o => o) default_context
       = FINISHED st [("INFO", msg)]).
Proof.
  assert (H : forall cob mat, object default_context = Some cob ->
                active_material cob = Some mat ->
                in_declared_range (emission_props mat)).
  { intros cob mat Hob Hmat. simpl in Hob. injection Hob as <-.
    simpl in Hmat. injection Hmat as <-. simpl.
    unfold in_declared_range; simpl.
    repeat split; try (intro H; discriminate H). }
  split; [exact H|].
  exact (proj2 (calc_emission_strength_cancelled_iff_invalid
                  (fun o => o) default_context H)).
Defined.

(** ** material.calc_room_lumens *)

(** Both tables have a row for every room type. *)
Lemma tables_total (t : RoomType) :
  exists lux temp,
    dict_get lux_table (room_type_id t) = Some lux /\
    dict_get temp_k_table (room_type_id t) = Some temp.
Proof.
  destruct t; eexists; eexists; split; vm_compute; reflexivity.
Qed.

(** What the height update leaves alone. *)
Lemma update_room_height_frame (p : MaterialEmissionProperties) :
  let p' := update_room_height p in
  room_area p' = room_area p /\ room_type p' = room_type p /\
  ler p' = ler p /\ lumens p' = lumens p /\ area p' = area p /\
  num_lights p' = num_lights p /\
  height_source p' = height_source p /\ height_object p' = height_object p.
Proof.
  unfold update_room_height.
  destruct (height_source p) eqn:Hs;
    [repeat split; solve [reflexivity | assumption]|].
  destruct (height_object p) as [o|] eqn:Ho;
    [|repeat split; solve [reflexivity | assumption]].
  destruct (Qltb 0 (object_height (Some o)));
    repeat split; solve [reflexivity | assumption].
Qed.

(** The body of [execute] never fails: it finishes in the state above. *)
Lemma room_lumens_body_finishes (p : MaterialEmissionProperties) :
  exists lux temp,
    dict_get lux_table (room_type_id (room_type p)) = Some lux /\
    dict_get temp_k_table (room_type_id (room_type p)) = Some temp /\
    room_lumens_body p = FINISHED (room_lumens_result p lux temp) [].
Proof.
  destruct (tables_total (room_type p)) as (lux & temp & Hl & Ht).
  exists lux, temp. split; [exact Hl|]. split; [exact Ht|].
  unfold room_lumens_body, room_lumens_result.
  destruct (update_room_height_frame p) as (_ & Hty & _).
  cbv zeta in Hty. rewrite Hty, Hl, Ht.
  destruct lux as [[lux0 lux1] lux2]. reflexivity.
Qed.

Lemma room_lumens_body_inv (p p' : MaterialEmissionProperties) log :
  room_lumens_body p = FINISHED p' log ->
  exists lux temp,
    dict_get lux_table (room_type_id (room_type p)) = Some lux /\
    dict_get temp_k_table (room_type_id (room_type p)) = Some temp /\
    p' = room_lumens_result p lux temp.
Proof.
  destruct (room_lumens_body_finishes p) as (lux & temp & Hl & Ht & Hb).
  rewrite Hb. intro H. injection H as <- _.
  exists lux, temp. repeat split; assumption.
Qed.

(** The fields of the resulting state. *)
Lemma room_lumens_result_fields (p : MaterialEmissionProperties)
                                (lux0 lux1 lux2 t0 t1 t2 : Z) :
  let p2 := update_room_height p in
  let r := room_lumens_result p (lux0, lux1, lux2) (t0, t1, t2) in
  let hf := h_factor (room_height p2) in
  room_area r = room_area p /\ room_height r = room_height p2 /\
  room_type r = room_type p /\
  lumens_min r = (inject_Z lux0 * room_area p * hf)%float /\
  lumens_avg r = (inject_Z lux1 * room_area p * hf)%float /\
  lumens_max r = (inject_Z lux2 * room_area p * hf)%float /\
  temp_min r = t0 /\ temp_avg r = t1 /\ temp_max r = t2 /\
  ler r = ler p /\ lumens r = lumens p /\ area r = area p /\
  num_lights r = num_lights p.
Proof.
  cbv zeta.
  destruct (update_room_height_frame p)
    as (Ha & Hty & Hler & Hlum & Har & Hn & _).
  cbv zeta in Ha, Hty, Hler, Hlum, Har, Hn.
  unfold room_lumens_result. cbn.
  rewrite Ha, Hty, Hler, Hlum, Har, Hn. repeat split.
Qed.

Section RoomLumensFacts.

Variable eig : np.array33 -> np.array3 * np.array33.
Variable norm : np.array3 -> Q.

(** A finished run passed the area guard: the area source was manual, or
    the comparison [area <= 0] of the bounding-box area was false (the area
    is a positive number, or nan) and the area became [room_area]. *)
Lemma calc_room_lumens_finished_inv context p' log :
  calc_room_lumens eig norm context = FINISHED p' log ->
  exists cob mat p1,
    object context = Some cob /\ active_material cob = Some mat /\
    room_lumens_body p1 = FINISHED p' log /\
    let props := emission_props mat in
    ((room_area_source props = AREA_MANUAL /\ p1 = props) \/
     (room_area_source props = AREA_BOUNDING_BOX /\
      exists a, bounding_box_area_xy eig norm props context = a /\
                fleb a 0 = false /\ p1 = set_room_area a props)).
Proof.
  unfold calc_room_lumens.
  destruct (object context) as [cob|] eqn:Hob; [|discriminate].
  destruct (active_material cob) as [mat|] eqn:Hmat; [|discriminate].
  destruct (room_area_source (emission_props mat)) eqn:Hsrc.
  - intro H. exists cob, mat, (emission_props mat).
    repeat split; try assumption. left. split; [exact Hsrc|reflexivity].
  - cbv zeta.
    destruct (fleb (bounding_box_area_xy eig norm (emission_props mat) context)
                   0) eqn:Ha; [discriminate|].
    intro H.
    exists cob, mat,
      (set_room_area (bounding_box_area_xy eig norm (emission_props mat) context)
                     (emission_props mat)).
    repeat split; try assumption. right. split; [exact Hsrc|].
    eexists. repeat split; [exact Ha].
Qed.

(** Everything a finished run establishes: the state [p1] that entered the
    body, the table rows used, and the values stored. *)
Lemma calc_room_lumens_finished_fields context p' log :
  calc_room_lumens eig norm context = FINISHED p' log ->
  exists cob mat p1 l0 l1 l2 t0 t1 t2,
    object context = Some cob /\ active_material cob = Some mat /\
    (let props := emission_props mat in
     (room_area_source props = AREA_MANUAL /\ p1 = props) \/
     (room_area_source props = AREA_BOUNDING_BOX /\
      exists a, bounding_box_area_xy eig norm props context = a /\
                fleb a 0 = false /\ p1 = set_room_area a props)) /\
    dict_get lux_table (room_type_id (room_type p')) = Some (l0, l1, l2) /\
    dict_get temp_k_table (room_type_id (room_type p')) = Some (t0, t1, t2) /\
    room_type p' = room_type (emission_props mat) /\
    room_area p' = room_area p1 /\
    room_height p' = room_height (update_room_height p1) /\
    lumens_min p'
      = (inject_Z l0 * room_area p' * h_factor (room_height p'))%float /\
    lumens_avg p'
      = (inject_Z l1 * room_area p' * h_factor (room_height p'))%float /\
    lumens_max p'
      = (inject_Z l2 * room_area p' * h_factor (room_height p'))%float /\
    temp_min p' = t0 /\ temp_avg p' = t1 /\ temp_max p' = t2 /\
    ler p' = ler p1 /\ lumens p' = lumens p1 /\ area p' = area p1 /\
    num_lights p' = num_lights p1.
Proof.
  intro H.
  destruct (calc_room_lumens_finished_inv _ _ _ H)
    as (cob & mat & p1 & Hob & Hmat & Hb & Hguard).
  destruct (room_lumens_body_inv _ _ _ Hb)
    as ([[l0 l1] l2] & [[t0 t1] t2] & Hl & Ht & ->).
  destruct (room_lumens_result_fields p1 l0 l1 l2 t0 t1 t2)
    as (Ha & Hh & Hty & Hmin & Havg & Hmax & Ht0 & Ht1 & Ht2 & Hrest).
  cbv zeta in Ha, Hh, Hty, Hmin, Havg, Hmax, Ht0, Ht1, Ht2, Hrest.
  exists cob, mat, p1, l0, l1, l2, t0, t1, t2.
  rewrite Hty, Ha, Hh, Hmin, Havg, Hmax, Ht0, Ht1, Ht2.
  split; [exact Hob|]. split; [exact Hmat|]. split; [exact Hguard|].
  split; [exact Hl|]. split; [exact Ht|].
  split.
  { cbv zeta in Hguard.
    destruct Hguard as [[_ ->] | [_ (a & _ & _ & ->)]]; reflexivity. }
  repeat split; apply Hrest.
Qed.


End RoomLumensFacts.


(** ** The height factor *)

Lemma h_factor_low (h : Q) : h * (328 # 100) <= 10 -> h_factor h == 1.
Proof.
  intro H. unfold h_factor.
  rewrite (Q.max_l 0 (h * (328 # 100) - 10)); [ring|].
  lra.
Qed.

Lemma h_factor_high (h : Q) :
  10 <= h * (328 # 100) ->
  h_factor h == 1 + (5 # 100) * (h * (328 # 100) - 10).
Proof.
  intro H. unfold h_factor.
  rewrite (Q.max_r 0 (h * (328 # 100) - 10)); [reflexivity|].
  lra.
Qed.

Lemma h_factor_ge_1 (h : Q) : 1 <= h_factor h.
Proof.
  destruct (Qlt_le_dec 10 (h * (328 # 100))) as [Hlt | Hle].
  - rewrite (h_factor_high h); lra.
  - rewrite (h_factor_low h Hle). apply Qle_refl.
Qed.




(** ** The lookup tables *)

Lemma lux_rows_ordered (t : RoomType) (l0 l1 l2 : Z) :
  dict_get lux_table (room_type_id t) = Some (l0, l1, l2) ->
  (0 < l0 /\ l0 <= l1 /\ l1 <= l2)%Z.
Proof.
  destruct t; vm_compute; intro H; injection H as <- <- <-;
    repeat split; discriminate.
Qed.

Lemma temp_rows_ordered (t : RoomType) (t0 t1 t2 : Z) :
  dict_get temp_k_table (room_type_id t) = Some (t0, t1, t2) ->
  (t0 <= t1 /\ t1 <= t2)%Z.
Proof.
  destruct t; vm_compute; intro H; injection H as <- <- <-;
    repeat split; discriminate.
Qed.

(** Every label shows the average lux of its table row. *)
Lemma labels_show_average_lux (t : RoomType) :
  exists label lux_min lux_avg lux_max,
    room_type_label t = Some label /\
    dict_get lux_table (room_type_id t) = Some (lux_min, lux_avg, lux_max) /\
    label_lux label = Some lux_avg.
Proof.
  destruct t; do 4 eexists; repeat split; vm_compute; reflexivity.
Qed.

(** C6.  A finished run of [material.calc_room_lumens] takes the lux row
    and the colour-temperature row of the material's [room_type] from the
    two fixed tables, derives the lumens from the lux row and stores the
    temperature row unchanged in [temp_min], [temp_avg], [temp_max]; and
    for every room type the label of the enum item shows the average lux of
    its table row (for [living_gen], 150 of the row 100, 150, 200). *)
Theorem calc_room_lumens_uses_tables
    (eig : np.array33 -> np.array3 * np.array33) (norm : np.array3 -> Q)
    (context : Context) (p' : MaterialEmissionProperties)
    (log : list (string * string)) :
  calc_room_lumens eig norm context = FINISHED p' log ->
  (exists cob mat lux temp,
     object context = Some cob /\ active_material cob = Some mat /\
     let key := room_type_id (room_type (emission_props mat)) in
     dict_get lux_table key = Some lux /\
     dict_get temp_k_table key = Some temp /\
     (temp_min p', temp_avg p', temp_max p') = temp /\
     let scale := (room_area p' * h_factor (room_height p'))%float in
     (lumens_min p' == inject_Z (fst (fst lux)) * scale)%float /\
     (lumens_avg p' == inject_Z (snd (fst lux)) * scale)%float /\
     (lumens_max p' == inject_Z (snd lux) * scale)%float) /\
  (forall t : RoomType,
     exists label lux_min lux_avg lux_max,
       room_type_label t = Some label /\
       dict_get lux_table (room_type_id t) = Some (lux_min, lux_avg, lux_max) /\
       label_lux label = Some lux_avg) /\
  dict_get lux_table "living_gen" = Some (100, 150, 200)%Z /\
  room_type_label living_gen = Some "Living Room – General (150 Lux)".
Proof.
  intro H. split; [|split; [exact labels_show_average_lux|split; reflexivity]].
  destruct (calc_room_lumens_finished_fields eig norm context p' log H)
    as (cob & mat & p1 & l0 & l1 & l2 & t0 & t1 & t2 & Hob & Hmat & _ & Hl &
        Ht & Hty & _ & _ & Hmin & Havg & Hmax & Ht0 & Ht1 & Ht2 & _).
  exists cob, mat, (l0, l1, l2), (t0, t1, t2). cbv zeta.
  rewrite <- Hty, Hl, Ht, Hmin, Havg, Hmax, Ht0, Ht1, Ht2. cbn [fst snd].
  destruct (room_area p') as [a|]; cbn [fmul feq];
    repeat split; try assumption; ring.
Qed.

Lemma calc_room_lumens_uses_tables_witness :
  exists p' log,
    calc_room_lumens eig_diagonal norm_axis_parallel default_context
      = FINISHED p' log /\
    (temp_min p', temp_avg p', temp_max p') = (2700, 3000, 3500)%Z /\
    forall t : RoomType,
      exists label lux_min lux_avg lux_max,
        room_type_label t = Some label /\
        dict_get lux_table (room_type_id t) = Some (lux_min, lux_avg, lux_max) /\
        label_lux label = Some lux_avg.
Proof.
  eexists. eexists. split; [vm_compute; reflexivity|].
  split; [reflexivity|].
  eapply (calc_room_lumens_uses_tables eig_diagonal norm_axis_parallel
            default_context).
  vm_compute. reflexivity.
Defined.

(** C9.  With the area taken from the bounding box, the guard
    [if area <= 0] of [material.calc_room_lumens] stops the run exactly on
    a computed area that is a number and not positive: the operator then
    reports a warning and returns CANCELLED in the state it started from.
    A computed area that is nan is not positive either, but [nan <= 0] is
    false: the run goes on, stores nan in [room_area] and in the three
    lumens, stores the temperature row of the room type, and returns
    FINISHED. *)
Theorem calc_room_lumens_area_guard
    (eig : np.array33 -> np.array3 * np.array33) (norm : np.array3 -> Q)
    (context : Context) (cob : ContextObject) (mat : Material) :
  object context = Some cob -> active_material cob = Some mat ->
  room_area_source (emission_props mat) = AREA_BOUNDING_BOX ->
  let props := emission_props mat in
  let area := bounding_box_area_xy eig norm props context in
  (forall a : Q, area = Finite a -> a <= 0 ->
     calc_room_lumens eig norm context
       = CANCELLED props [("WARNING", "Invalid bounding box area")]) /\
  (area = NonFinite ->
     ~ (0 < area)%float /\
     exists p' t0 t1 t2,
       calc_room_lumens eig norm context = FINISHED p' [] /\
       room_area p' = NonFinite /\
       lumens_min p' = NonFinite /\ lumens_avg p' = NonFinite /\
       lumens_max p' = NonFinite /\
       dict_get temp_k_table (room_type_id (room_type props))
         = Some (t0, t1, t2) /\
       temp_min p' = t0 /\ temp_avg p' = t1 /\ temp_max p' = t2).
Proof.
  intros Hob Hmat Hsrc props area. split.
  - intros a Hbb Ha.
    unfold calc_room_lumens. rewrite Hob, Hmat, Hsrc. cbv zeta.
    fold props. fold area. rewrite Hbb. cbn [fleb].
    apply Qleb_le in Ha. rewrite Ha. reflexivity.
  - intro Hbb. split; [rewrite Hbb; intro F; exact F|].
    unfold calc_room_lumens. rewrite Hob, Hmat, Hsrc. cbv zeta.
    fold props. fold area. rewrite Hbb. cbn [fleb].
    destruct (room_lumens_body_finishes (set_room_area NonFinite props))
      as ([[l0 l1] l2] & [[t0 t1] t2] & Hl & Ht & Hb).
    destruct (room_lumens_result_fields (set_room_area NonFinite props)
                                        l0 l1 l2 t0 t1 t2)
      as (Ha & _ & _ & Hmin & Havg & Hmax & Ht0 & Ht1 & Ht2 & _).
    cbv zeta in Ha, Hmin, Havg, Hmax, Ht0, Ht1, Ht2.
    assert (Hnan : room_area (set_room_area NonFinite props) = NonFinite)
      by reflexivity.
    rewrite Hnan in Ha, Hmin, Havg, Hmax.
    eexists. exists t0, t1, t2. split; [exact Hb|].
    split; [exact Ha|]. split; [exact Hmin|]. split; [exact Havg|].
    split; [exact Hmax|]. split; [exact Ht|].
    split; [exact Ht0|]. split; [exact Ht1|exact Ht2].
Qed.

Lemma calc_room_lumens_area_guard_witness :
  bounding_box_area_xy eig_diagonal norm_axis_parallel
    (wall_props default_cube) (wall_context default_cube) = NonFinite /\
  exists p' t0 t1 t2,
    calc_room_lumens eig_diagonal norm_axis_parallel (wall_context default_cube)
      = FINISHED p' [] /\
    room_area p' = NonFinite /\
    lumens_min p' = NonFinite /\ lumens_avg p' = NonFinite /\
    lumens_max p' = NonFinite /\
    dict_get temp_k_table (room_type_id (room_type (wall_props default_cube)))
      = Some (t0, t1, t2) /\
    temp_min p' = t0 /\ temp_avg p' = t1 /\ temp_max p' = t2.
Proof.
  split; [vm_compute; reflexivity|].
  apply (calc_room_lumens_area_guard
           eig_diagonal norm_axis_parallel (wall_context default_cube)
           (mkContextObject default_cube
              (Some (mkMaterial (wall_props default_cube) false [])))
           (mkMaterial (wall_props default_cube) false [])
           eq_refl eq_refl eq_refl).
  vm_compute. reflexivity.
Defined.

(** C10.  With the properties inside their declared ranges, a finished run
    of [material.calc_room_lumens] leaves ordered temperatures,
    [temp_min <= temp_avg <= temp_max]; the height factor it applied is at
    least 1, and is 1 whenever [room_height] is at most 10 / 3.28.  The
    lumens are ordered, [lumens_min <= lumens_avg <= lumens_max], when the
    stored [room_area] is a number; when it is nan, which a nan
    bounding-box area makes it, the three lumens are nan and neither
    comparison holds. *)
Theorem calc_room_lumens_outputs_ordered_unless_nan
    (eig : np.array33 -> np.array3 * np.array33) (norm : np.array3 -> Q)
    (context : Context) (cob : ContextObject) (mat : Material)
    (p' : MaterialEmissionProperties) (log : list (string * string)) :
  object context = Some cob -> active_material cob = Some mat ->
  in_declared_range (emission_props mat) ->
  calc_room_lumens eig norm context = FINISHED p' log ->
  ((exists a : Q, room_area p' = Finite a) ->
   (lumens_min p' <= lumens_avg p')%float /\
   (lumens_avg p' <= lumens_max p')%float) /\
  (room_area p' = NonFinite ->
   ~ (lumens_min p' <= lumens_avg p')%float /\
   ~ (lumens_avg p' <= lumens_max p')%float) /\
  (room_area_source (emission_props mat) = AREA_BOUNDING_BOX ->
   bounding_box_area_xy eig norm (emission_props mat) context = NonFinite ->
   room_area p' = NonFinite) /\
  (temp_min p' <= temp_avg p' /\ temp_avg p' <= temp_max p')%Z /\
  1 <= h_factor (room_height p') /\
  (room_height p' <= 10 / (328 # 100) -> h_factor (room_height p') == 1).
Proof.
  intros Hob Hmat Hrange H.
  destruct (calc_room_lumens_finished_fields eig norm context p' log H)
    as (cob' & mat' & p1 & l0 & l1 & l2 & t0 & t1 & t2 & Hob' & Hmat' & Hguard &
        Hl & Ht & _ & Ha & _ & Hmin & Havg & Hmax & Ht0 & Ht1 & Ht2 & _).
  rewrite Hob in Hob'. injection Hob' as <-.
  rewrite Hmat in Hmat'. injection Hmat' as <-.
  cbv zeta in Hguard.
  assert (Harea : not_below 1 (room_area p')).
  { rewrite Ha.
    destruct Hguard as [[_ ->] | [_ (a & _ & _ & ->)]].
    - apply Hrange.
    - cbn [room_area set_room_area]. apply assign_float_not_below. }
  pose proof (h_factor_ge_1 (room_height p')) as Hhf.
  destruct (lux_rows_ordered _ _ _ _ Hl) as (_ & Hl01 & Hl12).
  destruct (temp_rows_ordered _ _ _ _ Ht) as (Ht01 & Ht12).
  rewrite Hmin, Havg, Hmax, Ht0, Ht1, Ht2.
  split.
  { intros [a Ea]. rewrite Ea in Harea |- *. cbn [not_below] in Harea.
    cbn [fmul fle].
    assert (Hscale : forall u v : Z, (u <= v)%Z ->
              inject_Z u * a * h_factor (room_height p')
              <= inject_Z v * a * h_factor (room_height p')).
    { intros u v Huv. rewrite Zle_Qle in Huv.
      apply Qmult_le_compat_r; [|lra].
      apply Qmult_le_compat_r; [exact Huv|lra]. }
    split; apply Hscale; assumption. }
  split.
  { intro Ea. rewrite Ea. cbn [fmul fle]. split; intro F; exact F. }
  split.
  { intros Hsrc Hbb. rewrite Ha.
    destruct Hguard as [[Hman _] | [_ (a & Hbb' & _ & ->)]].
    - rewrite Hsrc in Hman. discriminate Hman.
    - rewrite Hbb in Hbb'. subst a. reflexivity. }
  split; [split; assumption|].
  split; [exact Hhf|].
  intro Hlow. apply h_factor_low.
  assert (E : 10 / (328 # 100) == 1000 # 328) by reflexivity.
  rewrite E in Hlow.
  apply Qle_trans with ((1000 # 328) * (328 # 100)); [|apply Qle_lteq; right; reflexivity].
  apply Qmult_le_compat_r; [exact Hlow|discriminate].
Qed.

Lemma wall_props_in_declared_range (wall : Object) :
  in_declared_range (wall_props wall).
Proof.
  unfold in_declared_range; simpl.
  repeat split; try (intro H; discriminate H).
Qed.

Lemma calc_room_lumens_outputs_ordered_unless_nan_witness :
  in_declared_range (wall_props default_cube) /\
  exists p' log,
    calc_room_lumens eig_diagonal norm_axis_parallel (wall_context default_cube)
      = FINISHED p' log /\
    room_area p' = NonFinite /\
    ~ (lumens_min p' <= lumens_avg p')%float /\
    ~ (lumens_avg p' <= lumens_max p')%float.
Proof.
  split; [exact (wall_props_in_declared_range default_cube)|].
  eexists. eexists. split; [vm_compute; reflexivity|].
  split; [reflexivity|].
  eapply (calc_room_lumens_outputs_ordered_unless_nan
            eig_diagonal norm_axis_parallel (wall_context default_cube)
            (mkContextObject default_cube
               (Some (mkMaterial (wall_props default_cube) false [])))
            (mkMaterial (wall_props default_cube) false [])
            _ _ eq_refl eq_refl (wall_props_in_declared_range default_cube)).
  - vm_compute. reflexivity.
  - reflexivity.
Defined.

(** ** object_height *)

Lemma Qmax_cases (a b : Q) : Qmax a b = a \/ Qmax a b = b.
Proof.
  unfold Qmax, GenericMinMax.gmax. destruct (a ?= b); auto.
Qed.

Lemma Qmin_cases (a b : Q) : Qmin a b = a \/ Qmin a b = b.
Proof.
  unfold Qmin, GenericMinMax.gmin. destruct (a ?= b); auto.
Qed.

Lemma fold_Qmax_In (r : list Q) : forall a, In (fold_left Qmax r a) (a :: r).
Proof.
  induction r as [|b r IH]; intro a; simpl.
  - left; reflexivity.
  - destruct (IH (Qmax a b)) as [E | HIn].
    + rewrite <- E. destruct (Qmax_cases a b) as [-> | ->]; auto.
    + right; right; exact HIn.
Qed.

Lemma fold_Qmin_In (r : list Q) : forall a, In (fold_left Qmin r a) (a :: r).
Proof.
  induction r as [|b r IH]; intro a; simpl.
  - left; reflexivity.
  - destruct (IH (Qmin a b)) as [E | HIn].
    + rewrite <- E. destruct (Qmin_cases a b) as [-> | ->]; auto.
    + right; right; exact HIn.
Qed.

Lemma fold_Qmax_upper (r : list Q) :
  forall a z, In z (a :: r) -> z <= fold_left Qmax r a.
Proof.
  induction r as [|b r IH]; intros a z HIn; simpl.
  - destruct HIn as [<- | []]. apply Qle_refl.
  - destruct HIn as [E | [E | HIn]].
    + subst z. apply Qle_trans with (Qmax a b); [apply Q.le_max_l|].
      apply IH. left; reflexivity.
    + subst z. apply Qle_trans with (Qmax a b); [apply Q.le_max_r|].
      apply IH. left; reflexivity.
    + apply IH. right; exact HIn.
Qed.

Lemma fold_Qmin_lower (r : list Q) :
  forall a z, In z (a :: r) -> fold_left Qmin r a <= z.
Proof.
  induction r as [|b r IH]; intros a z HIn; simpl.
  - destruct HIn as [<- | []]. apply Qle_refl.
  - destruct HIn as [E | [E | HIn]].
    + subst z. apply Qle_trans with (Qmin a b); [|apply Q.le_min_l].
      apply IH. left; reflexivity.
    + subst z. apply Qle_trans with (Qmin a b); [|apply Q.le_min_r].
      apply IH. left; reflexivity.
    + apply IH. right; exact HIn.
Qed.

(** [object_height] of a mesh with at least one vertex is the greatest
    world-space z minus the least. *)
Lemma object_height_extent (o : Object) :
  is_mesh o = true -> world_zs o <> [] ->
  exists hi lo,
    In hi (world_zs o) /\ In lo (world_zs o) /\
    (forall z, In z (world_zs o) -> lo <= z /\ z <= hi) /\
    object_height (Some o) = hi - lo.
Proof.
  intros Hmesh Hne. unfold object_height. rewrite Hmesh. cbn [negb].
  destruct (world_zs o) as [|a r]; [contradiction Hne; reflexivity|].
  cbn [py_max py_min].
  exists (fold_left Qmax r a), (fold_left Qmin r a).
  split; [apply fold_Qmax_In|]. split; [apply fold_Qmin_In|].
  split; [|reflexivity].
  intros z Hz. split; [apply fold_Qmin_lower | apply fold_Qmax_upper]; exact Hz.
Qed.

Lemma object_height_not_mesh (o : Object) :
  is_mesh o = false -> object_height (Some o) = 0.
Proof.
  intro H. unfold object_height. rewrite H. reflexivity.
Qed.

Lemma object_height_no_vertices (o : Object) :
  world_zs o = [] -> object_height (Some o) = 0.
Proof.
  intro H. unfold object_height. rewrite H.
  destruct (negb (is_mesh o)); reflexivity.
Qed.

(** C8, counterexample.  The height comes from the default cube, whose
    extent is 2, but the area guard cancels the run and [room_height]
    stays 2.7. *)
Lemma room_height_not_updated_when_cancelled :
  height_source no_reference_props = HEIGHT_FROM_OBJECT /\
  height_object no_reference_props = Some default_cube /\
  object_height (Some default_cube) == 2 /\
  0 < object_height (Some default_cube) /\
  exists p' log,
    calc_room_lumens eig_diagonal norm_axis_parallel no_reference_context
      = CANCELLED p' log /\
    room_height p' == 27 # 10 /\
    ~ room_height p' == object_height (Some default_cube).
Proof.
  split; [reflexivity|]. split; [reflexivity|]. split; [reflexivity|].
  split; [reflexivity|].
  eexists. eexists. split; [vm_compute; reflexivity|].
  split; [reflexivity|].
  intro H. vm_compute in H. discriminate H.
Qed.

(** C8, amended.  [object_height] is 0 for a missing object, for one that
    is not a mesh and for a mesh without vertices, and otherwise the extent
    of the world-space z coordinates of the mesh's vertices.  In a run of [material.calc_room_lumens] that passes
    the area guard and returns FINISHED, with [height_source] at
    ['FROM_OBJECT'] and a height object set, a positive extent is assigned
    to [room_height] (which stores it as it is from the declared minimum
    0.5 upwards, and stores 0.5 below), and an extent that is not positive
    leaves [room_height] unchanged. *)
Theorem calc_room_lumens_measures_height
    (eig : np.array33 -> np.array3 * np.array33) (norm : np.array3 -> Q)
    (context : Context) (cob : ContextObject) (mat : Material) (o : Object)
    (p' : MaterialEmissionProperties) (log : list (string * string)) :
  object context = Some cob -> active_material cob = Some mat ->
  height_source (emission_props mat) = HEIGHT_FROM_OBJECT ->
  height_object (emission_props mat) = Some o ->
  calc_room_lumens eig norm context = FINISHED p' log ->
  object_height None = 0 /\
  (forall obj, is_mesh obj = false -> object_height (Some obj) = 0) /\
  (forall obj, world_zs obj = [] -> object_height (Some obj) = 0) /\
  (forall obj, is_mesh obj = true -> world_zs obj <> [] ->
     exists hi lo,
       In hi (world_zs obj) /\ In lo (world_zs obj) /\
       (forall z, In z (world_zs obj) -> lo <= z /\ z <= hi) /\
       object_height (Some obj) = hi - lo) /\
  (0 < object_height (Some o) ->
     room_height p' = assign room_height_decl (object_height (Some o)) /\
     ((5 # 10) <= object_height (Some o) ->
      room_height p' = object_height (Some o))) /\
  (object_height (Some o) <= 0 ->
     room_height p' = room_height (emission_props mat)).
Proof.
  intros Hob Hmat Hsrc Hho H.
  split; [reflexivity|]. split; [exact object_height_not_mesh|].
  split; [exact object_height_no_vertices|].
  split; [exact object_height_extent|].
  destruct (calc_room_lumens_finished_fields eig norm context p' log H)
    as (cob' & mat' & p1 & l0 & l1 & l2 & t0 & t1 & t2 & Hob' & Hmat' & Hguard &
        _ & _ & _ & _ & Hh & _).
  rewrite Hob in Hob'. injection Hob' as <-.
  rewrite Hmat in Hmat'. injection Hmat' as <-.
  assert (Hp1 : height_source p1 = HEIGHT_FROM_OBJECT /\
                height_object p1 = Some o /\
                room_height p1 = room_height (emission_props mat)).
  { cbv zeta in Hguard.
    destruct Hguard as [[_ ->] | [_ (a & _ & _ & ->)]]; repeat split; assumption. }
  destruct Hp1 as (Hs1 & Ho1 & Hr1).
  rewrite Hh. unfold update_room_height. rewrite Hs1, Ho1.
  split.
  - intro Hpos. apply Qltb_lt in Hpos. rewrite Hpos.
    cbn [room_height set_room_height]. split; [reflexivity|].
    intro Hmin. apply assign_in_range. exact Hmin.
  - intro Hnp. apply Qltb_ge in Hnp. rewrite Hnp. exact Hr1.
Qed.

Lemma calc_room_lumens_measures_height_witness :
  exists p' log,
    calc_room_lumens eig_diagonal norm_axis_parallel measured_height_context
      = FINISHED p' log /\
    (0 < object_height (Some default_cube) ->
       room_height p' = assign room_height_decl (object_height (Some default_cube)) /\
       ((5 # 10) <= object_height (Some default_cube) ->
        room_height p' = object_height (Some default_cube))) /\
    room_height p' == 2.
Proof.
  eexists. eexists. split; [vm_compute; reflexivity|].
  split; [|reflexivity].
  eapply (calc_room_lumens_measures_height eig_diagonal norm_axis_parallel
            measured_height_context
            (mkContextObject default_cube
               (Some (mkMaterial measured_height_props false [])))
            (mkMaterial measured_height_props false []) default_cube);
    vm_compute; reflexivity.
Defined.

(** ** The declared ranges are invariants *)

(** What the preset callback writes: the number the preset names, which is
    at least 50. *)
Lemma update_ler_from_preset_writes (self : MaterialEmissionProperties) :
  ler_preset self <> LER_CUSTOM ->
  exists v,
    py_float (ler_preset_id (ler_preset self)) = Some v /\
    50 <= v /\
    update_ler_from_preset self = Ok (set_ler v self) /\
    ler (set_ler v self) = v.
Proof.
  intro Hk. unfold update_ler_from_preset.
  destruct (ler_preset self) eqn:E; try contradiction; cbn;
    eexists; (split; [reflexivity|]);
    (split; [intro H; discriminate H|]); split; reflexivity.
Qed.

Lemma update_ler_from_preset_custom (self : MaterialEmissionProperties) :
  ler_preset self = LER_CUSTOM -> update_ler_from_preset self = Ok self.
Proof.
  intro Hk. unfold update_ler_from_preset. rewrite Hk. reflexivity.
Qed.

Lemma calc_room_lumens_cancelled_inv
    (eig : np.array33 -> np.array3 * np.array33) (norm : np.array3 -> Q)
    (context : Context) (cob : ContextObject) (mat : Material)
    (p' : MaterialEmissionProperties) (log : list (string * string)) :
  object context = Some cob -> active_material cob = Some mat ->
  calc_room_lumens eig norm context = CANCELLED p' log ->
  p' = emission_props mat.
Proof.
  intros Hob Hmat. unfold calc_room_lumens. rewrite Hob, Hmat.
  assert (Hbody : forall p, room_lumens_body p = CANCELLED p' log -> False).
  { intros p Hp.
    destruct (room_lumens_body_finishes p) as (lux & temp & _ & _ & Hb).
    rewrite Hb in Hp. discriminate Hp. }
  destruct (room_area_source (emission_props mat)).
  - intro H. destruct (Hbody _ H).
  - cbv zeta.
    destruct (fleb (bounding_box_area_xy eig norm (emission_props mat) context)
                   0).
    + intro H. injection H as <- _. reflexivity.
    + intro H. destruct (Hbody _ H).
Qed.

Lemma calc_emission_strength_props
    (apply_scale : Object -> Object) (context : Context)
    (cob cob' : ContextObject) (mat mat' : Material)
    (log : list (string * string)) :
  object context = Some cob -> active_material cob = Some mat ->
  (calc_emission_strength apply_scale context = FINISHED (Some cob') log \/
   calc_emission_strength apply_scale context = CANCELLED (Some cob') log) ->
  active_material cob' = Some mat' ->
  emission_props mat' = emission_props mat \/
  exists s, emission_props mat' = set_strength s (emission_props mat).
Proof.
  intros Hob Hmat Hrun Hmat'. unfold calc_emission_strength in Hrun.
  rewrite Hob in Hrun.
  destruct (negb (is_mesh (ob cob))).
  { destruct Hrun as [Hrun | Hrun]; [discriminate|].
    injection Hrun as <- _. rewrite Hmat in Hmat'. injection Hmat' as <-.
    left; reflexivity. }
  rewrite Hmat in Hrun.
  destruct (Qleb _ 0).
  { destruct Hrun as [Hrun | Hrun]; [discriminate|].
    injection Hrun as <- _. cbn in Hmat'. injection Hmat' as <-.
    left; reflexivity. }
  destruct (py_div (lumens (emission_props mat)) (ler (emission_props mat)))
    as [q|]; [|destruct Hrun; discriminate].
  destruct (py_div q _) as [s|]; [|destruct Hrun; discriminate].
  destruct Hrun as [Hrun | Hrun]; [|discriminate].
  injection Hrun as <- _. cbn in Hmat'. injection Hmat' as <-.
  right. exists s. reflexivity.
Qed.

(** One operation changes a property with a declared minimum only by
    assigning to it, so only to a value within its range. *)
Lemma step_bounded_fields (p p' : MaterialEmissionProperties) :
  step p p' ->
  (lumens p' = lumens p \/ not_below 0 (lumens p')) /\
  (ler p' = ler p \/ 1 <= ler p') /\
  area p' = area p /\
  num_lights p' = num_lights p /\
  (room_area p' = room_area p \/ not_below 1 (room_area p')) /\
  (room_height p' = room_height p \/ (5 # 10) <= room_height p').
Proof.
  intro Hstep. destruct Hstep.
  - (* an edit of ler *)
    repeat split; auto. right. apply assign_ge_min.
  - (* a preset is selected *)
    destruct k; cbn in H; injection H as <-;
      repeat split; auto; right; apply assign_ge_min.
  - (* a height object is picked *)
    unfold update_height_from_object. cbn [height_source height_object set_height_object].
    destruct (height_source p); [repeat split; auto|].
    destruct o as [o|]; [|repeat split; auto].
    destruct (is_mesh o); [|repeat split; auto].
    destruct (Qltb 0 (object_height (Some o))); repeat split; auto.
    right. apply assign_ge_min.
  - (* calc_room_lumens, FINISHED *)
    destruct (calc_room_lumens_finished_fields _ _ _ _ _ H1)
      as (cob' & mat' & p1 & l0 & l1 & l2 & t0 & t1 & t2 & Hob' & Hmat' & Hguard &
          _ & _ & _ & Ha & Hh & _ & _ & _ & _ & _ & _ & Hler & Hlum & Har & Hn).
    rewrite H in Hob'. injection Hob' as <-.
    rewrite H0 in Hmat'. injection Hmat' as <-.
    rewrite Ha, Hh, Hler, Hlum, Har, Hn.
    assert (Hheight : forall q,
              room_height (update_room_height q) = room_height q \/
              (5 # 10) <= room_height (update_room_height q)).
    { intro q. unfold update_room_height.
      destruct (height_source q); auto.
      destruct (height_object q) as [o|]; auto.
      destruct (Qltb 0 (object_height (Some o))); auto.
      right. apply assign_ge_min. }
    cbv zeta in Hguard.
    destruct Hguard as [[_ ->] | [_ (a & _ & _ & ->)]].
    + repeat split; auto.
    + repeat split; auto.
      * right. apply assign_float_not_below.
      * destruct (Hheight (set_room_area a (emission_props mat))) as [E | E];
          [left; exact E | right; exact E].
  - (* calc_room_lumens, CANCELLED *)
    rewrite (calc_room_lumens_cancelled_inv _ _ _ _ _ _ _ H H0 H1).
    repeat split; auto.
  - (* use_lumens *)
    unfold use_lumens in H1. rewrite H, H0 in H1. injection H1 as <- _.
    repeat split; auto. right. apply assign_float_not_below.
  - (* calc_emission_strength *)
    destruct (calc_emission_strength_props _ _ _ _ _ _ _ H H0 H1 H2)
      as [-> | (s & ->)]; repeat split; auto.
Qed.

Lemma step_in_declared_range (p p' : MaterialEmissionProperties) :
  step p p' -> in_declared_range p -> in_declared_range p'.
Proof.
  intros Hstep (H1 & H2 & H3 & H4 & H5 & H6).
  destruct (step_bounded_fields p p' Hstep)
    as (F1 & F2 & F3 & F4 & F5 & F6).
  unfold in_declared_range. rewrite F3, F4.
  repeat split; try assumption.
  - destruct F1 as [-> | F1]; assumption.
  - destruct F2 as [-> | F2]; assumption.
  - destruct F5 as [-> | F5]; assumption.
  - destruct F6 as [-> | F6]; assumption.
Qed.

(** Every state reachable from the defaults is inside the declared ranges. *)
Lemma reachable_in_declared_range (p : MaterialEmissionProperties) :
  reachable p -> in_declared_range p.
Proof.
  induction 1 as [|p p' _ IH Hstep].
  - exact default_props_in_declared_range.
  - exact (step_in_declared_range p p' Hstep IH).
Qed.

(** C7.  [ler] is declared with minimum 1; the preset callback writes the
    number of the selected preset, which is never below 1 (and for the
    CUSTOM preset writes nothing); and every operation on a property group
    with [ler >= 1] leaves [ler >= 1]. *)
Theorem ler_at_least_one (p p' : MaterialEmissionProperties) :
  1 <= ler p -> step p p' ->
  1 <= ler p' /\
  prop_min ler_decl = Some 1 /\
  (forall self,
     ler_preset self <> LER_CUSTOM ->
     exists v,
       py_float (ler_preset_id (ler_preset self)) = Some v /\ 1 <= v /\
       update_ler_from_preset self = Ok (set_ler v self) /\
       ler (set_ler v self) = v) /\
  (forall self,
     ler_preset self = LER_CUSTOM -> update_ler_from_preset self = Ok self).
Proof.
  intros Hler Hstep. split; [|split; [reflexivity|split]].
  - destruct (step_bounded_fields p p' Hstep) as (_ & [-> | F] & _); assumption.
  - intros self Hk.
    destruct (update_ler_from_preset_writes self Hk) as (v & Hv & H50 & Hu & Hs).
    exists v. repeat split; try assumption.
    apply Qle_trans with 50; [discriminate | exact H50].
  - exact update_ler_from_preset_custom.
Qed.

Lemma ler_at_least_one_witness :
  1 <= ler default_props /\
  step default_props (set_ler 50 (set_ler_preset LER_50 default_props)) /\
  1 <= ler (set_ler 50 (set_ler_preset LER_50 default_props)).
Proof.
  assert (Hler : 1 <= ler default_props) by (intro H; discriminate H).
  assert (Hstep : step default_props
                    (set_ler 50 (set_ler_preset LER_50 default_props))).
  { apply (step_select_preset LER_50). reflexivity. }
  split; [exact Hler|]. split; [exact Hstep|].
  exact (proj1 (ler_at_least_one _ _ Hler Hstep)).
Defined.

(** ** bounding_box_area_xy *)

Section BoundingBox.

Variable eig : np.array33 -> np.array3 * np.array33.
Variable norm : np.array3 -> Q.

(** The two early returns. *)
Lemma bounding_box_area_xy_no_reference props context :
  reference_objects props context = [] ->
  bounding_box_area_xy eig norm props context = Finite 0.
Proof.
  intro H. unfold bounding_box_area_xy. rewrite H. reflexivity.
Qed.

Lemma bounding_box_area_xy_few_vertices props context :
  (List.length (gather_verts_world (reference_objects props context)) < 3)%nat ->
  bounding_box_area_xy eig norm props context = Finite 0.
Proof.
  intro H. unfold bounding_box_area_xy.
  destruct (reference_objects props context); [reflexivity|].
  apply Nat.ltb_lt in H. rewrite H. reflexivity.
Qed.

(** No reference object is available exactly when no wall is set and the
    active object is missing or not a mesh. *)
Lemma reference_objects_empty props context :
  reference_objects props context = [] <->
  wall_a props = None /\ wall_b props = None /\
  (active_object context = None \/
   exists o, active_object context = Some o /\ is_mesh o = false).
Proof.
  unfold reference_objects.
  destruct (wall_a props) as [a|], (wall_b props) as [b|]; cbn;
    try (split; [discriminate | intros (Ha & Hb & _); discriminate]).
  destruct (active_object context) as [o|].
  - destruct (is_mesh o) eqn:Hm; split.
    + discriminate.
    + intros (_ & _ & [H | (o' & H & Hf)]); [discriminate|].
      injection H as <-. congruence.
    + intros _. repeat split. right. exists o. split; [reflexivity|exact Hm].
    + reflexivity.
  - split; [|reflexivity]. intros _. repeat split. left; reflexivity.
Qed.

(** With walls set, the walls are the reference objects; with none, the
    active mesh object is. *)
Lemma reference_objects_walls props context :
  wall_a props <> None \/ wall_b props <> None ->
  reference_objects props context
    = optional_to_list (wall_a props) ++ optional_to_list (wall_b props).
Proof.
  unfold reference_objects.
  destruct (wall_a props), (wall_b props); cbn; try reflexivity.
  intros [H | H]; contradiction H; reflexivity.
Qed.

Lemma reference_objects_active_mesh props context o :
  wall_a props = None -> wall_b props = None ->
  active_object context = Some o -> is_mesh o = true ->
  reference_objects props context = [o].
Proof.
  intros Ha Hb Ho Hm. unfold reference_objects.
  rewrite Ha, Hb, Ho, Hm. reflexivity.
Qed.

(** Past the early returns the result is [projected_area]. *)
Lemma bounding_box_area_xy_projected props context :
  let verts := gather_verts_world (reference_objects props context) in
  (3 <= List.length verts)%nat ->
  bounding_box_area_xy eig norm props context = projected_area eig norm verts.
Proof.
  cbv zeta. intro H. unfold bounding_box_area_xy.
  destruct (reference_objects props context) as [|o r] eqn:E.
  - cbn in H. inversion H.
  - destruct (Nat.ltb_spec
                (List.length (gather_verts_world (o :: r))) 3) as [Hlt|Hge];
      [|reflexivity].
    exfalso. apply (Nat.lt_irrefl 3).
    apply Nat.le_lt_trans with (List.length (gather_verts_world (o :: r)));
      assumption.
Qed.

(** Equal eigenvalues put [np.argmin] and [np.argmax] on index 0. *)
Lemma argmin_argmax_equal (a b c s : Q) :
  a == s -> b == s -> c == s ->
  np.argmin (a, b, c) = 0%nat /\ np.argmax (a, b, c) = 0%nat.
Proof.
  intros Ha Hb Hc. unfold np.argmin, np.argmax.
  assert (Hab : Qleb a b = true) by (apply Qleb_le; rewrite Ha, Hb; apply Qle_refl).
  assert (Hac : Qleb a c = true) by (apply Qleb_le; rewrite Ha, Hc; apply Qle_refl).
  assert (Hba : Qleb b a = true) by (apply Qleb_le; rewrite Ha, Hb; apply Qle_refl).
  assert (Hca : Qleb c a = true) by (apply Qleb_le; rewrite Ha, Hc; apply Qle_refl).
  rewrite Hab, Hac, Hba, Hca. split; reflexivity.
Qed.

Lemma cross_self_zero (v : np.array3) :
  let '(c0, c1, c2) := np.cross v v in c0 == 0 /\ c1 == 0 /\ c2 == 0.
Proof.
  destruct v as [[v0 v1] v2]. cbn. repeat split; ring.
Qed.

(** C5, the isotropic case.  When the covariance of the gathered vertices
    is a multiple of the identity, so that an eigen-solver returns three
    equal eigenvalues, the plane normal and the first axis are the same
    eigenvector, their cross product is the zero vector, and the division
    by its norm leaves no finite area: the function does not return the
    area of a bounding rectangle. *)
Theorem bounding_box_area_xy_isotropic_nonfinite props context (s : Q) :
  let verts := gather_verts_world (reference_objects props context) in
  (3 <= List.length verts)%nat ->
  is_scalar_matrix (vertex_covariance verts) s ->
  (forall m t, is_scalar_matrix m t ->
               let '(a, b, c) := fst (eig m) in a == t /\ b == t /\ c == t) ->
  (forall v : np.array3,
     (let '(v0, v1, v2) := v in v0 == 0 /\ v1 == 0 /\ v2 == 0) ->
     norm v == 0) ->
  bounding_box_area_xy eig norm props context = NonFinite.
Proof.
  cbv zeta. intros Hlen Hcov Heig Hnorm.
  rewrite (bounding_box_area_xy_projected props context Hlen).
  unfold projected_area.
  fold (vertex_covariance (gather_verts_world (reference_objects props context))).
  specialize (Heig _ _ Hcov).
  destruct (eig (vertex_covariance
                   (gather_verts_world (reference_objects props context))))
    as [[[a b] c] vecs].
  cbn [fst] in Heig. destruct Heig as (Ha & Hb & Hc).
  destruct (argmin_argmax_equal a b c s Ha Hb Hc) as [-> ->].
  pose proof (Hnorm _ (cross_self_zero (np.column vecs 0))) as Hz.
  assert (Hdiv : np.div_scalar
                   (np.cross (np.column vecs 0) (np.column vecs 0))
                   (norm (np.cross (np.column vecs 0) (np.column vecs 0)))
                 = None).
  { unfold np.div_scalar. apply Qeq_bool_iff in Hz. rewrite Hz. reflexivity. }
  rewrite Hdiv.
  destruct (np.div_scalar (np.column vecs 0) (norm (np.column vecs 0)));
    reflexivity.
Qed.

End BoundingBox.

Lemma eig_diagonal_scalar (m : np.array33) (t : Q) :
  is_scalar_matrix m t ->
  let '(a, b, c) := fst (eig_diagonal m) in a == t /\ b == t /\ c == t.
Proof.
  destruct m as [[[[m00 m01] m02] [[m10 m11] m12]] [[m20 m21] m22]].
  cbn. intros (H0 & H1 & H2 & _). repeat split; assumption.
Qed.

Lemma norm_axis_parallel_zero (v : np.array3) :
  (let '(v0, v1, v2) := v in v0 == 0 /\ v1 == 0 /\ v2 == 0) ->
  norm_axis_parallel v == 0.
Proof.
  destruct v as [[v0 v1] v2]. intros (H0 & H1 & H2).
  unfold norm_axis_parallel. rewrite H0, H1, H2. reflexivity.
Qed.

Lemma bounding_box_area_xy_isotropic_nonfinite_witness :
  (3 <= List.length (gather_verts_world
                       (reference_objects (wall_props default_cube)
                                          (wall_context default_cube))))%nat /\
  is_scalar_matrix
    (vertex_covariance
       (gather_verts_world
          (reference_objects (wall_props default_cube)
                             (wall_context default_cube))))
    (8 # 7) /\
  bounding_box_area_xy eig_diagonal norm_axis_parallel
    (wall_props default_cube) (wall_context default_cube) = NonFinite.
Proof.
  assert (Hlen : (3 <= List.length
                         (gather_verts_world
                            (reference_objects (wall_props default_cube)
                                               (wall_context default_cube))))%nat).
  { vm_compute. repeat constructor. }
  assert (Hcov : is_scalar_matrix
                   (vertex_covariance
                      (gather_verts_world
                         (reference_objects (wall_props default_cube)
                                            (wall_context default_cube))))
                   (8 # 7)).
  { vm_compute. repeat split; reflexivity. }
  split; [exact Hlen|]. split; [exact Hcov|].
  exact (bounding_box_area_xy_isotropic_nonfinite
           eig_diagonal norm_axis_parallel
           (wall_props default_cube) (wall_context default_cube) (8 # 7)
           Hlen Hcov eig_diagonal_scalar norm_axis_parallel_zero).
Defined.

(** ** The principal-axes projection, away from the isotropic case *)

Lemma dot_sym (a b : np.array3) : np.dot a b == np.dot b a.
Proof.
  destruct a as [[a0 a1] a2], b as [[b0 b1] b2]. cbn. ring.
Qed.

Lemma dot_eq3 (p u v : np.array3) : eq3 u v -> np.dot p u == np.dot p v.
Proof.
  destruct p as [[p0 p1] p2], u as [[u0 u1] u2], v as [[v0 v1] v2].
  cbn. intros (H0 & H1 & H2). rewrite H0, H1, H2. reflexivity.
Qed.

Lemma dot_scale3 (p v : np.array3) (t : Q) :
  np.dot p (scale3 t v) == t * np.dot p v.
Proof.
  destruct p as [[p0 p1] p2], v as [[v0 v1] v2]. cbn. ring.
Qed.

(** The cross product of two of three orthonormal vectors is the third, up
    to its sign. *)
Lemma cross_of_orthonormal (a b v : np.array3) :
  np.dot a a == 1 -> np.dot b b == 1 -> np.dot v v == 1 ->
  np.dot a b == 0 -> np.dot v a == 0 -> np.dot v b == 0 ->
  np.dot (np.cross a b) (np.cross a b) == 1 /\
  (eq3 (np.cross a b) v \/ eq3 (np.cross a b) (scale3 (-1) v)).
Proof.
  destruct a as [[a0 a1] a2], b as [[b0 b1] b2], v as [[v0 v1] v2].
  cbn. intros Haa Hbb Hvv Hab Hva Hvb.
  set (n0 := a1 * b2 - a2 * b1).
  set (n1 := a2 * b0 - a0 * b2).
  set (n2 := a0 * b1 - a1 * b0).
  set (t := v0 * n0 + v1 * n1 + v2 * n2).
  assert (Hnn : n0 * n0 + n1 * n1 + n2 * n2 == 1) by (unfold n0, n1, n2; nsatz).
  assert (H0 : v0 == t * n0) by (unfold t, n0, n1, n2; nsatz).
  assert (H1 : v1 == t * n1) by (unfold t, n0, n1, n2; nsatz).
  assert (H2 : v2 == t * n2) by (unfold t, n0, n1, n2; nsatz).
  assert (Htt : t * t == 1).
  { rewrite <- Hvv. rewrite H0, H1, H2.
    transitivity (t * t * (n0 * n0 + n1 * n1 + n2 * n2)); [|ring].
    rewrite Hnn. ring. }
  split; [exact Hnn|].
  assert (Hsign : t == 1 \/ t == -1).
  { assert (Hprod : (t - 1) * (t + 1) == 0).
    { transitivity (t * t - 1); [ring|]. rewrite Htt. ring. }
    destruct (Qmult_integral _ _ Hprod) as [E | E]; [left | right]; lra. }
  destruct Hsign as [Ht | Ht]; [left | right]; rewrite Ht in H0, H1, H2;
    repeat split; lra.
Qed.

Lemma norm_of_unit (v : np.array3) (n : Q) :
  is_norm_of v n -> np.dot v v == 1 -> n == 1.
Proof.
  intros [Hpos Hsq] Hv. rewrite Hv in Hsq.
  assert (Hprod : (n - 1) * (n + 1) == 0).
  { transitivity (n * n - 1); [ring|]. rewrite Hsq. ring. }
  destruct (Qmult_integral _ _ Hprod) as [E | E]; lra.
Qed.

Lemma div_scalar_unit (v : np.array3) (n : Q) :
  n == 1 -> exists w, np.div_scalar v n = Some w /\ eq3 w v.
Proof.
  intro Hn. unfold np.div_scalar.
  destruct (Qeq_bool n 0) eqn:E.
  - apply Qeq_bool_iff in E. rewrite E in Hn. discriminate Hn.
  - destruct v as [[v0 v1] v2]. eexists. split; [reflexivity|].
    cbn. rewrite Hn. repeat split; field.
Qed.

(** [a.max()] and [a.min()] depend on the numbers only, and exchange under
    negation. *)
Lemma fold_Qmax_ext {A : Type} (f g : A -> Q) (l : list A) :
  (forall p, f p == g p) ->
  forall a b, a == b ->
  fold_left Qmax (map f l) a == fold_left Qmax (map g l) b.
Proof.
  intro Hfg. induction l as [|p l IH]; intros a b Hab; cbn.
  - exact Hab.
  - apply IH. rewrite Hab, (Hfg p). reflexivity.
Qed.

Lemma fold_Qmin_ext {A : Type} (f g : A -> Q) (l : list A) :
  (forall p, f p == g p) ->
  forall a b, a == b ->
  fold_left Qmin (map f l) a == fold_left Qmin (map g l) b.
Proof.
  intro Hfg. induction l as [|p l IH]; intros a b Hab; cbn.
  - exact Hab.
  - apply IH. rewrite Hab, (Hfg p). reflexivity.
Qed.

Lemma amax_ext {A : Type} (f g : A -> Q) (l : list A) :
  (forall p, f p == g p) -> np.amax (map f l) == np.amax (map g l).
Proof.
  intro Hfg. destruct l as [|p l]; cbn; [reflexivity|].
  apply fold_Qmax_ext; [exact Hfg | apply Hfg].
Qed.

Lemma amin_ext {A : Type} (f g : A -> Q) (l : list A) :
  (forall p, f p == g p) -> np.amin (map f l) == np.amin (map g l).
Proof.
  intro Hfg. destruct l as [|p l]; cbn; [reflexivity|].
  apply fold_Qmin_ext; [exact Hfg | apply Hfg].
Qed.

Lemma Qmax_opp (a b : Q) : Qmax (- a) (- b) == - Qmin a b.
Proof.
  destruct (Q.max_spec (- a) (- b)) as [[H ->] | [H ->]];
    destruct (Q.min_spec a b) as [[H' ->] | [H' ->]]; lra.
Qed.

Lemma Qmin_opp (a b : Q) : Qmin (- a) (- b) == - Qmax a b.
Proof.
  destruct (Q.min_spec (- a) (- b)) as [[H ->] | [H ->]];
    destruct (Q.max_spec a b) as [[H' ->] | [H' ->]]; lra.
Qed.

Lemma fold_Qmax_opp {A : Type} (f : A -> Q) (l : list A) :
  forall a b, a == - b ->
  fold_left Qmax (map (fun p => - f p) l) a == - fold_left Qmin (map f l) b.
Proof.
  induction l as [|p l IH]; intros a b Hab; cbn.
  - exact Hab.
  - apply IH. rewrite Hab. apply Qmax_opp.
Qed.

Lemma fold_Qmin_opp {A : Type} (f : A -> Q) (l : list A) :
  forall a b, a == - b ->
  fold_left Qmin (map (fun p => - f p) l) a == - fold_left Qmax (map f l) b.
Proof.
  induction l as [|p l IH]; intros a b Hab; cbn.
  - exact Hab.
  - apply IH. rewrite Hab. apply Qmin_opp.
Qed.

(** The extent of a list of numbers is the extent of their negations. *)
Lemma extent_opp {A : Type} (f : A -> Q) (l : list A) :
  np.amax (map (fun p => - f p) l) - np.amin (map (fun p => - f p) l)
  == np.amax (map f l) - np.amin (map f l).
Proof.
  destruct l as [|p l]; cbn; [reflexivity|].
  rewrite (fold_Qmax_opp f l (- f p) (f p)) by reflexivity.
  rewrite (fold_Qmin_opp f l (- f p) (f p)) by reflexivity.
  ring.
Qed.

Lemma extent_nonneg (xs : list Q) : 0 <= np.amax xs - np.amin xs.
Proof.
  destruct xs as [|a r]; cbn; [discriminate|].
  assert (H1 : a <= fold_left Qmax r a) by (apply fold_Qmax_upper; left; reflexivity).
  assert (H2 : fold_left Qmin r a <= a) by (apply fold_Qmin_lower; left; reflexivity).
  lra.
Qed.

Lemma argmin_lt_3 (a : np.array3) : (np.argmin a < 3)%nat.
Proof.
  destruct a as [[a0 a1] a2]. unfold np.argmin.
  destruct (Qleb a0 a1 && Qleb a0 a2); [lia|].
  destruct (Qleb a1 a2); lia.
Qed.

Lemma argmax_lt_3 (a : np.array3) : (np.argmax a < 3)%nat.
Proof.
  destruct a as [[a0 a1] a2]. unfold np.argmax.
  destruct (Qleb a1 a0 && Qleb a2 a0); [lia|].
  destruct (Qleb a2 a1); lia.
Qed.

(** Two distinct columns of an orthonormal matrix and the remaining one. *)
Lemma orthonormal_triple (m : np.array33) (i k : nat) :
  orthonormal_columns m -> (i < 3)%nat -> (k < 3)%nat -> k <> i ->
  let ek := np.column m k in
  let ei := np.column m i in
  let ej := np.column m (third_index i k) in
  np.dot ek ek == 1 /\ np.dot ei ei == 1 /\ np.dot ej ej == 1 /\
  np.dot ek ei == 0 /\ np.dot ej ek == 0 /\ np.dot ej ei == 0.
Proof.
  intros (H00 & H11 & H22 & H01 & H02 & H12) Hi Hk Hne. cbv zeta.
  pose proof (dot_sym (np.column m 1) (np.column m 0)) as S10.
  pose proof (dot_sym (np.column m 2) (np.column m 0)) as S20.
  pose proof (dot_sym (np.column m 2) (np.column m 1)) as S21.
  rewrite H01 in S10. rewrite H02 in S20. rewrite H12 in S21.
  destruct i as [|[|[|i]]]; [| | |lia];
    (destruct k as [|[|[|k]]]; [| | |lia]);
    try (contradiction Hne; reflexivity);
    unfold third_index; cbn [Nat.sub]; repeat split; assumption.
Qed.

Section PrincipalAxes.

Variable eig : np.array33 -> np.array3 * np.array33.
Variable norm : np.array3 -> Q.

(** When the eigen-solver returns orthonormal eigenvectors, the norm is the
    Euclidean one and the extreme eigenvalues sit at two different indices,
    the result is the area of the rectangle that bounds the vertices in
    the coordinates of the dominant eigenvector and of the remaining one. *)
Lemma projected_area_pca_rectangle (verts : list mathutils.Vector) :
  let pts := map np.of_vector verts in
  let vals := fst (eig (vertex_covariance verts)) in
  let vecs := snd (eig (vertex_covariance verts)) in
  np.argmin vals <> np.argmax vals ->
  orthonormal_columns vecs ->
  (forall v, is_norm_of v (norm v)) ->
  exists a,
    projected_area eig norm verts = Finite a /\
    a == bounding_rectangle_area
           (np.mean pts)
           (np.column vecs (np.argmax vals))
           (np.column vecs (third_index (np.argmax vals) (np.argmin vals)))
           pts.
Proof.
  cbv zeta. unfold projected_area.
  fold (vertex_covariance verts).
  destruct (eig (vertex_covariance verts)) as [vals vecs]. cbn [fst snd].
  intros Hne Horth Hnorm.
  set (pts := map np.of_vector verts).
  set (center := np.mean pts).
  set (k := np.argmin vals) in *. set (i := np.argmax vals) in *.
  destruct (orthonormal_triple vecs i k Horth (argmax_lt_3 vals)
              (argmin_lt_3 vals) Hne)
    as (Hkk & Hii & Hjj & Hki & Hjk & Hji).
  set (ek := np.column vecs k) in *. set (ei := np.column vecs i) in *.
  set (ej := np.column vecs (third_index i k)) in *.
  destruct (cross_of_orthonormal ek ei ej Hkk Hii Hjj Hki Hjk Hji)
    as [Hnn Hsign].
  destruct (div_scalar_unit ei (norm ei) (norm_of_unit _ _ (Hnorm ei) Hii))
    as (wx & -> & Hwx).
  destruct (div_scalar_unit (np.cross ek ei) (norm (np.cross ek ei))
              (norm_of_unit _ _ (Hnorm _) Hnn))
    as (wy & -> & Hwy).
  eexists. split; [reflexivity|].
  unfold bounding_rectangle_area. rewrite !map_map. cbn [fst snd].
  set (fx := fun p => np.dot (np.sub p center) wx).
  set (fy := fun p => np.dot (np.sub p center) wy).
  set (gx := fun p => np.dot (np.sub p center) ei).
  set (gy := fun p => np.dot (np.sub p center) ej).
  assert (HX : np.amax (map fx pts) - np.amin (map fx pts)
               == np.amax (map gx pts) - np.amin (map gx pts)).
  { assert (E : forall p, fx p == gx p) by (intro p; apply dot_eq3; exact Hwx).
    rewrite (amax_ext fx gx pts E), (amin_ext fx gx pts E). reflexivity. }
  assert (HY : np.amax (map fy pts) - np.amin (map fy pts)
               == np.amax (map gy pts) - np.amin (map gy pts)).
  { destruct Hsign as [Hs | Hs].
    - assert (E : forall p, fy p == gy p).
      { intro p. unfold fy, gy.
        rewrite (dot_eq3 _ _ _ Hwy). apply dot_eq3. exact Hs. }
      rewrite (amax_ext fy gy pts E), (amin_ext fy gy pts E). reflexivity.
    - assert (E : forall p, fy p == - gy p).
      { intro p. unfold fy, gy.
        rewrite (dot_eq3 _ _ _ Hwy), (dot_eq3 _ _ _ Hs), dot_scale3. ring. }
      rewrite (amax_ext fy (fun p => - gy p) pts E),
              (amin_ext fy (fun p => - gy p) pts E).
      apply extent_opp. }
  rewrite HX, HY. apply Qabs_pos.
  apply Qmult_le_0_compat; apply extent_nonneg.
Qed.

(** The same for [bounding_box_area_xy], once three vertices are gathered. *)
Lemma bounding_box_area_xy_pca_rectangle props context :
  let verts := gather_verts_world (reference_objects props context) in
  let pts := map np.of_vector verts in
  let vals := fst (eig (vertex_covariance verts)) in
  let vecs := snd (eig (vertex_covariance verts)) in
  (3 <= List.length verts)%nat ->
  np.argmin vals <> np.argmax vals ->
  orthonormal_columns vecs ->
  (forall v, is_norm_of v (norm v)) ->
  exists a,
    bounding_box_area_xy eig norm props context = Finite a /\
    a == bounding_rectangle_area
           (np.mean pts)
           (np.column vecs (np.argmax vals))
           (np.column vecs (third_index (np.argmax vals) (np.argmin vals)))
           pts.
Proof.
  cbv zeta. intros Hlen Hne Horth Hnorm.
  rewrite (bounding_box_area_xy_projected eig norm props context Hlen).
  apply projected_area_pca_rectangle; assumption.
Qed.

End PrincipalAxes.

(** The flat room as the only wall: its two longest sides, 4 m by 2 m. *)
Example flat_room_area :
  exists a,
    bounding_box_area_xy eig_diagonal norm_axis_parallel
      (wall_props flat_room) (wall_context flat_room) = Finite a /\ a == 8.
Proof.
  eexists. split; [vm_compute; reflexivity|]. reflexivity.
Qed.

(* ================================================================== *)
(** * Further properties of the utility functions                      *)
(* ================================================================== *)

(** ** get_active_material_area *)

Lemma fold_Qplus_acc (l : list Q) :
  forall a, fold_left Qplus l a == a + fold_left Qplus l 0.
Proof.
  induction l as [|b l IH]; intro a; cbn.
  - ring.
  - rewrite (IH (a + b)), (IH (0 + b)). ring.
Qed.

Lemma py_sum_cons (a : Q) (l : list Q) : py_sum (a :: l) == a + py_sum l.
Proof.
  unfold py_sum. cbn. rewrite fold_Qplus_acc. ring.
Qed.

Lemma filtered_area_bounds (keep : Face -> bool) (l : list Face) :
  (forall f, In f l -> 0 <= calc_area f) ->
  0 <= py_sum (map calc_area (filter keep l)) /\
  py_sum (map calc_area (filter keep l)) <= py_sum (map calc_area l).
Proof.
  induction l as [|f l IH]; intro Hpos.
  - cbn. split; apply Qle_refl.
  - assert (Hf : 0 <= calc_area f) by (apply Hpos; left; reflexivity).
    destruct IH as [IH0 IH1]; [intros g Hg; apply Hpos; right; exact Hg|].
    cbn [filter map]. destruct (keep f); cbn [map];
      rewrite ?py_sum_cons; split; lra.
Qed.

Lemma filter_everything {A : Type} (l : list A) : filter (fun _ => true) l = l.
Proof.
  induction l as [|a l IH]; cbn; [reflexivity|]. rewrite IH. reflexivity.
Qed.

(** X1.  The area of the active material is between 0 and the area of the whole
    mesh, when no face has a negative area. *)
Theorem get_active_material_area_bounds (o : Object) :
  (forall f, In f (faces (data o)) -> 0 <= calc_area f) ->
  0 <= get_active_material_area (Some o) /\
  get_active_material_area (Some o) <= mesh_area o.
Proof.
  intro Hpos. unfold get_active_material_area, mesh_area.
  destruct (filtered_area_bounds
              (fun face => Z.eqb (material_index face) (active_material_index o))
              (faces (data o)) Hpos) as [H0 H1].
  destruct (negb (is_mesh o)); [|split; assumption].
  split; [apply Qle_refl|].
  destruct (filtered_area_bounds (fun _ => true) (faces (data o)) Hpos)
    as [H2 _].
  rewrite filter_everything in H2. exact H2.
Qed.

Lemma get_active_material_area_bounds_witness :
  (forall f, In f (faces (data default_cube)) -> 0 <= calc_area f) /\
  0 <= get_active_material_area (Some default_cube) /\
  get_active_material_area (Some default_cube) <= mesh_area default_cube.
Proof.
  assert (H : forall f, In f (faces (data default_cube)) -> 0 <= calc_area f).
  { intros f Hf. cbn in Hf.
    repeat (destruct Hf as [<- | Hf]; [intro E; discriminate E|]).
    destruct Hf. }
  split; [exact H|].
  exact (get_active_material_area_bounds default_cube H).
Defined.

Lemma no_face_in_slot (l : list Face) (slot : Z) :
  (forall f, In f l -> material_index f <> slot) ->
  filter (fun face => Z.eqb (material_index face) slot) l = [].
Proof.
  induction l as [|f l IH]; intro H; cbn; [reflexivity|].
  destruct (Z.eqb_spec (material_index f) slot) as [E | _].
  - exfalso. apply (H f); [left; reflexivity | exact E].
  - apply IH. intros g Hg. apply H. right; exact Hg.
Qed.

(** X2.  With [auto_area] on and no face in the active material slot,
    [material.calc_emission_strength] is cancelled for its area; the
    material is as it was, but the object has had its scale applied. *)
Theorem calc_emission_strength_no_face_in_slot
    (apply_scale : Object -> Object) (context : Context)
    (cob : ContextObject) (mat : Material) :
  object context = Some cob -> is_mesh (ob cob) = true ->
  active_material cob = Some mat ->
  auto_area (emission_props mat) = true ->
  (forall f, In f (faces (data (apply_scale (ob cob)))) ->
             material_index f <> active_material_index (apply_scale (ob cob))) ->
  calc_emission_strength apply_scale context
    = CANCELLED (Some (mkContextObject (apply_scale (ob cob)) (Some mat)))
                [("WARNING", "Invalid emission area")].
Proof.
  intros Hob Hmesh Hmat Hauto Hslot.
  unfold calc_emission_strength. rewrite Hob, Hmesh, Hmat, Hauto. cbn [negb].
  assert (E : get_active_material_area (Some (apply_scale (ob cob))) == 0).
  { unfold get_active_material_area.
    destruct (negb (is_mesh (apply_scale (ob cob)))); [reflexivity|].
    rewrite (no_face_in_slot _ _ Hslot). reflexivity. }
  assert (Hle : Qleb (get_active_material_area (Some (apply_scale (ob cob)))) 0
                = true).
  { apply Qleb_le. rewrite E. apply Qle_refl. }
  rewrite Hle. reflexivity.
Qed.

(** ** object_height *)

(** X3.  The height is never negative, and for a mesh it is zero exactly when
    all vertices have the same world-space z. *)
Theorem object_height_nonneg_zero_iff_flat (o : Object) :
  0 <= object_height (Some o) /\
  (is_mesh o = true ->
   (object_height (Some o) == 0 <->
    forall z1 z2, In z1 (world_zs o) -> In z2 (world_zs o) -> z1 == z2)).
Proof.
  destruct (is_mesh o) eqn:Hmesh.
  2:{ rewrite (object_height_not_mesh o Hmesh).
      split; [apply Qle_refl | discriminate]. }
  destruct (world_zs o) as [|a r] eqn:Hzs.
  { rewrite (object_height_no_vertices o Hzs).
    split; [apply Qle_refl|]. intros _. split; [|reflexivity].
    intros _ z1 z2 []. }
  assert (Hne : world_zs o <> []) by (rewrite Hzs; discriminate).
  destruct (object_height_extent o Hmesh Hne)
    as (hi & lo & Hhi & Hlo & Hb & ->).
  rewrite <- Hzs.
  assert (Hlohi : lo <= hi) by (apply (Hb hi Hhi)).
  split; [lra|]. intros _. split.
  - intros E z1 z2 H1 H2.
    destruct (Hb z1 H1) as [A1 B1]. destruct (Hb z2 H2) as [A2 B2]. lra.
  - intro Hall. rewrite (Hall hi lo Hhi Hlo). ring.
Qed.

Lemma Qmax_shift (a b t : Q) : Qmax (a + t) (b + t) == Qmax a b + t.
Proof.
  destruct (Q.max_spec (a + t) (b + t)) as [[H ->] | [H ->]];
    destruct (Q.max_spec a b) as [[H' ->] | [H' ->]]; lra.
Qed.

Lemma Qmin_shift (a b t : Q) : Qmin (a + t) (b + t) == Qmin a b + t.
Proof.
  destruct (Q.min_spec (a + t) (b + t)) as [[H ->] | [H ->]];
    destruct (Q.min_spec a b) as [[H' ->] | [H' ->]]; lra.
Qed.

Lemma fold_Qmax_shift {A : Type} (f g : A -> Q) (t : Q) (l : list A) :
  (forall p, g p == f p + t) ->
  forall a b, b == a + t ->
  fold_left Qmax (map g l) b == fold_left Qmax (map f l) a + t.
Proof.
  intro Hg. induction l as [|p l IH]; intros a b Hab; cbn.
  - exact Hab.
  - apply IH. rewrite Hab, (Hg p). apply Qmax_shift.
Qed.

Lemma fold_Qmin_shift {A : Type} (f g : A -> Q) (t : Q) (l : list A) :
  (forall p, g p == f p + t) ->
  forall a b, b == a + t ->
  fold_left Qmin (map g l) b == fold_left Qmin (map f l) a + t.
Proof.
  intro Hg. induction l as [|p l IH]; intros a b Hab; cbn.
  - exact Hab.
  - apply IH. rewrite Hab, (Hg p). apply Qmin_shift.
Qed.

(** X4.  The height does not depend on where the object stands: moving it
    leaves [object_height] as it is. *)
Theorem object_height_translated (t : mathutils.Vector) (o : Object) :
  object_height (Some (translated t o)) == object_height (Some o).
Proof.
  unfold object_height.
  change (is_mesh (translated t o)) with (is_mesh o).
  destruct (negb (is_mesh o)); [reflexivity|].
  unfold world_zs. change (vertices (data (translated t o))) with (vertices (data o)).
  set (f := fun co => mathutils.z (matrix_world o @ co)).
  set (g := fun co => mathutils.z (matrix_world (translated t o) @ co)).
  assert (Hg : forall co, g co == f co + mathutils.z t).
  { intro co. unfold g, f, translated, mathutils.matmul. cbn.
    destruct (mathutils.row2 (matrix_world o)) as [[[a b] c] d].
    cbn. ring. }
  destruct (vertices (data o)) as [|v r]; [reflexivity|].
  cbn [map py_max py_min].
  rewrite (fold_Qmax_shift f g (mathutils.z t) r Hg (f v) (g v) (Hg v)).
  rewrite (fold_Qmin_shift f g (mathutils.z t) r Hg (f v) (g v) (Hg v)).
  ring.
Qed.

(** X5.  The property callback and the operator's own height update are the
    same function: the callback's extra mesh test changes nothing, since an
    object that is not a mesh has height 0. *)
Theorem update_height_from_object_is_update_room_height
    (p : MaterialEmissionProperties) :
  update_height_from_object p = update_room_height p.
Proof.
  unfold update_height_from_object, update_room_height.
  destruct (height_source p); [reflexivity|].
  destruct (height_object p) as [o|]; [|reflexivity].
  destruct (is_mesh o) eqn:Hmesh; [reflexivity|].
  rewrite (object_height_not_mesh o Hmesh). reflexivity.
Qed.

(** ** The height factor *)

(** X6.  A taller room never gets a smaller factor. *)
Theorem h_factor_monotone (h1 h2 : Q) :
  h1 <= h2 -> h_factor h1 <= h_factor h2.
Proof.
  intro H. unfold h_factor.
  destruct (Q.max_spec 0 (h1 * (328 # 100) - 10)) as [[A ->] | [A ->]];
    destruct (Q.max_spec 0 (h2 * (328 # 100) - 10)) as [[B ->] | [B ->]]; lra.
Qed.

Lemma h_factor_monotone_witness :
  (27 # 10) <= 4 /\ h_factor (27 # 10) <= h_factor 4.
Proof.
  assert (H : (27 # 10) <= 4) by (intro E; discriminate E).
  split; [exact H|]. exact (h_factor_monotone _ _ H).
Defined.

Lemma calc_emission_strength_no_face_in_slot_witness :
  (forall f, In f (faces (data second_slot_cube)) ->
             material_index f <> active_material_index second_slot_cube) /\
  calc_emission_strength (fun o => o) (context_of second_slot_cube default_props)
    = CANCELLED (Some (mkContextObject second_slot_cube
                         (Some (mkMaterial default_props false []))))
                [("WARNING", "Invalid emission area")].
Proof.
  assert (H : forall f, In f (faces (data second_slot_cube)) ->
                material_index f <> active_material_index second_slot_cube).
  { intros f Hf. cbn in Hf.
    repeat (destruct Hf as [<- | Hf]; [discriminate|]). destruct Hf. }
  split; [exact H|].
  exact (calc_emission_strength_no_face_in_slot
           (fun o => o) (context_of second_slot_cube default_props)
           (mkContextObject second_slot_cube
              (Some (mkMaterial default_props false [])))
           (mkMaterial default_props false [])
           eq_refl eq_refl eq_refl eq_refl H).
Defined.

(** ** bounding_box_area_xy: sign and early returns *)

Lemma Finite_inj (q r : Q) : Finite q = Finite r -> q = r.
Proof. intro H. injection H as H. exact H. Qed.

Lemma gather_verts_world_length (objects : list Object) :
  List.length (gather_verts_world objects) = mesh_vertex_count objects.
Proof.
  unfold gather_verts_world, mesh_vertex_count.
  induction objects as [|o r IH]; cbn; [reflexivity|].
  rewrite List.length_app, IH.
  destruct (is_mesh o); [rewrite List.length_map|]; reflexivity.
Qed.

Section BoundingBoxFurther.

Variable eig : np.array33 -> np.array3 * np.array33.
Variable norm : np.array3 -> Q.

(** X7.  A finite result is never negative. *)
Theorem bounding_box_area_xy_nonneg props context (a : Q) :
  bounding_box_area_xy eig norm props context = Finite a -> 0 <= a.
Proof.
  unfold bounding_box_area_xy.
  destruct (reference_objects props context) as [|o r].
  { intro H. injection H as <-. apply Qle_refl. }
  destruct (List.length (gather_verts_world (o :: r)) <? 3)%nat.
  { intro H. injection H as <-. apply Qle_refl. }
  unfold projected_area.
  destruct (eig _) as [vals vecs].
  destruct (np.div_scalar _ _) as [ax|]; [|discriminate].
  destruct (np.div_scalar _ _) as [ay|]; [|discriminate].
  intro H. apply Finite_inj in H. rewrite <- H. apply Qabs_nonneg.
Qed.

(** X8.  When the meshes among the reference objects have fewer than three
    vertices in total, and so also when there is no reference object, the
    result is 0. *)
Theorem bounding_box_area_xy_zero_below_three_vertices props context :
  (mesh_vertex_count (reference_objects props context) < 3)%nat ->
  bounding_box_area_xy eig norm props context = Finite 0.
Proof.
  intro H. apply bounding_box_area_xy_few_vertices.
  rewrite gather_verts_world_length. exact H.
Qed.

(** X9.  A wall that is set takes the place of the active object even when it
    is not a mesh: with only non-mesh walls the result is 0, whatever the
    active object is. *)
Theorem bounding_box_area_xy_non_mesh_walls props context :
  wall_a props <> None \/ wall_b props <> None ->
  (forall w, wall_a props = Some w -> is_mesh w = false) ->
  (forall w, wall_b props = Some w -> is_mesh w = false) ->
  bounding_box_area_xy eig norm props context = Finite 0.
Proof.
  intros Hset Ha Hb. apply bounding_box_area_xy_few_vertices.
  rewrite gather_verts_world_length,
          (reference_objects_walls props context Hset).
  unfold mesh_vertex_count.
  destruct (wall_a props) as [a|], (wall_b props) as [b|]; cbn;
    rewrite ?(Ha a eq_refl), ?(Hb b eq_refl); cbn; lia.
Qed.

(** The result depends on the property group through its two walls only,
    and on the context through its active object only. *)
Lemma bounding_box_area_xy_same_references p q c d :
  wall_a p = wall_a q -> wall_b p = wall_b q ->
  active_object c = active_object d ->
  bounding_box_area_xy eig norm p c = bounding_box_area_xy eig norm q d.
Proof.
  intros Ha Hb Hc. unfold bounding_box_area_xy, reference_objects.
  rewrite Ha, Hb, Hc. reflexivity.
Qed.

End BoundingBoxFurther.

Lemma bounding_box_area_xy_nonneg_witness :
  exists a,
    bounding_box_area_xy eig_diagonal norm_axis_parallel
      (wall_props flat_room) (wall_context flat_room) = Finite a /\
    0 <= a.
Proof.
  eexists. split; [vm_compute; reflexivity|].
  eapply (bounding_box_area_xy_nonneg eig_diagonal norm_axis_parallel
            (wall_props flat_room) (wall_context flat_room)).
  vm_compute. reflexivity.
Defined.

Lemma bounding_box_area_xy_zero_below_three_vertices_witness :
  (mesh_vertex_count
     (reference_objects no_reference_props no_reference_context) < 3)%nat /\
  bounding_box_area_xy eig_diagonal norm_axis_parallel
    no_reference_props no_reference_context = Finite 0.
Proof.
  assert (H : (mesh_vertex_count
                 (reference_objects no_reference_props no_reference_context)
               < 3)%nat) by (vm_compute; lia).
  split; [exact H|].
  exact (bounding_box_area_xy_zero_below_three_vertices
           eig_diagonal norm_axis_parallel
           no_reference_props no_reference_context H).
Defined.

Lemma bounding_box_area_xy_non_mesh_walls_witness :
  active_object camera_wall_context = Some flat_room /\
  is_mesh flat_room = true /\
  bounding_box_area_xy eig_diagonal norm_axis_parallel
    (wall_props camera) camera_wall_context = Finite 0.
Proof.
  split; [reflexivity|]. split; [reflexivity|].
  apply (bounding_box_area_xy_non_mesh_walls eig_diagonal norm_axis_parallel
           (wall_props camera) camera_wall_context).
  - left. discriminate.
  - intros w H. injection H as <-. reflexivity.
  - intros w H. discriminate H.
Defined.
(** ** bounding_box_area_xy: the dominant plane *)

Section DominantPlane.

Variable eig : np.array33 -> np.array3 * np.array33.
Variable norm : np.array3 -> Q.

(** X10.  With three or more vertices, orthonormal eigenvectors, the extreme
    eigenvalues at two different indices and the Euclidean norm of the
    two axes it normalises, [bounding_box_area_xy] returns the area of the
    rectangle that bounds the vertices in the coordinates of the dominant
    eigenvector and of the eigenvector that is neither dominant nor the
    normal. *)
Theorem bounding_box_area_xy_dominant_plane props context :
  let verts := gather_verts_world (reference_objects props context) in
  let pts := map np.of_vector verts in
  let vals := fst (eig (vertex_covariance verts)) in
  let vecs := snd (eig (vertex_covariance verts)) in
  let normal := np.column vecs (np.argmin vals) in
  let axis_x := np.column vecs (np.argmax vals) in
  (3 <= List.length verts)%nat ->
  np.argmin vals <> np.argmax vals ->
  orthonormal_columns vecs ->
  is_norm_of axis_x (norm axis_x) ->
  is_norm_of (np.cross normal axis_x) (norm (np.cross normal axis_x)) ->
  exists a,
    bounding_box_area_xy eig norm props context = Finite a /\
    a == bounding_rectangle_area
           (np.mean pts) axis_x
           (np.column vecs (third_index (np.argmax vals) (np.argmin vals)))
           pts.
Proof.
  cbv zeta. intros Hlen.
  rewrite (bounding_box_area_xy_projected eig norm props context Hlen).
  generalize (gather_verts_world (reference_objects props context)).
  clear Hlen. intro verts.
  unfold projected_area. fold (vertex_covariance verts).
  destruct (eig (vertex_covariance verts)) as [vals vecs]. cbn [fst snd].
  intros Hne Horth Hnx Hny.
  set (pts := map np.of_vector verts).
  set (center := np.mean pts).
  set (k := np.argmin vals) in *. set (i := np.argmax vals) in *.
  destruct (orthonormal_triple vecs i k Horth (argmax_lt_3 vals)
              (argmin_lt_3 vals) Hne)
    as (Hkk & Hii & Hjj & Hki & Hjk & Hji).
  set (ek := np.column vecs k) in *. set (ei := np.column vecs i) in *.
  set (ej := np.column vecs (third_index i k)) in *.
  destruct (cross_of_orthonormal ek ei ej Hkk Hii Hjj Hki Hjk Hji)
    as [Hnn Hsign].
  destruct (div_scalar_unit ei (norm ei) (norm_of_unit _ _ Hnx Hii))
    as (wx & -> & Hwx).
  destruct (div_scalar_unit (np.cross ek ei) (norm (np.cross ek ei))
              (norm_of_unit _ _ Hny Hnn))
    as (wy & -> & Hwy).
  eexists. split; [reflexivity|].
  unfold bounding_rectangle_area. rewrite !map_map. cbn [fst snd].
  set (fx := fun p => np.dot (np.sub p center) wx).
  set (fy := fun p => np.dot (np.sub p center) wy).
  set (gx := fun p => np.dot (np.sub p center) ei).
  set (gy := fun p => np.dot (np.sub p center) ej).
  assert (HX : np.amax (map fx pts) - np.amin (map fx pts)
               == np.amax (map gx pts) - np.amin (map gx pts)).
  { assert (E : forall p, fx p == gx p) by (intro p; apply dot_eq3; exact Hwx).
    rewrite (amax_ext fx gx pts E), (amin_ext fx gx pts E). reflexivity. }
  assert (HY : np.amax (map fy pts) - np.amin (map fy pts)
               == np.amax (map gy pts) - np.amin (map gy pts)).
  { destruct Hsign as [Hs | Hs].
    - assert (E : forall p, fy p == gy p).
      { intro p. unfold fy, gy.
        rewrite (dot_eq3 _ _ _ Hwy). apply dot_eq3. exact Hs. }
      rewrite (amax_ext fy gy pts E), (amin_ext fy gy pts E). reflexivity.
    - assert (E : forall p, fy p == - gy p).
      { intro p. unfold fy, gy.
        rewrite (dot_eq3 _ _ _ Hwy), (dot_eq3 _ _ _ Hs), dot_scale3. ring. }
      rewrite (amax_ext fy (fun p => - gy p) pts E),
              (amin_ext fy (fun p => - gy p) pts E).
      apply extent_opp. }
  rewrite HX, HY. apply Qabs_pos.
  apply Qmult_le_0_compat; apply extent_nonneg.
Qed.

End DominantPlane.

Lemma bounding_box_area_xy_dominant_plane_witness :
  exists a,
    bounding_box_area_xy eig_diagonal norm_axis_parallel
      (wall_props flat_room) (wall_context flat_room) = Finite a /\
    a == 8.
Proof.
  destruct (bounding_box_area_xy_dominant_plane
              eig_diagonal norm_axis_parallel
              (wall_props flat_room) (wall_context flat_room))
    as (a & Ha & _).
  - vm_compute. lia.
  - vm_compute. discriminate.
  - vm_compute. repeat split; reflexivity.
  - vm_compute. split; [discriminate | reflexivity].
  - vm_compute. split; [discriminate | reflexivity].
  - exists a. split; [exact Ha|].
    vm_compute in Ha. apply Finite_inj in Ha. rewrite <- Ha. reflexivity.
Defined.

(** ** material.calc_room_lumens and material.use_lumens together *)

Lemma update_room_height_idempotent (p : MaterialEmissionProperties) :
  update_room_height (update_room_height p) = update_room_height p.
Proof.
  unfold update_room_height.
  destruct (height_source p) eqn:Hs; [rewrite Hs; reflexivity|].
  destruct (height_object p) as [o|] eqn:Ho; [|rewrite Hs, Ho; reflexivity].
  destruct (Qltb 0 (object_height (Some o))) eqn:Hh;
    cbn [height_source height_object set_room_height];
    rewrite Hs, Ho, Hh; reflexivity.
Qed.

Ltac commute_height_update p :=
  destruct (height_source p); [reflexivity|];
  destruct (height_object p); [|reflexivity];
  destruct (Qltb 0 _); reflexivity.

Lemma update_room_height_set_lumens_min (v : npfloat) (p : MaterialEmissionProperties) :
  update_room_height (set_lumens_min v p) = set_lumens_min v (update_room_height p).
Proof.
  unfold update_room_height.
  change (height_source (set_lumens_min v p)) with (height_source p).
  change (height_object (set_lumens_min v p)) with (height_object p).
  commute_height_update p.
Qed.

Lemma update_room_height_set_lumens_avg (v : npfloat) (p : MaterialEmissionProperties) :
  update_room_height (set_lumens_avg v p) = set_lumens_avg v (update_room_height p).
Proof.
  unfold update_room_height.
  change (height_source (set_lumens_avg v p)) with (height_source p).
  change (height_object (set_lumens_avg v p)) with (height_object p).
  commute_height_update p.
Qed.

Lemma update_room_height_set_lumens_max (v : npfloat) (p : MaterialEmissionProperties) :
  update_room_height (set_lumens_max v p) = set_lumens_max v (update_room_height p).
Proof.
  unfold update_room_height.
  change (height_source (set_lumens_max v p)) with (height_source p).
  change (height_object (set_lumens_max v p)) with (height_object p).
  commute_height_update p.
Qed.

Lemma update_room_height_set_temps (t : Z * Z * Z) (p : MaterialEmissionProperties) :
  update_room_height (set_temps t p) = set_temps t (update_room_height p).
Proof.
  destruct t as [[t0 t1] t2].
  unfold update_room_height.
  change (height_source (set_temps (t0, t1, t2) p)) with (height_source p).
  change (height_object (set_temps (t0, t1, t2) p)) with (height_object p).
  commute_height_update p.
Qed.

Lemma update_room_height_set_room_area (a : npfloat) (p : MaterialEmissionProperties) :
  update_room_height (set_room_area a p) = set_room_area a (update_room_height p).
Proof.
  unfold update_room_height.
  change (height_source (set_room_area a p)) with (height_source p).
  change (height_object (set_room_area a p)) with (height_object p).
  commute_height_update p.
Qed.

(** The state a finished run leaves is a fixed point of the body. *)
Lemma room_lumens_body_fixed (p : MaterialEmissionProperties) (lux temp : Z * Z * Z) :
  dict_get lux_table (room_type_id (room_type p)) = Some lux ->
  dict_get temp_k_table (room_type_id (room_type p)) = Some temp ->
  room_lumens_body (room_lumens_result p lux temp)
    = FINISHED (room_lumens_result p lux temp) [].
Proof.
  intros Hl Ht.
  destruct (room_lumens_body_finishes (room_lumens_result p lux temp))
    as (lux' & temp' & Hl' & Ht' & Hb).
  destruct lux as [[l0 l1] l2], temp as [[t0 t1] t2].
  destruct (room_lumens_result_fields p l0 l1 l2 t0 t1 t2)
    as (_ & _ & Hty & _).
  cbv zeta in Hty. rewrite Hty, Hl in Hl'. rewrite Hty, Ht in Ht'.
  injection Hl' as <-. injection Ht' as <-.
  rewrite Hb. f_equal.
  unfold room_lumens_result at 1.
  assert (Hfix : update_room_height
                   (room_lumens_result p (l0, l1, l2) (t0, t1, t2))
                 = room_lumens_result p (l0, l1, l2) (t0, t1, t2)).
  { unfold room_lumens_result.
    rewrite update_room_height_set_temps, update_room_height_set_lumens_max,
            update_room_height_set_lumens_avg, update_room_height_set_lumens_min,
            update_room_height_idempotent.
    reflexivity. }
  rewrite Hfix. unfold room_lumens_result.
  generalize (update_room_height p). intro p2. reflexivity.
Qed.

Lemma update_room_height_keeps_references (p : MaterialEmissionProperties) :
  room_area_source (update_room_height p) = room_area_source p /\
  wall_a (update_room_height p) = wall_a p /\
  wall_b (update_room_height p) = wall_b p.
Proof.
  unfold update_room_height.
  destruct (height_source p); [repeat split|].
  destruct (height_object p) as [o|]; [|repeat split].
  destruct (Qltb 0 (object_height (Some o))); repeat split.
Qed.

Lemma room_lumens_result_keeps_references
    (p : MaterialEmissionProperties) (lux temp : Z * Z * Z) :
  room_area_source (room_lumens_result p lux temp) = room_area_source p /\
  wall_a (room_lumens_result p lux temp) = wall_a p /\
  wall_b (room_lumens_result p lux temp) = wall_b p.
Proof.
  destruct lux as [[l0 l1] l2], temp as [[t0 t1] t2].
  destruct (update_room_height_keeps_references p) as (H1 & H2 & H3).
  unfold room_lumens_result. cbn. rewrite H1, H2, H3. repeat split.
Qed.

Lemma set_room_area_past_outputs
    (a v0 v1 v2 : npfloat) (t : Z * Z * Z) (p : MaterialEmissionProperties) :
  set_room_area a (set_temps t (set_lumens_max v2 (set_lumens_avg v1
                                  (set_lumens_min v0 p))))
  = set_temps t (set_lumens_max v2 (set_lumens_avg v1
                   (set_lumens_min v0 (set_room_area a p)))).
Proof.
  destruct t as [[t0 t1] t2]. destruct p. reflexivity.
Qed.

Lemma set_room_area_twice (a : npfloat) (p : MaterialEmissionProperties) :
  set_room_area a (set_room_area a p) = set_room_area a p.
Proof.
  destruct p. reflexivity.
Qed.

Lemma set_room_area_room_lumens_result
    (a : npfloat) (p : MaterialEmissionProperties) (lux temp : Z * Z * Z) :
  set_room_area a (room_lumens_result (set_room_area a p) lux temp)
  = room_lumens_result (set_room_area a p) lux temp.
Proof.
  destruct lux as [[l0 l1] l2].
  unfold room_lumens_result. rewrite update_room_height_set_room_area.
  rewrite set_room_area_past_outputs, set_room_area_twice. reflexivity.
Qed.

Section RoomLumensFurther.

Variable eig : np.array33 -> np.array3 * np.array33.
Variable norm : np.array3 -> Q.

(** X11.  The only exception [material.calc_room_lumens] raises is the
    AttributeError of a context without object or without active material:
    the two table lookups never fail. *)
Theorem calc_room_lumens_raises_iff context (exn : string) :
  calc_room_lumens eig norm context = RAISED exn <->
  exn = "AttributeError" /\
  (object context = None \/
   exists cob, object context = Some cob /\ active_material cob = None).
Proof.
  unfold calc_room_lumens.
  assert (Hbody : forall p, room_lumens_body p <> RAISED exn).
  { intros p Hp.
    destruct (room_lumens_body_finishes p) as (lux & temp & _ & _ & Hb).
    rewrite Hb in Hp. discriminate Hp. }
  destruct (object context) as [cob|].
  2:{ split.
      - intro H. injection H as <-. split; [reflexivity | left; reflexivity].
      - intros [-> _]. reflexivity. }
  destruct (active_material cob) as [mat|] eqn:Hmat.
  2:{ split.
      - intro H. injection H as <-. split; [reflexivity|].
        right. exists cob. split; [reflexivity | exact Hmat].
      - intros [-> _]. reflexivity. }
  split.
  - intro H. exfalso.
    destruct (room_area_source (emission_props mat)).
    + exact (Hbody _ H).
    + cbv zeta in H.
      destruct (fleb (bounding_box_area_xy eig norm (emission_props mat) context)
                     0); [discriminate | exact (Hbody _ H)].
  - intros [_ [H | (cob' & H & Hnone)]]; [discriminate|].
    injection H as <-. rewrite Hmat in Hnone. discriminate.
Qed.

(** X12.  Running [material.calc_room_lumens] again, with nothing else changed,
    finishes in the same state. *)
Theorem calc_room_lumens_idempotent context p' log :
  calc_room_lumens eig norm context = FINISHED p' log ->
  calc_room_lumens eig norm (with_emission_props p' context)
    = FINISHED p' log.
Proof.
  intro H.
  destruct (calc_room_lumens_finished_inv eig norm _ _ _ H)
    as (cob & mat & p1 & Hob & Hmat & Hb & Hguard).
  destruct (room_lumens_body_finishes p1) as (lux & temp & Hl & Ht & Hfin).
  rewrite Hfin in Hb. injection Hb as <- <-.
  pose proof (room_lumens_body_fixed p1 lux temp Hl Ht) as Hfix.
  destruct (room_lumens_result_keeps_references p1 lux temp)
    as (Hsrc' & Hwa & Hwb).
  unfold calc_room_lumens, with_emission_props. rewrite Hob, Hmat.
  cbn [object active_material emission_props ob].
  rewrite Hsrc'.
  cbv zeta in Hguard.
  destruct Hguard as [[Hsrc ->] | [Hsrc (a & Hbb & Ha & ->)]].
  - rewrite Hsrc. exact Hfix.
  - change (room_area_source (set_room_area a (emission_props mat)))
      with (room_area_source (emission_props mat)).
    rewrite Hsrc.
    rewrite (bounding_box_area_xy_same_references eig norm
               (room_lumens_result (set_room_area a (emission_props mat)) lux temp)
               (emission_props mat)
               (mkContext
                  (Some (mkContextObject (ob cob)
                           (Some (mkMaterial
                                    (room_lumens_result
                                       (set_room_area a (emission_props mat))
                                       lux temp)
                                    (use_nodes mat) (nodes mat)))))
                  (active_object context))
               context Hwa Hwb eq_refl).
    rewrite Hbb, Ha.
    rewrite set_room_area_room_lumens_result. exact Hfix.
Qed.

(** X13.  After a finished run on properties inside their declared ranges,
    [material.use_lumens] copies the chosen recommendation into [lumens] as
    it is, leaving the recommendations as they are and the properties
    inside their ranges.  The value copied is positive when the stored
    [room_area] is a number, and nan when it is nan. *)
Theorem use_lumens_after_calc_room_lumens
    context cob mat p' log (mode : LumensMode) :
  object context = Some cob -> active_material cob = Some mat ->
  in_declared_range (emission_props mat) ->
  calc_room_lumens eig norm context = FINISHED p' log ->
  exists p'',
    use_lumens mode (with_emission_props p' context) = FINISHED p'' [] /\
    lumens p'' = match mode with
                 | MIN => lumens_min p'
                 | AVG => lumens_avg p'
                 | MAX => lumens_max p'
                 end /\
    ((exists a : Q, room_area p' = Finite a) -> (0 < lumens p'')%float) /\
    (room_area p' = NonFinite -> lumens p'' = NonFinite) /\
    lumens_min p'' = lumens_min p' /\ lumens_avg p'' = lumens_avg p' /\
    lumens_max p'' = lumens_max p' /\
    in_declared_range p''.
Proof.
  intros Hob Hmat Hrange H.
  assert (Hstep1 : step (emission_props mat) p').
  { exact (step_calc_room_lumens_finished eig norm context cob mat p' log
             Hob Hmat H). }
  pose proof (step_in_declared_range _ _ Hstep1 Hrange) as Hrange'.
  destruct (calc_room_lumens_finished_fields eig norm context p' log H)
    as (cob' & mat' & p1 & l0 & l1 & l2 & t0 & t1 & t2 & _ & _ & _ &
        Hl & _ & _ & _ & _ & Hmin & Havg & Hmax & _).
  destruct (lux_rows_ordered _ _ _ _ Hl) as (Hl0 & Hl01 & Hl12).
  set (chosen := match mode with
                 | MIN => lumens_min p'
                 | AVG => lumens_avg p'
                 | MAX => lumens_max p'
                 end).
  assert (Hchosen : exists u : Z,
            (0 < u)%Z /\
            chosen = (inject_Z u * room_area p' * h_factor (room_height p'))%float).
  { unfold chosen.
    destruct mode; [exists l0 | exists l1 | exists l2];
      (split; [lia | assumption]). }
  destruct Hchosen as (u & Hu & Hc).
  destruct Hrange' as (R1 & R2 & R3 & R4 & R5 & R6).
  assert (Hq : 0 < inject_Z u)
    by (change 0 with (inject_Z 0); rewrite <- Zlt_Qlt; exact Hu).
  pose proof (h_factor_ge_1 (room_height p')) as Hhf.
  assert (Hnumber : forall a : Q, room_area p' = Finite a ->
            0 < inject_Z u * a * h_factor (room_height p')).
  { intros a Ea. rewrite Ea in R5. cbn [not_below] in R5.
    apply Qmult_lt_0_compat; [apply Qmult_lt_0_compat|]; lra. }
  assert (Hstored : assign_float lumens_decl chosen = chosen).
  { rewrite Hc. destruct (room_area p') as [a|] eqn:Ea; cbn [fmul].
    - apply (assign_float_in_range 850 0). cbn [not_below].
      apply Qlt_le_weak. apply Hnumber. reflexivity.
    - apply assign_float_nan. }
  unfold use_lumens, with_emission_props. rewrite Hob, Hmat.
  cbn [object active_material emission_props].
  eexists. split; [reflexivity|].
  unfold in_declared_range.
  cbn [lumens ler area num_lights room_area room_height
       set_lumens lumens_min lumens_avg lumens_max].
  fold chosen. rewrite Hstored.
  split; [reflexivity|].
  split.
  { intros [a Ea]. rewrite Hc, Ea. cbn [fmul flt]. apply Hnumber. exact Ea. }
  split.
  { intro Ea. rewrite Hc, Ea. reflexivity. }
  repeat split; try assumption.
  rewrite <- Hstored. apply (assign_float_not_below 850 0).
Qed.

End RoomLumensFurther.

Lemma calc_room_lumens_idempotent_witness :
  exists p' log,
    calc_room_lumens eig_diagonal norm_axis_parallel
      (wall_context flat_room) = FINISHED p' log /\
    calc_room_lumens eig_diagonal norm_axis_parallel
      (with_emission_props p' (wall_context flat_room)) = FINISHED p' log.
Proof.
  eexists. eexists. split; [vm_compute; reflexivity|].
  apply (calc_room_lumens_idempotent eig_diagonal norm_axis_parallel
           (wall_context flat_room)).
  vm_compute. reflexivity.
Defined.

Lemma use_lumens_after_calc_room_lumens_witness :
  exists p' log p'',
    calc_room_lumens eig_diagonal norm_axis_parallel default_context
      = FINISHED p' log /\
    use_lumens AVG (with_emission_props p' default_context) = FINISHED p'' [] /\
    lumens p'' = lumens_avg p' /\ (0 < lumens p'')%float.
Proof.
  destruct (use_lumens_after_calc_room_lumens
              eig_diagonal norm_axis_parallel default_context
              (mkContextObject default_cube
                 (Some (mkMaterial default_props false [])))
              (mkMaterial default_props false [])
              (room_lumens_result default_props (100, 150, 200)%Z
                                  (2700, 3000, 3500)%Z)
              [] AVG eq_refl eq_refl default_props_in_declared_range eq_refl)
    as (p'' & Hu & Hl & Hpos & _).
  exists (room_lumens_result default_props (100, 150, 200)%Z (2700, 3000, 3500)%Z),
         [], p''.
  split; [reflexivity|]. split; [exact Hu|]. split; [exact Hl|].
  apply Hpos. exists 20. reflexivity.
Defined.

(** ** The node update of material.calc_emission_strength *)

Lemma find_index_nth (f : Node -> bool) (l : list Node) :
  forall i, find_index f l = Some i ->
  exists n, nth_error l i = Some n /\ f n = true.
Proof.
  induction l as [|a l IH]; intros i H; cbn in H; [discriminate|].
  destruct (f a) eqn:Ha.
  - injection H as <-. exists a. split; [reflexivity | exact Ha].
  - destruct (find_index f l) as [k|]; [|discriminate].
    injection H as <-. exact (IH k eq_refl).
Qed.

Lemma find_index_update_at (f : Node -> bool) (g : Node -> Node) :
  (forall n, f (g n) = f n) ->
  forall l j, find_index f (update_at j g l) = find_index f l.
Proof.
  intro Hg. induction l as [|a l IH]; intro j; [destruct j; reflexivity|].
  destruct j as [|j]; cbn.
  - rewrite Hg. reflexivity.
  - rewrite IH. reflexivity.
Qed.

Lemma find_index_app_some (f : Node -> bool) (l r : list Node) (i : nat) :
  find_index f l = Some i -> find_index f (l ++ r) = Some i.
Proof.
  revert i. induction l as [|a l IH]; intros i H; cbn in *; [discriminate|].
  destruct (f a); [exact H|].
  destruct (find_index f l) as [k|]; [|discriminate].
  rewrite (IH k eq_refl). exact H.
Qed.

Lemma find_index_app_none (f : Node -> bool) (l : list Node) (n : Node) :
  find_index f l = None -> f n = true ->
  find_index f (l ++ [n]) = Some (List.length l).
Proof.
  induction l as [|a l IH]; intros H Hn; cbn in *.
  - rewrite Hn. reflexivity.
  - destruct (f a); [discriminate|].
    destruct (find_index f l); [discriminate|].
    rewrite (IH eq_refl Hn). reflexivity.
Qed.

Lemma length_update_at (g : Node -> Node) (l : list Node) :
  forall j, List.length (update_at j g l) = List.length l.
Proof.
  induction l as [|a l IH]; intro j; [destruct j; reflexivity|].
  destruct j; cbn; [|rewrite IH]; reflexivity.
Qed.

Lemma nth_error_update_at_same (g : Node -> Node) (l : list Node) :
  forall j n, nth_error l j = Some n ->
  nth_error (update_at j g l) j = Some (g n).
Proof.
  induction l as [|a l IH]; intros j n H; destruct j; cbn in *;
    try discriminate.
  - injection H as <-. reflexivity.
  - exact (IH j n H).
Qed.

Lemma nth_error_update_at_other (g : Node -> Node) (l : list Node) :
  forall i j, i <> j -> nth_error (update_at j g l) i = nth_error l i.
Proof.
  induction l as [|a l IH]; intros i j Hij; destruct j, i; cbn;
    try reflexivity.
  - contradiction Hij; reflexivity.
  - apply IH. intro E. apply Hij. rewrite E. reflexivity.
Qed.

Lemma filter_update_at_length (f : Node -> bool) (g : Node -> Node) :
  (forall n, f (g n) = f n) ->
  forall l j, List.length (filter f (update_at j g l)) = List.length (filter f l).
Proof.
  intro Hg. induction l as [|a l IH]; intro j; [destruct j; reflexivity|].
  destruct j as [|j]; cbn.
  - rewrite Hg. destruct (f a); reflexivity.
  - destruct (f a); cbn; rewrite IH; reflexivity.
Qed.

(** The result of the update when the surface is fed by a Principled
    BSDF: the strength is written into that node. *)
Lemma update_material_nodes_principled (s : npfloat) (nodes0 : list Node) :
  surface_is_principled nodes0 = true ->
  exists i out j n,
    find_index (has_type "OUTPUT_MATERIAL") nodes0 = Some i /\
    nth_error nodes0 i = Some out /\ surface_from out = Some j /\
    nth_error nodes0 j = Some n /\ has_type "BSDF_PRINCIPLED" n = true /\
    i <> j /\
    update_material_nodes s nodes0 = update_at j (with_strength s) nodes0.
Proof.
  unfold surface_is_principled, surface_node, update_material_nodes.
  destruct (find_index (has_type "OUTPUT_MATERIAL") nodes0) as [i|] eqn:Hf;
    [|discriminate].
  destruct (find_index_nth _ _ _ Hf) as (out & Hnth & Hout).
  rewrite Hnth, (nth_error_nth _ _ new_output_node Hnth).
  destruct (surface_from out) as [j|] eqn:Hsf; [|discriminate].
  destruct (nth_error nodes0 j) as [n|] eqn:Hj; [|discriminate].
  intro Hp. cbn [option_map]. rewrite Hp.
  exists i, out, j, n. repeat split; try assumption.
  intro E. subst j. rewrite Hnth in Hj. injection Hj as <-.
  unfold has_type in Hout, Hp.
  apply String.eqb_eq in Hout. rewrite Hout in Hp. discriminate Hp.
Qed.

(** The result of the update otherwise: an output node is added when
    there is none, and a new Emission shader is appended and linked into
    the first output node. *)
Lemma update_material_nodes_emission (s : npfloat) (nodes0 : list Node) :
  surface_is_principled nodes0 = false ->
  exists nodes1 i out,
    nodes1 = (if has_output nodes0 then nodes0 else nodes0 ++ [new_output_node]) /\
    find_index (has_type "OUTPUT_MATERIAL") nodes1 = Some i /\
    nth_error nodes1 i = Some out /\
    update_material_nodes s nodes0
      = update_at i (with_surface_from (List.length nodes1)) nodes1
        ++ [mkNode "EMISSION" (fst (location out) - 300, snd (location out))
                   s None].
Proof.
  unfold surface_is_principled, surface_node, update_material_nodes, has_output.
  destruct (find_index (has_type "OUTPUT_MATERIAL") nodes0) as [i|] eqn:Hf.
  - destruct (find_index_nth _ _ _ Hf) as (out & Hnth & Hout).
    rewrite Hnth, (nth_error_nth _ _ new_output_node Hnth).
    intro Hp. exists nodes0, i, out.
    split; [reflexivity|]. split; [exact Hf|]. split; [exact Hnth|].
    destruct (surface_from out) as [j|]; [|reflexivity].
    destruct (nth_error nodes0 j) as [n|]; [|reflexivity].
    cbn [option_map]. rewrite Hp. reflexivity.
  - intros _.
    assert (Hnth : nth_error (nodes0 ++ [new_output_node]) (List.length nodes0)
                   = Some new_output_node).
    { rewrite nth_error_app2 by lia. rewrite Nat.sub_diag. reflexivity. }
    exists (nodes0 ++ [new_output_node]), (List.length nodes0), new_output_node.
    split; [reflexivity|].
    split; [apply find_index_app_none; [exact Hf | reflexivity]|].
    split; [exact Hnth|].
    rewrite (nth_error_nth _ _ new_output_node Hnth). reflexivity.
Qed.

(** X14.  After the update, the node that feeds the first output node carries
    the computed strength, whatever the tree was. *)
Theorem update_material_nodes_sets_surface_strength
    (s : npfloat) (nodes0 : list Node) :
  surface_strength (update_material_nodes s nodes0) = Some s.
Proof.
  destruct (surface_is_principled nodes0) eqn:Hp.
  - destruct (update_material_nodes_principled s nodes0 Hp)
      as (i & out & j & n & Hf & Hi & Hsf & Hj & _ & Hij & ->).
    unfold surface_strength, surface_node.
    rewrite find_index_update_at by reflexivity. rewrite Hf.
    rewrite (nth_error_update_at_other _ _ i j Hij), Hi, Hsf.
    rewrite (nth_error_update_at_same _ _ j n Hj). reflexivity.
  - destruct (update_material_nodes_emission s nodes0 Hp)
      as (nodes1 & i & out & _ & Hf & Hi & ->).
    unfold surface_strength, surface_node.
    rewrite (find_index_app_some _ _ _ i)
      by (rewrite find_index_update_at by reflexivity; exact Hf).
    assert (Hlt : (i < List.length nodes1)%nat)
      by (apply nth_error_Some; rewrite Hi; discriminate).
    rewrite nth_error_app1 by (rewrite length_update_at; exact Hlt).
    rewrite (nth_error_update_at_same _ _ i out Hi).
    cbn [surface_from with_surface_from].
    rewrite nth_error_app2 by (rewrite length_update_at; lia).
    rewrite length_update_at, Nat.sub_diag. reflexivity.
Qed.

(** X15.  The update never removes a node.  With a Principled BSDF feeding the
    output it adds none; otherwise it appends a new Emission shader each
    time it runs, and the ones from earlier runs stay in the tree. *)
Theorem update_material_nodes_node_count (s1 s2 : npfloat) (nodes0 : list Node) :
  (surface_is_principled nodes0 = true ->
   List.length (update_material_nodes s1 nodes0) = List.length nodes0 /\
   emission_count (update_material_nodes s1 nodes0) = emission_count nodes0) /\
  (surface_is_principled nodes0 = false ->
   emission_count (update_material_nodes s1 nodes0) = S (emission_count nodes0) /\
   emission_count (update_material_nodes s2 (update_material_nodes s1 nodes0))
     = S (S (emission_count nodes0))).
Proof.
  assert (Hstep : forall s nodes,
            surface_is_principled nodes = false ->
            emission_count (update_material_nodes s nodes)
              = S (emission_count nodes) /\
            surface_is_principled (update_material_nodes s nodes) = false).
  { intros s nodes Hp.
    pose proof (update_material_nodes_sets_surface_strength s nodes) as Hs.
    destruct (update_material_nodes_emission s nodes Hp)
      as (nodes1 & i & out & Hn1 & Hf & Hi & HR).
    split.
    - rewrite HR. unfold emission_count.
      rewrite filter_app, List.length_app.
      rewrite filter_update_at_length by reflexivity.
      cbn. rewrite Hn1. destruct (has_output nodes); [lia|].
      rewrite filter_app, List.length_app. cbn. lia.
    - unfold surface_is_principled, surface_node. rewrite HR.
      rewrite (find_index_app_some _ _ _ i)
        by (rewrite find_index_update_at by reflexivity; exact Hf).
      assert (Hlt : (i < List.length nodes1)%nat)
        by (apply nth_error_Some; rewrite Hi; discriminate).
      rewrite nth_error_app1 by (rewrite length_update_at; exact Hlt).
      rewrite (nth_error_update_at_same _ _ i out Hi).
      cbn [surface_from with_surface_from].
      rewrite nth_error_app2 by (rewrite length_update_at; lia).
      rewrite length_update_at, Nat.sub_diag. reflexivity. }
  split.
  - intro Hp.
    destruct (update_material_nodes_principled s1 nodes0 Hp)
      as (i & out & j & n & _ & _ & _ & _ & _ & _ & ->).
    split; [apply length_update_at|].
    unfold emission_count. apply filter_update_at_length. reflexivity.
  - intro Hp. destruct (Hstep s1 nodes0 Hp) as [H1 Hp1].
    split; [exact H1|].
    destruct (Hstep s2 _ Hp1) as [H2 _]. rewrite H2, H1. reflexivity.
Qed.

Lemma update_material_nodes_node_count_witness :
  surface_is_principled principled_nodes = true /\
  List.length (update_material_nodes 5 principled_nodes)
    = List.length principled_nodes /\
  surface_is_principled diffuse_nodes = false /\
  emission_count (update_material_nodes 7 (update_material_nodes 5 diffuse_nodes))
    = S (S (emission_count diffuse_nodes)).
Proof.
  split; [reflexivity|].
  split; [exact (proj1 (proj1 (update_material_nodes_node_count
                                 5 7 principled_nodes) eq_refl))|].
  split; [reflexivity|].
  exact (proj2 (proj2 (update_material_nodes_node_count 5 7 diffuse_nodes)
                      eq_refl)).
Defined.

(** X16.  After a finished run of [material.calc_emission_strength] the material
    uses nodes, the node feeding its output carries the stored [strength],
    and no other property of the group has changed. *)
Theorem calc_emission_strength_shader_matches_property
    (apply_scale : Object -> Object) (context : Context)
    (st : option ContextObject) (log : list (string * string)) :
  calc_emission_strength apply_scale context = FINISHED st log ->
  exists cob mat cob' mat',
    object context = Some cob /\ active_material cob = Some mat /\
    st = Some cob' /\ active_material cob' = Some mat' /\
    use_nodes mat' = true /\
    surface_strength (nodes mat') = Some (strength (emission_props mat')) /\
    emission_props mat'
      = set_strength (strength (emission_props mat')) (emission_props mat).
Proof.
  unfold calc_emission_strength.
  destruct (object context) as [cob|] eqn:Hob; [|discriminate].
  destruct (negb (is_mesh (ob cob))); [discriminate|].
  destruct (active_material cob) as [mat|] eqn:Hmat; [|discriminate].
  destruct (Qleb _ 0); [discriminate|].
  destruct (py_div (lumens (emission_props mat)) (ler (emission_props mat)))
    as [q|]; [|discriminate].
  destruct (py_div q _) as [s|]; [|discriminate].
  intro H. injection H as <- _.
  exists cob, mat. eexists. eexists.
  split; [reflexivity|]. split; [exact Hmat|]. split; [reflexivity|].
  split; [reflexivity|]. split; [reflexivity|].
  cbn [nodes emission_props strength set_strength].
  unfold strength_decl. rewrite assign_float_no_min.
  split; [apply update_material_nodes_sets_surface_strength | reflexivity].
Qed.

Lemma calc_emission_strength_shader_matches_property_witness :
  exists st log,
    calc_emission_strength (fun o => o) default_context = FINISHED st log /\
    exists cob mat cob' mat',
      object default_context = Some cob /\ active_material cob = Some mat /\
      st = Some cob' /\ active_material cob' = Some mat' /\
      use_nodes mat' = true /\
      surface_strength (nodes mat') = Some (strength (emission_props mat')) /\
      emission_props mat'
        = set_strength (strength (emission_props mat')) (emission_props mat).
Proof.
  eexists. eexists. split.
  - vm_compute. reflexivity.
  - eapply (calc_emission_strength_shader_matches_property
              (fun o => o) default_context).
    vm_compute. reflexivity.
Defined.

(** ** The efficacy presets *)

(** X17.  Selecting a preset other than Custom writes into [ler] the number its
    label shows in parentheses; the callback leaves the state it produced,
    and the declared defaults, as they are. *)
Theorem ler_preset_label_matches_value
    (k : LerPreset) (p : MaterialEmissionProperties) :
  k <> LER_CUSTOM ->
  exists label n p',
    dict_get ler_preset_items (ler_preset_id k) = Some label /\
    label_number label = Some n /\
    update_ler_from_preset (set_ler_preset k p) = Ok p' /\
    ler p' = inject_Z n /\ ler_preset p' = k /\
    update_ler_from_preset p' = Ok p' /\
    update_ler_from_preset default_props = Ok default_props.
Proof.
  intro Hk.
  destruct k; try (contradiction Hk; reflexivity);
    do 3 eexists;
    (split; [reflexivity|]); (split; [reflexivity|]);
    (split; [reflexivity|]); repeat split; reflexivity.
Qed.

Lemma ler_preset_label_matches_value_witness :
  LER_683 <> LER_CUSTOM /\
  exists p',
    update_ler_from_preset (set_ler_preset LER_683 default_props) = Ok p' /\
    ler p' = inject_Z 683 /\
    label_number "Ideal Green (683)" = Some 683%Z.
Proof.
  assert (Hk : LER_683 <> LER_CUSTOM) by discriminate.
  split; [exact Hk|].
  destruct (ler_preset_label_matches_value LER_683 default_props Hk)
    as (label & n & p' & Hl & Hn & Hu & Hv & _).
  cbn in Hl. injection Hl as <-.
  vm_compute in Hn. injection Hn as <-.
  exists p'. split; [exact Hu|]. split; [exact Hv|]. reflexivity.
Defined.

(** ** The panel *)

Lemma temp_rows_positive (t : RoomType) (t0 t1 t2 : Z) :
  dict_get temp_k_table (room_type_id t) = Some (t0, t1, t2) ->
  (0 < t0 /\ 0 < t1 /\ 0 < t2)%Z.
Proof.
  destruct t; vm_compute; intro H; injection H as <- <- <-;
    repeat split.
Qed.

Lemma height_items_plain (props : MaterialEmissionProperties) :
  flat_map layout.operators (height_items props) = [] /\
  forall e, ~ In "ler" (flat_map (layout.editable e) (height_items props)).
Proof.
  unfold height_items.
  destruct (height_source props); [|destruct (height_object props)];
    (split; [reflexivity|]); intros [|]; cbn; intros H;
    repeat (destruct H as [H | H]; [discriminate H|]); exact H.
Qed.

Lemma material_area_items_plain (props : MaterialEmissionProperties) (obj : Object) :
  flat_map layout.operators (material_area_items props obj) = [] /\
  forall e, ~ In "ler" (flat_map (layout.editable e) (material_area_items props obj)).
Proof.
  unfold material_area_items.
  destruct (auto_area props);
    [destruct (Qltb 0 (get_active_material_area (Some obj)))|];
    (split; [reflexivity|]); intros [|]; cbn; intros H;
    repeat (destruct H as [H | H]; [discriminate H|]); exact H.
Qed.

Lemma lumens_items_operators (props : MaterialEmissionProperties) :
  flat_map layout.operators (lumens_items props)
  = (if fltb 0 (lumens_avg props)
     then [("material.use_lumens", Some MIN); ("material.use_lumens", Some AVG);
           ("material.use_lumens", Some MAX)]
     else []) /\
  forall e, flat_map (layout.editable e) (lumens_items props) = [].
Proof.
  unfold lumens_items. destruct (fltb 0 (lumens_avg props));
    split; try reflexivity; intros [|]; reflexivity.
Qed.

Lemma temperature_items_operators (props : MaterialEmissionProperties) :
  flat_map layout.operators (temperature_items props)
  = (if (0 <? temp_avg props)%Z
     then [("material.apply_temperature", Some MIN);
           ("material.apply_temperature", Some AVG);
           ("material.apply_temperature", Some MAX)]
     else []) /\
  forall e, flat_map (layout.editable e) (temperature_items props) = [].
Proof.
  unfold temperature_items. destruct (0 <? temp_avg props)%Z;
    split; try reflexivity; intros [|]; reflexivity.
Qed.

Section PanelFacts.

Variable eig : np.array33 -> np.array3 * np.array33.
Variable norm : np.array3 -> Q.

Lemma area_items_plain props context :
  flat_map layout.operators (area_items eig norm props context) = [] /\
  forall e, ~ In "ler" (flat_map (layout.editable e)
                                 (area_items eig norm props context)).
Proof.
  unfold area_items.
  destruct (room_area_source props);
    [| destruct (fltb 0 (bounding_box_area_xy eig norm props context))];
    (split; [reflexivity|]); intros [|]; cbn; intros H;
    repeat (destruct H as [H | H]; [discriminate H|]); exact H.
Qed.

(** The operator buttons and the editable fields of the full panel. *)
Lemma draw_panel_parts context cob mat :
  object context = Some cob -> active_material cob = Some mat ->
  let props := emission_props mat in
  let items := draw eig norm context in
  panel_operators items
  = [("material.make_it_lamp", None); ("material.calc_room_lumens", None)]
    ++ flat_map layout.operators (lumens_items props)
    ++ flat_map layout.operators (temperature_items props)
    ++ [("material.calc_emission_strength", None)] /\
  (In "ler" (panel_editable items) <->
   String.eqb (ler_preset_id (ler_preset props)) "CUSTOM" = true).
Proof.
  intros Hob Hmat. cbv zeta. unfold draw. rewrite Hob, Hmat. cbv zeta.
  set (props := emission_props mat).
  destruct (area_items_plain props context) as [Hai_op Hai_ed].
  destruct (height_items_plain props) as [Hh_op Hh_ed].
  destruct (material_area_items_plain props (ob cob)) as [Hm_op Hm_ed].
  destruct (lumens_items_operators props) as [_ Hl_ed].
  destruct (temperature_items_operators props) as [_ Ht_ed].
  split.
  - unfold panel_operators.
    cbn [flat_map layout.operators app].
    rewrite !flat_map_app. cbn [flat_map layout.operators app].
    rewrite Hai_op, Hh_op, Hm_op. cbn [app].
    rewrite <- !app_assoc. reflexivity.
  - unfold panel_editable.
    cbn [flat_map layout.editable app andb].
    rewrite !flat_map_app. cbn [flat_map layout.editable app andb].
    rewrite Hl_ed, Ht_ed, !app_nil_r.
    destruct (String.eqb (ler_preset_id (ler_preset props)) "CUSTOM");
      cbn [app].
    + split; [reflexivity|]. intros _.
      repeat (rewrite in_app_iff || cbn [In]). tauto.
    + split; [|discriminate]. intro H. exfalso.
      repeat (rewrite in_app_iff in H || cbn [In] in H).
      pose proof (Hai_ed true) as A1. pose proof (Hh_ed true) as A2.
      pose proof (Hm_ed true) as A3.
      intuition discriminate.
Qed.

(** The label under the two wall fields: the calculated area when the
    comparison [calculated_area > 0] holds, the hint otherwise, and so on
    an area that is nan. *)
Lemma draw_area_label context cob mat :
  object context = Some cob -> active_material cob = Some mat ->
  room_area_source (emission_props mat) = AREA_BOUNDING_BOX ->
  let calculated_area :=
    bounding_box_area_xy eig norm (emission_props mat) context in
  let items := draw eig norm context in
  (In "Calculated Area: {calculated_area:.2f} m²" (panel_labels items)
   <-> (0 < calculated_area)%float) /\
  (In "Select at least one valid mesh" (panel_labels items)
   <-> ~ (0 < calculated_area)%float).
Proof.
  intros Hob Hmat Hsrc. cbv zeta.
  unfold draw. rewrite Hob, Hmat. cbv zeta.
  unfold panel_labels, area_items, height_items, lumens_items,
         temperature_items, material_area_items.
  rewrite Hsrc.
  pose proof (fltb_lt 0 (bounding_box_area_xy eig norm (emission_props mat)
                                              context)) as Hlt.
  destruct (fltb 0 (bounding_box_area_xy eig norm (emission_props mat) context));
    destruct (height_source (emission_props mat));
    try destruct (height_object (emission_props mat));
    destruct (fltb 0 (lumens_avg (emission_props mat)));
    destruct (0 <? temp_avg (emission_props mat))%Z;
    destruct (auto_area (emission_props mat));
    try destruct (Qltb 0 (get_active_material_area (Some (ob cob))));
    unfold mode_buttons; cbn [flat_map layout.labels app In];
    (split; split; intro H);
    first
      [ solve [apply Hlt; reflexivity]
      | solve [intro F; apply Hlt in F; discriminate F]
      | solve [exfalso; apply H; apply Hlt; reflexivity]
      | solve [apply Hlt in H; discriminate H]
      | solve [repeat (destruct H as [H | H]; [discriminate H|]); destruct H]
      | solve [repeat (first [left; reflexivity | right])] ].
Qed.

(** X18.  Every operator button the panel draws belongs to an operator that
    [register] registers, and the buttons of the three calculators are
    always among them when an object with a material is shown. *)
Theorem draw_operators_registered context :
  (forall idname mode,
     In (idname, mode) (panel_operators (draw eig norm context)) ->
     In idname registered_operators) /\
  (forall cob mat,
     object context = Some cob -> active_material cob = Some mat ->
     let items := draw eig norm context in
     In ("material.make_it_lamp", None) (panel_operators items) /\
     In ("material.calc_room_lumens", None) (panel_operators items) /\
     In ("material.calc_emission_strength", None) (panel_operators items)).
Proof.
  destruct (object context) as [cob|] eqn:Hob.
  2:{ unfold draw. rewrite Hob.
      split; [intros idname mode []|]. intros cob mat H. discriminate H. }
  destruct (active_material cob) as [mat|] eqn:Hmat.
  2:{ unfold draw. rewrite Hob, Hmat.
      split; [intros idname mode []|]. intros cob' mat' H H'.
      injection H as <-. rewrite Hmat in H'. discriminate H'. }
  destruct (draw_panel_parts context cob mat Hob Hmat) as [Hparts _].
  cbv zeta in Hparts |- *. rewrite Hparts.
  destruct (lumens_items_operators (emission_props mat)) as [-> _].
  destruct (temperature_items_operators (emission_props mat)) as [-> _].
  split.
  - intros idname mode Hin.
    destruct (fltb 0 (lumens_avg (emission_props mat)));
      destruct (0 <? temp_avg (emission_props mat))%Z;
      cbn in Hin;
      repeat (destruct Hin as [Hin | Hin];
              [injection Hin as <- _; cbn; tauto|]);
      destruct Hin.
  - intros cob' mat' _ _.
    repeat split; [left; reflexivity | right; left; reflexivity |].
    apply in_or_app. right. apply in_or_app. right.
    apply in_or_app. right. left. reflexivity.
Qed.

(** X19.  The Min / Avg / Max buttons of [material.use_lumens] are drawn exactly
    when [lumens_avg] is positive, those of [material.apply_temperature]
    exactly when [temp_avg] is positive, and [ler] can be edited exactly
    when the preset is Custom.  With the area taken from the bounding box,
    the calculated area is shown exactly when it is positive; when it is
    not, and so when it is nan, the panel asks for a valid mesh. *)
Theorem draw_conditional_parts context cob mat :
  object context = Some cob -> active_material cob = Some mat ->
  let props := emission_props mat in
  let items := draw eig norm context in
  (forall m, In ("material.use_lumens", Some m) (panel_operators items)
             <-> (0 < lumens_avg props)%float) /\
  (forall m, In ("material.apply_temperature", Some m) (panel_operators items)
             <-> (0 < temp_avg props)%Z) /\
  (In "ler" (panel_editable items) <-> ler_preset props = LER_CUSTOM) /\
  (room_area_source props = AREA_BOUNDING_BOX ->
   let calculated_area := bounding_box_area_xy eig norm props context in
   (In "Calculated Area: {calculated_area:.2f} m²" (panel_labels items)
    <-> (0 < calculated_area)%float) /\
   (In "Select at least one valid mesh" (panel_labels items)
    <-> ~ (0 < calculated_area)%float)).
Proof.
  intros Hob Hmat. cbv zeta.
  destruct (draw_panel_parts context cob mat Hob Hmat) as [Hparts Hler].
  cbv zeta in Hparts, Hler. rewrite Hparts.
  destruct (lumens_items_operators (emission_props mat)) as [-> _].
  destruct (temperature_items_operators (emission_props mat)) as [-> _].
  split; [|split; [|split;
    [|intro Hsrc; exact (draw_area_label context cob mat Hob Hmat Hsrc)]]].
  - intro m.
    pose proof (fltb_lt 0 (lumens_avg (emission_props mat))) as Hlt.
    destruct (fltb 0 (lumens_avg (emission_props mat)));
      destruct (0 <? temp_avg (emission_props mat))%Z;
      destruct m; cbn; split; intro Hin;
      try (apply Hlt; reflexivity); try tauto;
      try (apply Hlt in Hin; discriminate Hin);
      repeat (destruct Hin as [Hin | Hin]; [discriminate Hin|]);
      destruct Hin.
  - intro m.
    destruct (fltb 0 (lumens_avg (emission_props mat)));
      (destruct (0 <? temp_avg (emission_props mat))%Z eqn:Ht;
       [apply Z.ltb_lt in Ht | apply Z.ltb_ge in Ht]);
      destruct m; cbn; split; intro Hin;
      try exact Ht; try tauto; try lia;
      repeat (destruct Hin as [Hin | Hin]; [discriminate Hin|]);
      destruct Hin.
  - rewrite Hler.
    destruct (ler_preset (emission_props mat)); cbn; split; intro E;
      solve [reflexivity | discriminate E].
Qed.

(** X20.  After a finished run of [material.calc_room_lumens] on properties
    inside their declared ranges, the panel is drawn with the three
    Min / Avg / Max buttons of [material.apply_temperature].  Those of
    [material.use_lumens] are drawn exactly when the stored [room_area] is
    a number: after a run on a nan area [lumens_avg] is nan, the comparison
    [lumens_avg > 0] is false, and the panel offers no lumens to use. *)
Theorem draw_after_calc_room_lumens context cob mat p' log :
  object context = Some cob -> active_material cob = Some mat ->
  in_declared_range (emission_props mat) ->
  calc_room_lumens eig norm context = FINISHED p' log ->
  let items := draw eig norm (with_emission_props p' context) in
  forall m,
    In ("material.apply_temperature", Some m) (panel_operators items) /\
    (In ("material.use_lumens", Some m) (panel_operators items)
     <-> exists a : Q, room_area p' = Finite a).
Proof.
  intros Hob Hmat Hrange H.
  assert (Hstep : step (emission_props mat) p')
    by exact (step_calc_room_lumens_finished eig norm context cob mat p' log
                Hob Hmat H).
  pose proof (step_in_declared_range _ _ Hstep Hrange) as Hrange'.
  destruct (calc_room_lumens_finished_fields eig norm context p' log H)
    as (cob' & mat' & p1 & l0 & l1 & l2 & t0 & t1 & t2 & Hob' & Hmat' & Hguard &
        Hl & Ht & _ & _ & _ & _ & Havg & _ & _ & Ht1 & _).
  destruct (lux_rows_ordered _ _ _ _ Hl) as (Hl0 & Hl01 & _).
  destruct (temp_rows_positive _ _ _ _ Ht) as (_ & Hpos1 & _).
  assert (Hlum : fltb 0 (lumens_avg p') = true <-> exists a : Q, room_area p' = Finite a).
  { rewrite Havg.
    destruct Hrange' as (_ & _ & _ & _ & Hra & _).
    destruct (room_area p') as [a|]; cbn [fmul fltb not_below] in *.
    - split; [intros _; exists a; reflexivity|]. intros _.
      apply Qltb_lt.
      assert (Hq : 0 < inject_Z l1)
        by (change 0 with (inject_Z 0); rewrite <- Zlt_Qlt; lia).
      pose proof (h_factor_ge_1 (room_height p')) as Hhf.
      apply Qmult_lt_0_compat; [apply Qmult_lt_0_compat|]; lra.
    - split; [discriminate|]. intros [a Ea]. discriminate Ea. }
  assert (Htemp : (0 < temp_avg p')%Z) by (rewrite Ht1; exact Hpos1).
  assert (Hob2 : object (with_emission_props p' context)
                 = Some (mkContextObject (ob cob)
                           (Some (mkMaterial p' (use_nodes mat) (nodes mat)))))
    by (unfold with_emission_props; rewrite Hob, Hmat; reflexivity).
  destruct (draw_panel_parts _ _ _ Hob2 eq_refl) as [Hparts _].
  cbv zeta in Hparts |- *. rewrite Hparts.
  cbn [emission_props].
  destruct (lumens_items_operators p') as [-> _].
  destruct (temperature_items_operators p') as [-> _].
  apply Z.ltb_lt in Htemp. rewrite Htemp.
  intro m. rewrite <- Hlum. clear Hlum.
  destruct (fltb 0 (lumens_avg p')); destruct m; cbn;
    (split; [tauto|]); split; intro F;
    first [ reflexivity | discriminate F | tauto
          | repeat (destruct F as [F | F]; [discriminate F|]); destruct F ].
Qed.

End PanelFacts.

Lemma draw_operators_registered_witness :
  let items := draw eig_diagonal norm_axis_parallel (wall_context default_cube) in
  bounding_box_area_xy eig_diagonal norm_axis_parallel
    (wall_props default_cube) (wall_context default_cube) = NonFinite /\
  In ("material.make_it_lamp", None) (panel_operators items) /\
  In ("material.calc_room_lumens", None) (panel_operators items) /\
  In ("material.calc_emission_strength", None) (panel_operators items) /\
  In "material.calc_room_lumens" registered_operators.
Proof.
  cbv zeta.
  destruct (draw_operators_registered eig_diagonal norm_axis_parallel
              (wall_context default_cube)) as [Hreg Hshown].
  destruct (Hshown _ _ eq_refl eq_refl) as (H1 & H2 & H3).
  split; [vm_compute; reflexivity|].
  split; [exact H1|]. split; [exact H2|]. split; [exact H3|].
  exact (Hreg _ _ H2).
Defined.

Lemma draw_conditional_parts_witness :
  let items := draw eig_diagonal norm_axis_parallel (wall_context default_cube) in
  bounding_box_area_xy eig_diagonal norm_axis_parallel
    (wall_props default_cube) (wall_context default_cube) = NonFinite /\
  In "Select at least one valid mesh" (panel_labels items) /\
  (In "ler" (panel_editable items)
   <-> ler_preset (wall_props default_cube) = LER_CUSTOM).
Proof.
  cbv zeta.
  destruct (draw_conditional_parts eig_diagonal norm_axis_parallel
              (wall_context default_cube)
              (mkContextObject default_cube
                 (Some (mkMaterial (wall_props default_cube) false [])))
              (mkMaterial (wall_props default_cube) false [])
              eq_refl eq_refl)
    as (_ & _ & Hler & Hlabel).
  destruct (Hlabel eq_refl) as [_ Hhint].
  split; [vm_compute; reflexivity|].
  split; [|exact Hler].
  apply Hhint. intro F. vm_compute in F. exact F.
Defined.

Lemma draw_after_calc_room_lumens_witness :
  (exists p' log,
     calc_room_lumens eig_diagonal norm_axis_parallel default_context
       = FINISHED p' log /\
     In ("material.use_lumens", Some AVG)
        (panel_operators (draw eig_diagonal norm_axis_parallel
                               (with_emission_props p' default_context)))) /\
  (exists p' log,
     calc_room_lumens eig_diagonal norm_axis_parallel (wall_context default_cube)
       = FINISHED p' log /\
     room_area p' = NonFinite /\
     In ("material.apply_temperature", Some AVG)
        (panel_operators (draw eig_diagonal norm_axis_parallel
                               (with_emission_props p' (wall_context default_cube)))) /\
     ~ In ("material.use_lumens", Some AVG)
          (panel_operators (draw eig_diagonal norm_axis_parallel
                                 (with_emission_props p' (wall_context default_cube))))).
Proof.
  split.
  - exists (room_lumens_result default_props (100, 150, 200)%Z (2700, 3000, 3500)%Z),
           [].
    split; [reflexivity|].
    apply (draw_after_calc_room_lumens
             eig_diagonal norm_axis_parallel default_context
             (mkContextObject default_cube
                (Some (mkMaterial default_props false [])))
             (mkMaterial default_props false [])
             (room_lumens_result default_props (100, 150, 200)%Z
                                 (2700, 3000, 3500)%Z)
             [] eq_refl eq_refl default_props_in_declared_range eq_refl AVG).
    exists 20. reflexivity.
  - eexists. eexists. split; [vm_compute; reflexivity|].
    split; [reflexivity|].
    destruct (draw_after_calc_room_lumens
                eig_diagonal norm_axis_parallel (wall_context default_cube)
                (mkContextObject default_cube
                   (Some (mkMaterial (wall_props default_cube) false [])))
                (mkMaterial (wall_props default_cube) false [])
                _ [] eq_refl eq_refl
                (wall_props_in_declared_range default_cube) eq_refl AVG)
      as [Htemp Hlum].
    split; [exact Htemp|].
    intro Hin. apply Hlum in Hin. destruct Hin as [a Ea]. discriminate Ea.
Defined.

(** ** The node-editing operators *)

(** ** The node tree under material.make_it_lamp and material.apply_temperature *)

Section GraphFacts.

Import graph.

Lemma le_fold_max (l : list nat) (x : nat) :
  In x l -> (x <= fold_right Nat.max 0 l)%nat.
Proof.
  induction l as [|a l IH]; intros H; [destruct H|].
  cbn. destruct H as [-> | H]; [lia|]. specialize (IH H). lia.
Qed.

Lemma name_lt_fresh (t : NodeTree) (n : Node) :
  In n (nodes t) -> (name n < fresh t)%nat.
Proof.
  intro H. unfold fresh.
  assert (In (name n) (map name (nodes t))) by (apply in_map; exact H).
  pose proof (le_fold_max _ _ H0). lia.
Qed.

Lemma find_app_nodes (f : Node -> bool) (l r : list Node) :
  find f (l ++ r) = match find f l with Some x => Some x | None => find f r end.
Proof.
  induction l as [|a l IH]; [reflexivity|].
  cbn. destruct (f a); [reflexivity | exact IH].
Qed.

Lemma find_none_iff (f : Node -> bool) (l : list Node) :
  (forall n, In n l -> f n = false) -> find f l = None.
Proof.
  induction l as [|a l IH]; intro H; [reflexivity|].
  cbn. rewrite (H a) by (left; reflexivity).
  apply IH. intros n Hn. apply H. right; exact Hn.
Qed.

Lemma map_update_others (k : nat) (g : Node -> Node) (l : list Node) :
  (forall n, In n l -> name n <> k) ->
  map (fun n => if (name n =? k)%nat then g n else n) l = l.
Proof.
  induction l as [|a l IH]; intro H; [reflexivity|].
  cbn. rewrite IH by (intros n Hn; apply H; right; exact Hn).
  destruct (Nat.eqb_spec (name a) k) as [E | _]; [|reflexivity].
  exfalso. apply (H a); [left; reflexivity | exact E].
Qed.

Lemma filter_filter_nodes (f g : Node -> bool) (l : list Node) :
  filter f (filter g l) = filter (fun n => g n && f n) l.
Proof.
  induction l as [|a l IH]; [reflexivity|].
  cbn. destruct (g a); cbn; [destruct (f a)|]; rewrite IH; reflexivity.
Qed.

(** Names distinguish the nodes of a well-named tree. *)
Lemma same_name_same_node (l : list Node) (n m : Node) :
  NoDup (map name l) -> In n l -> In m l -> name n = name m -> n = m.
Proof.
  induction l as [|a l IH]; intros Hnd Hn Hm E; [destruct Hn|].
  cbn in Hnd. inversion Hnd as [|x xs Hnotin Hnd']; subst.
  destruct Hn as [-> | Hn], Hm as [-> | Hm]; try reflexivity.
  - exfalso. apply Hnotin. rewrite E. apply in_map. exact Hm.
  - exfalso. apply Hnotin. rewrite <- E. apply in_map. exact Hn.
  - exact (IH Hnd' Hn Hm E).
Qed.

Lemma NoDup_names_filter (f : Node -> bool) (l : list Node) :
  NoDup (map name l) -> NoDup (map name (filter f l)).
Proof.
  induction l as [|a l IH]; intro H; [constructor|].
  cbn in H. inversion H as [|x xs Hnotin Hnd]; subst.
  cbn. destruct (f a); [|exact (IH Hnd)].
  cbn. constructor; [|exact (IH Hnd)].
  intro Hin. apply Hnotin. apply in_map_iff in Hin.
  destruct Hin as (m & Em & Hm). apply filter_In in Hm.
  rewrite <- Em. apply in_map. apply Hm.
Qed.

(** The sweep over a snapshot [l] removes the nodes that share a name with
    a swept node of [l]. *)
Lemma sweep_snapshot (l : list Node) :
  forall t,
    nodes (fold_left (fun t n => if swept n then nodes_remove (name n) t else t)
                     l t)
    = filter (fun m => negb (existsb (fun n => swept n && (name n =? name m)%nat) l))
             (nodes t).
Proof.
  induction l as [|a l IH]; intro t; cbn [fold_left existsb].
  - cbn. symmetry. apply filter_everything.
  - rewrite IH. destruct (swept a); cbn [andb orb].
    + cbn [nodes nodes_remove]. rewrite filter_filter_nodes.
      apply filter_ext. intro m.
      rewrite (Nat.eqb_sym (name a) (name m)).
      destruct (name m =? name a)%nat; reflexivity.
    + reflexivity.
Qed.

(** In a well-named tree the sweep removes exactly the swept nodes. *)
Lemma clean_sweep_nodes (t : NodeTree) :
  well_named t ->
  nodes (clean_sweep t) = filter (fun n => negb (swept n)) (nodes t).
Proof.
  intro Hnd. unfold clean_sweep. rewrite sweep_snapshot.
  apply filter_ext_in. intros m Hm. f_equal.
  destruct (swept m) eqn:Hs.
  - apply existsb_exists. exists m. split; [exact Hm|].
    rewrite Hs, Nat.eqb_refl. reflexivity.
  - destruct (existsb _ (nodes t)) eqn:E; [|reflexivity].
    apply existsb_exists in E. destruct E as (n & Hn & Hc).
    apply andb_prop in Hc. destruct Hc as [Hsn Hname].
    apply Nat.eqb_eq in Hname.
    rewrite (same_name_same_node _ n m Hnd Hn Hm Hname) in Hsn. congruence.
Qed.

End GraphFacts.

Section LampTree.

Import graph.

Variable template : string -> Node.

Lemma fold_max_app (a b : list nat) :
  fold_right Nat.max 0%nat (a ++ b)
  = Nat.max (fold_right Nat.max 0%nat a) (fold_right Nat.max 0%nat b).
Proof.
  induction a as [|x a IH]; cbn; [reflexivity|]. rewrite IH. lia.
Qed.

(** A tree made of old nodes [K], all named below [f], and new ones. *)
Lemma node_named_new (K N : list Node) (L : list Link) (f k : nat) :
  (forall n, In n K -> (name n < f)%nat) -> (f <= k)%nat ->
  node_named k (mkNodeTree (K ++ N) L) = find (fun n => (name n =? k)%nat) N.
Proof.
  intros HK Hk. unfold node_named. cbn [nodes]. rewrite find_app_nodes.
  rewrite find_none_iff; [reflexivity|].
  intros n Hn. apply Nat.eqb_neq. specialize (HK n Hn). lia.
Qed.

Lemma update_node_new (K N : list Node) (L : list Link) (f k : nat)
                      (g : Node -> Node) :
  (forall n, In n K -> (name n < f)%nat) -> (f <= k)%nat ->
  update_node k g (mkNodeTree (K ++ N) L)
  = mkNodeTree (K ++ map (fun n => if (name n =? k)%nat then g n else n) N) L.
Proof.
  intros HK Hk. unfold update_node. cbn [nodes links]. rewrite map_app.
  rewrite map_update_others; [reflexivity|].
  intros n Hn. specialize (HK n Hn). lia.
Qed.

Lemma fresh_new (K N : list Node) (L : list Link) (f : nat) :
  f = S (fold_right Nat.max 0%nat (map name K)) ->
  fresh (mkNodeTree (K ++ N) L)
  = S (Nat.max (f - 1) (fold_right Nat.max 0%nat (map name N))).
Proof.
  intros ->. unfold fresh. cbn [nodes]. rewrite map_app, fold_max_app.
  f_equal. lia.
Qed.

Lemma has_input_set_named (s s' : string) (v : Q) (l : list Input) :
  existsb (fun i => String.eqb (in_name i) s) (set_named s' v l)
  = existsb (fun i => String.eqb (in_name i) s) l.
Proof.
  induction l as [|i l IH]; [reflexivity|].
  cbn. destruct (String.eqb (in_name i) s'); cbn; [reflexivity|].
  rewrite IH. reflexivity.
Qed.

Lemma find_set_named_same (s : string) (v : Q) (l : list Input) :
  existsb (fun i => String.eqb (in_name i) s) l = true ->
  option_map default_value
    (find (fun i => String.eqb (in_name i) s) (set_named s v l))
  = Some (Some v).
Proof.
  induction l as [|i l IH]; [discriminate|].
  cbn. destruct (String.eqb (in_name i) s) eqn:E; cbn.
  - rewrite E. reflexivity.
  - rewrite E. exact IH.
Qed.

Lemma find_set_named_other (s s' : string) (v : Q) (l : list Input) :
  s <> s' ->
  option_map default_value
    (find (fun i => String.eqb (in_name i) s) (set_named s' v l))
  = option_map default_value (find (fun i => String.eqb (in_name i) s) l).
Proof.
  intro Hne. induction l as [|i l IH]; [reflexivity|].
  cbn. destruct (String.eqb (in_name i) s') eqn:E'; cbn.
  - destruct (String.eqb (in_name i) s) eqn:E; [|reflexivity].
    apply String.eqb_eq in E, E'. congruence.
  - destruct (String.eqb (in_name i) s); [reflexivity | exact IH].
Qed.

Lemma input_value_option (s : string) (n : Node) :
  input_value s n
  = match option_map default_value
            (find (fun i => String.eqb (in_name i) s) (inputs n)) with
    | Some v => v
    | None => None
    end.
Proof.
  unfold input_value. destruct (find _ (inputs n)); reflexivity.
Qed.

(** Setting a socket by name on a node: the named socket holds the value,
    the others and the rest of the node stay. *)
Lemma set_on_skeleton (s : string) (v : Q) (n : Node) :
  name (set_on s v n) = name n /\ type (set_on s v n) = type n /\
  location (set_on s v n) = location n /\ outputs (set_on s v n) = outputs n /\
  (forall s', has_input s' (set_on s v n) = has_input s' n).
Proof.
  repeat split. intro s'. unfold has_input, set_on. cbn.
  apply has_input_set_named.
Qed.

Lemma set_on_value_same (s : string) (v : Q) (n : Node) :
  has_input s n = true -> input_value s (set_on s v n) = Some v.
Proof.
  intro H. rewrite input_value_option. unfold set_on. cbn [inputs with_inputs].
  rewrite find_set_named_same by exact H. reflexivity.
Qed.

Lemma set_on_value_other (s s' : string) (v : Q) (n : Node) :
  s <> s' -> input_value s (set_on s' v n) = input_value s n.
Proof.
  intro H. rewrite !input_value_option. unfold set_on. cbn [inputs with_inputs].
  rewrite find_set_named_other by exact H. reflexivity.
Qed.

End LampTree.

Section LampRun.

Import graph.

Variable template : string -> Node.

(** The node called [k] heads the new part of the tree. *)
Lemma node_named_head (K N : list Node) (P : Node) (L : list Link) (k : nat) :
  (forall n, In n K -> (name n < k)%nat) -> name P = k ->
  node_named k (mkNodeTree (K ++ P :: N) L) = Some P.
Proof.
  intros HK HP. rewrite (node_named_new K (P :: N) L k k HK) by lia.
  cbn. rewrite HP, Nat.eqb_refl. reflexivity.
Qed.

Lemma update_node_head (K N : list Node) (P : Node) (L : list Link) (k : nat)
                       (g : Node -> Node) :
  (forall n, In n K -> (name n < k)%nat) -> name P = k ->
  (forall n, In n N -> name n <> k) ->
  update_node k g (mkNodeTree (K ++ P :: N) L) = mkNodeTree (K ++ g P :: N) L.
Proof.
  intros HK HP HN. rewrite (update_node_new K (P :: N) L k k g HK) by lia.
  cbn [map]. rewrite HP, Nat.eqb_refl, map_update_others by exact HN.
  reflexivity.
Qed.

Lemma set_input_head (K N : list Node) (P : Node) (L : list Link) (k : nat)
                     (s : string) (v : Q) :
  (forall n, In n K -> (name n < k)%nat) -> name P = k ->
  (forall n, In n N -> name n <> k) -> has_input s P = true ->
  set_input k s v (mkNodeTree (K ++ P :: N) L)
  = Ok (mkNodeTree (K ++ set_on s v P :: N) L).
Proof.
  intros HK HP HN Hs. unfold set_input.
  rewrite node_named_head, Hs, update_node_head by assumption. reflexivity.
Qed.

Lemma set_input_if_present_head (K N : list Node) (P : Node) (L : list Link)
                                (k : nat) (s : string) (v : Q) :
  (forall n, In n K -> (name n < k)%nat) -> name P = k ->
  (forall n, In n N -> name n <> k) ->
  set_input_if_present k s v (mkNodeTree (K ++ P :: N) L)
  = mkNodeTree (K ++ set_if_present s v P :: N) L.
Proof.
  intros HK HP HN. unfold set_input_if_present, set_input, set_if_present.
  rewrite node_named_head by assumption.
  destruct (has_input s P); [|reflexivity].
  rewrite update_node_head by assumption. reflexivity.
Qed.

Lemma set_first_input_head (K N : list Node) (P : Node) (L : list Link)
                           (k : nat) (v : Q) :
  (forall n, In n K -> (name n < k)%nat) -> name P = k ->
  (forall n, In n N -> name n <> k) -> inputs P <> [] ->
  set_first_input k v (mkNodeTree (K ++ P :: N) L)
  = Ok (mkNodeTree (K ++ set_first_on v P :: N) L).
Proof.
  intros HK HP HN Hi. unfold set_first_input.
  rewrite node_named_head by assumption.
  destruct (inputs P) eqn:E; [contradiction|].
  rewrite update_node_head by assumption. reflexivity.
Qed.

Lemma output_socket_head (K N : list Node) (P : Node) (L : list Link)
                          (k : nat) (s : string) :
  (forall n, In n K -> (name n < k)%nat) -> name P = k ->
  has_output s P = true ->
  output_socket k s (mkNodeTree (K ++ P :: N) L) = Ok s.
Proof.
  intros HK HP Hs. unfold output_socket.
  rewrite node_named_head, Hs by assumption. reflexivity.
Qed.

Lemma input_socket_head (K N : list Node) (P : Node) (L : list Link)
                         (k : nat) (s : string) :
  (forall n, In n K -> (name n < k)%nat) -> name P = k ->
  has_input s P = true ->
  input_socket k s (mkNodeTree (K ++ P :: N) L) = Ok s.
Proof.
  intros HK HP Hs. unfold input_socket.
  rewrite node_named_head, Hs by assumption. reflexivity.
Qed.

Lemma first_output_socket_head (K N : list Node) (P : Node) (L : list Link)
                               (k : nat) (s : string) :
  (forall n, In n K -> (name n < k)%nat) -> name P = k ->
  option_map out_name (hd_error (outputs P)) = Some s ->
  first_output_socket k (mkNodeTree (K ++ P :: N) L) = Ok s.
Proof.
  intros HK HP Hs. unfold first_output_socket.
  rewrite node_named_head by assumption.
  destruct (outputs P) as [|o r]; [discriminate|].
  cbn in Hs. injection Hs as ->. reflexivity.
Qed.

Lemma location_of_head (K N : list Node) (P : Node) (L : list Link) (k : nat) :
  (forall n, In n K -> (name n < k)%nat) -> name P = k ->
  location_of k (mkNodeTree (K ++ P :: N) L) = location P.
Proof.
  intros HK HP. unfold location_of.
  rewrite node_named_head by assumption. reflexivity.
Qed.

(** An old node is found by its name. *)
Lemma node_named_old (K N : list Node) (L : list Link) (o : Node) :
  NoDup (map name K) -> In o K ->
  node_named (name o) (mkNodeTree (K ++ N) L) = Some o.
Proof.
  intros Hnd Ho. unfold node_named. cbn [nodes]. rewrite find_app_nodes.
  destruct (find (fun n => (name n =? name o)%nat) K) as [m|] eqn:E.
  - apply find_some in E. destruct E as [Hm E]. apply Nat.eqb_eq in E.
    f_equal. exact (same_name_same_node K m o Hnd Hm Ho E).
  - exfalso. apply (find_none _ _ E) in Ho. rewrite Nat.eqb_refl in Ho.
    discriminate.
Qed.

Lemma set_if_present_skeleton (s : string) (v : Q) (n : Node) :
  name (set_if_present s v n) = name n /\
  type (set_if_present s v n) = type n /\
  location (set_if_present s v n) = location n /\
  outputs (set_if_present s v n) = outputs n /\
  (forall s', has_input s' (set_if_present s v n) = has_input s' n).
Proof.
  unfold set_if_present. destruct (has_input s n).
  - apply set_on_skeleton.
  - repeat split.
Qed.

Lemma name_set_if_present (s : string) (v : Q) (n : Node) :
  name (set_if_present s v n) = name n.
Proof. apply set_if_present_skeleton. Qed.

Lemma location_set_if_present (s : string) (v : Q) (n : Node) :
  location (set_if_present s v n) = location n.
Proof. apply set_if_present_skeleton. Qed.

Lemma has_input_set_if_present (s s' : string) (v : Q) (n : Node) :
  has_input s' (set_if_present s v n) = has_input s' n.
Proof. apply set_if_present_skeleton. Qed.

Lemma has_input_set_on (s s' : string) (v : Q) (n : Node) :
  has_input s' (set_on s v n) = has_input s' n.
Proof. apply set_on_skeleton. Qed.

Lemma links_new_tree (from to : nat) (a b : string) (N : list Node)
                     (L : list Link) :
  links_new from a to b (mkNodeTree N L)
  = mkNodeTree N (filter (fun l => negb (into to b l)) L
                  ++ [mkLink from a to b]).
Proof. reflexivity. Qed.

(** The new Principled BSDF: what it is, and what it holds. *)
Lemma lamp_principled_skeleton (k : nat) :
  let P := lamp_principled template k in
  let T := template "ShaderNodeBsdfPrincipled" in
  name P = k /\ type P = type T /\ location P = (0, 300) /\
  outputs P = outputs T /\ (forall s, has_input s P = has_input s T).
Proof.
  cbv zeta. unfold lamp_principled.
  repeat match goal with
  | |- context [set_if_present ?s ?v ?n] =>
      let H := fresh in
      destruct (set_if_present_skeleton s v n) as (-> & -> & -> & -> & H);
      setoid_rewrite H; clear H
  | |- context [set_on ?s ?v ?n] =>
      let H := fresh in
      destruct (set_on_skeleton s v n) as (-> & -> & -> & -> & H);
      setoid_rewrite H; clear H
  end.
  repeat split.
Qed.

End LampRun.

Section LampTreeRun.
Import graph.
Variable template : string -> Node.

(** What [lamp_tree] returns on a tree the host keeps well named: the
    nodes that survive the sweep, then the new Principled BSDF, an output
    node if none was left, and the new Blackbody, with the two links. *)
Lemma lamp_tree_run (t0 : NodeTree) :
  host_templates template -> well_named t0 -> host_nodes t0 ->
  let t1 := clean_sweep t0 in
  let K := nodes t1 in
  let f := fresh t1 in
  let N := match first_node (is_type "OUTPUT_MATERIAL") t1 with
           | Some _ => []
           | None => [lamp_output template (S f)]
           end in
  let out := match first_node (is_type "OUTPUT_MATERIAL") t1 with
             | Some o => name o
             | None => S f
             end in
  let b := (S f + List.length N)%nat in
  lamp_tree template t0
  = Ok (mkNodeTree
          (K ++ lamp_principled template f :: N ++ [lamp_blackbody template b])
          (filter (fun l => negb (into f "Emission Color" l))
                  (filter (fun l => negb (into out "Surface" l)) (links t1)
                   ++ [mkLink f "BSDF" out "Surface"])
           ++ [mkLink b "Color" f "Emission Color"])).
Proof.
  intros Htpl Hwn Hhost. cbv zeta. unfold lamp_tree.
  pose proof (clean_sweep_nodes t0 Hwn) as HK.
  destruct (clean_sweep t0) as [K L1]. cbn [nodes links] in *.
  assert (HKf : forall n, In n K -> (name n < fresh (mkNodeTree K L1))%nat)
    by (intros n Hn; apply name_lt_fresh; exact Hn).
  assert (Hf : fresh (mkNodeTree K L1) = S (fold_right Nat.max 0%nat (map name K)))
    by reflexivity.
  set (f := fresh (mkNodeTree K L1)) in *.
  destruct Htpl as (HPt & HPbsdf & HPsh & HPm & HPr & HPi & HPe & HOt & HOs
                    & HBt & HBi & HBc & HBo).
  assert (HndK : NoDup (map name K))
    by (rewrite HK; apply NoDup_names_filter; exact Hwn).
  unfold first_node at 2 3 4 5 6. cbn [nodes].
  set (N := match find (is_type "OUTPUT_MATERIAL") K with
            | Some _ => []
            | None => [lamp_output template (S f)]
            end).
  set (out := match find (is_type "OUTPUT_MATERIAL") K with
              | Some o => name o
              | None => S f
              end).
  assert (HN1 : forall n, In n N -> (f < name n < S f + List.length N)%nat).
  { subst N. destruct (find (is_type "OUTPUT_MATERIAL") K); intros m Hm.
    - destruct Hm.
    - destruct Hm as [<- | []]. cbn. lia. }
  assert (HN2 : forall P L, name P = f ->
                  fresh (mkNodeTree (K ++ P :: N) L) = (S f + List.length N)%nat).
  { intros P L HP. rewrite (fresh_new K (P :: N) L f Hf). cbn [map fold_right].
    rewrite HP. subst N. destruct (find (is_type "OUTPUT_MATERIAL") K); cbn; lia. }
  assert (HN3 : forall P L, name P = f ->
                  input_socket out "Surface" (mkNodeTree (K ++ P :: N) L)
                  = Ok "Surface").
  { intros P L HP. subst N out.
    destruct (find (is_type "OUTPUT_MATERIAL") K) as [o|] eqn:Eo.
    - apply find_some in Eo. destruct Eo as [Ho Eo].
      unfold input_socket. rewrite node_named_old by assumption.
      assert (Ho0 : In o (nodes t0))
        by (rewrite HK in Ho; apply filter_In in Ho; tauto).
      destruct (Hhost o Ho0) as (_ & _ & Hs). rewrite (Hs Eo). reflexivity.
    - unfold input_socket.
      rewrite (node_named_new K _ L f (S f) HKf) by lia.
      cbn [find]. rewrite HP.
      replace (f =? S f)%nat with false by (symmetry; apply Nat.eqb_neq; lia).
      cbn [name lamp_output with_location with_name]. rewrite Nat.eqb_refl.
      unfold has_input, lamp_output in *. cbn [inputs with_location with_name].
      rewrite HOs. reflexivity. }
  set (P0 := with_name f (template "ShaderNodeBsdfPrincipled")).
  set (P1 := with_location (0, 300) P0).
  assert (HM : match first_node (is_type "OUTPUT_MATERIAL")
                       (mkNodeTree (K ++ [P1]) L1) with
               | Some n => (name n, mkNodeTree (K ++ [P1]) L1)
               | None =>
                   let '(n, t1) := nodes_new template "ShaderNodeOutputMaterial"
                                     (mkNodeTree (K ++ [P1]) L1) in
                   (name n, update_node (name n) (with_location (300, 300)) t1)
               end = (out, mkNodeTree (K ++ P1 :: N) L1)).
  { unfold first_node. cbn [nodes]. rewrite find_app_nodes. subst N out.
    destruct (find (is_type "OUTPUT_MATERIAL") K) as [o|] eqn:Eo; [reflexivity|].
    cbn [find]. unfold is_type at 1. cbn [type P1 P0 with_location with_name].
    rewrite HPt. cbn [String.eqb Ascii.eqb Bool.eqb].
    unfold nodes_new. rewrite (fresh_new K [P1] L1 f Hf).
    cbn [map fold_right name P1 P0 with_location with_name nodes links].
    replace (S (Nat.max (f - 1) (Nat.max f 0))) with (S f) by lia.
    rewrite <- app_assoc. cbn [app].
    rewrite (update_node_new K _ L1 f (S f) _ HKf) by lia.
    cbn [map name with_name P1 P0 with_location].
    replace (f =? S f)%nat with false by (symmetry; apply Nat.eqb_neq; lia).
    rewrite Nat.eqb_refl. reflexivity. }
  unfold nodes_new at 1. cbn [nodes links name with_name fst snd]. fold f P0.
  rewrite (update_node_head K [] P0 L1 f)
    by (try assumption; try reflexivity; intros ? []).
  fold P1. rewrite HM. clear HM. cbv beta iota.
  assert (HNf : forall n, In n N -> name n <> f)
    by (intros n Hn; specialize (HN1 n Hn); lia).
  clearbody N out.
  rewrite output_socket_head by (try assumption; reflexivity || exact HPbsdf).
  cbn [bind]. rewrite HN3 by reflexivity. cbn [bind].
  rewrite links_new_tree.
  rewrite set_input_head by (try assumption; reflexivity || exact HPm).
  cbn [bind].
  rewrite set_input_head
    by (try assumption; try reflexivity; rewrite !has_input_set_on; exact HPr).
  cbn [bind].
  rewrite set_input_head
    by (try assumption; try reflexivity; rewrite !has_input_set_on; exact HPi).
  cbn [bind].
  rewrite !set_input_if_present_head
    by (try assumption; rewrite ?name_set_if_present; reflexivity).
  change (set_if_present "Sheen Weight" 0 _) with (lamp_principled template f).
  set (P := lamp_principled template f).
  destruct (lamp_principled_skeleton template f) as (HPn & _ & HPl & _ & HPh).
  cbv zeta in HPn, HPl, HPh. fold P in HPn, HPl, HPh.
  set (L2 := filter _ L1 ++ _).
  unfold nodes_new. rewrite (HN2 P L2 HPn). cbn [nodes links name with_name].
  set (b := (S f + List.length N)%nat).
  assert (Hloc : forall B, location_of f (mkNodeTree ((K ++ P :: N) ++ B) L2)
                           = (0, 300)).
  { intro B. rewrite <- app_assoc. cbn [app].
    rewrite (location_of_head K _ P L2 f HKf HPn). exact HPl. }
  rewrite Hloc. cbn [fst snd].
  assert (HKb : forall n, In n (K ++ P :: N) -> (name n < b)%nat).
  { intros n Hn. apply in_app_or in Hn. destruct Hn as [Hn | [<- | Hn]].
    - specialize (HKf n Hn). lia.
    - lia.
    - specialize (HN1 n Hn). lia. }
  rewrite (update_node_head (K ++ P :: N) [] _ L2 b)
    by (try assumption; try reflexivity; intros ? []).
  rewrite (set_first_input_head (K ++ P :: N) [] _ L2 b)
    by (try assumption; try reflexivity; try (intros ? []); exact HBi).
  cbn [bind].
  rewrite (first_output_socket_head (K ++ P :: N) [] _ L2 b "Color")
    by (try assumption; try reflexivity; exact HBo).
  cbn [bind]. rewrite <- app_assoc. cbn [app].
  rewrite (input_socket_head K _ P L2 f "Emission Color" HKf HPn)
    by (rewrite HPh; exact HPe).
  cbn [bind]. reflexivity.
Qed.
End LampTreeRun.

Section LampFacts.

Import graph.

Variable template : string -> Node.
Hypothesis Htemplate : host_templates template.

Lemma is_type_eq (s : string) (n : Node) : is_type s n = true <-> type n = s.
Proof. unfold is_type. apply String.eqb_eq. Qed.

Lemma filter_none (f : Node -> bool) (l : list Node) :
  (forall n, In n l -> f n = false) -> filter f l = [].
Proof.
  induction l as [|a l IH]; intro H; [reflexivity|].
  cbn. rewrite (H a) by (left; reflexivity).
  apply IH. intros n Hn. apply H. right. exact Hn.
Qed.

(** What survives the sweep is no Blackbody and, on a host tree, no
    Principled BSDF. *)
Lemma unswept_kinds (t : NodeTree) (n : Node) :
  host_nodes t -> In n (filter (fun n => negb (swept n)) (nodes t)) ->
  swept n = false /\ is_type "BLACKBODY" n = false /\
  is_type "BSDF_PRINCIPLED" n = false.
Proof.
  intros Hhost Hn. apply filter_In in Hn. destruct Hn as [Hn Hs].
  apply negb_true_iff in Hs. split; [exact Hs|].
  unfold swept in Hs. apply orb_false_iff in Hs. destruct Hs as [Hs Hb].
  split; [exact Hb|].
  destruct (is_type "BSDF_PRINCIPLED" n) eqn:Ep; [|reflexivity].
  destruct (Hhost n Hn) as (_ & Hp & _). destruct (Hp Ep) as [_ Hsh].
  rewrite Hsh in Hs. apply is_type_eq in Ep.
  unfold is_type in Hs. rewrite Ep in Hs. discriminate.
Qed.

Lemma lamp_blackbody_facts (k : nat) :
  let B := lamp_blackbody template k in
  name B = k /\ type B = "BLACKBODY" /\ location B = (- (450), 100) /\
  first_input_value B = Some 3500 /\ inputs B <> [] /\
  has_output "Color" B = true.
Proof.
  destruct Htemplate as (_ & _ & _ & _ & _ & _ & _ & _ & _ & HBt & HBi & HBc & _).
  cbv zeta. unfold lamp_blackbody. repeat split; try assumption.
  - unfold first_input_value, set_first_on. cbn.
    destruct (inputs (template "ShaderNodeBlackbody")); [contradiction|].
    reflexivity.
  - unfold set_first_on. cbn.
    destruct (inputs (template "ShaderNodeBlackbody")); [contradiction|].
    discriminate.
Qed.

Lemma lamp_output_facts (k : nat) :
  let O := lamp_output template k in
  name O = k /\ type O = "OUTPUT_MATERIAL" /\ location O = (300, 300) /\
  has_input "Surface" O = true.
Proof.
  destruct Htemplate as (_ & _ & _ & _ & _ & _ & _ & HOt & HOs & _).
  cbv zeta. unfold lamp_output. repeat split; assumption.
Qed.

Lemma set_if_present_value_same (s : string) (v : Q) (n : Node) :
  has_input s n = true -> input_value s (set_if_present s v n) = Some v.
Proof.
  intro H. unfold set_if_present. rewrite H. apply set_on_value_same. exact H.
Qed.

Lemma set_if_present_value_other (s s' : string) (v : Q) (n : Node) :
  s <> s' -> input_value s (set_if_present s' v n) = input_value s n.
Proof.
  intro H. unfold set_if_present. destruct (has_input s' n); [|reflexivity].
  apply set_on_value_other. exact H.
Qed.

Lemma lamp_principled_facts (k : nat) :
  let P := lamp_principled template k in
  name P = k /\ type P = "BSDF_PRINCIPLED" /\ location P = (0, 300) /\
  is_shader P = true /\ has_output "BSDF" P = true /\
  has_input "Emission Color" P = true /\
  input_value "Metallic" P = Some 0 /\
  input_value "Roughness" P = Some (50 # 1000) /\
  input_value "IOR" P = Some (1450 # 1000).
Proof.
  destruct Htemplate as (HPt & HPbsdf & HPsh & HPm & HPr & HPi & HPe & _).
  destruct (lamp_principled_skeleton template k) as (Hn & Ht & Hl & Ho & Hh).
  cbv zeta in *.
  split; [exact Hn|]. split; [rewrite Ht; exact HPt|]. split; [exact Hl|].
  split; [unfold is_shader; rewrite Ho; exact HPsh|].
  split; [unfold has_output; rewrite Ho; exact HPbsdf|].
  split; [rewrite Hh; exact HPe|].
  unfold lamp_principled.
  rewrite !set_if_present_value_other by discriminate.
  repeat split.
  - rewrite !set_on_value_other by discriminate.
    apply set_on_value_same. exact HPm.
  - rewrite !set_on_value_other by discriminate.
    apply set_on_value_same. rewrite has_input_set_on. exact HPr.
  - apply set_on_value_same. rewrite !has_input_set_on. exact HPi.
Qed.

Lemma input_value_absent (s : string) (n : Node) :
  has_input s n = false -> input_value s n = None.
Proof.
  unfold has_input, input_value. intro H.
  destruct (find _ (inputs n)) as [i|] eqn:E; [|reflexivity].
  apply find_some in E. destruct E as [Hi E].
  assert (existsb (fun i => String.eqb (in_name i) s) (inputs n) = true)
    by (apply existsb_exists; exists i; split; assumption).
  congruence.
Qed.

(** The value a guarded assignment leaves in a socket of the new
    Principled BSDF. *)
Lemma lamp_principled_guarded (k : nat) (s : string) (v : Q) :
  In (s, v) [("IOR Level", 705 # 1000); ("Transmission Weight", 1);
             ("Coat Weight", 0); ("Sheen Weight", 0)] ->
  input_value s (lamp_principled template k)
  = if has_input s (template "ShaderNodeBsdfPrincipled") then Some v else None.
Proof.
  intro Hin.
  destruct (has_input s (template "ShaderNodeBsdfPrincipled")) eqn:E.
  - unfold lamp_principled.
    cbn [In] in Hin.
    destruct Hin as [H | [H | [H | [H | []]]]]; injection H as <- <-.
    + rewrite !set_if_present_value_other by discriminate.
      apply set_if_present_value_same. rewrite !has_input_set_on. exact E.
    + rewrite !set_if_present_value_other by discriminate.
      apply set_if_present_value_same.
      rewrite !has_input_set_if_present, !has_input_set_on. exact E.
    + rewrite !set_if_present_value_other by discriminate.
      apply set_if_present_value_same.
      rewrite !has_input_set_if_present, !has_input_set_on. exact E.
    + apply set_if_present_value_same.
      rewrite !has_input_set_if_present, !has_input_set_on. exact E.
  - apply input_value_absent.
    destruct (lamp_principled_skeleton template k) as (_ & _ & _ & _ & Hh).
    cbv zeta in Hh. rewrite Hh. exact E.
Qed.

End LampFacts.

Section LampTheorems.

Import graph.

Variable template : string -> Node.
Hypothesis Htemplate : host_templates template.

Lemma lamp_tree_cases (t0 : NodeTree) :
  well_named t0 -> host_nodes t0 ->
  let K := filter (fun n => negb (swept n)) (nodes t0) in
  let f := S (fold_right Nat.max 0%nat (map name K)) in
  let lamp_links out b :=
    filter (fun l => negb (into f "Emission Color" l))
           (filter (fun l => negb (into out "Surface" l))
                   (links (clean_sweep t0))
            ++ [mkLink f "BSDF" out "Surface"])
    ++ [mkLink b "Color" f "Emission Color"] in
  (exists o, find (is_type "OUTPUT_MATERIAL") K = Some o /\
     lamp_tree template t0
     = Ok (mkNodeTree (K ++ [lamp_principled template f;
                             lamp_blackbody template (S f)])
                      (lamp_links (name o) (S f)))) \/
  (find (is_type "OUTPUT_MATERIAL") K = None /\
   lamp_tree template t0
   = Ok (mkNodeTree (K ++ [lamp_principled template f;
                           lamp_output template (S f);
                           lamp_blackbody template (S (S f))])
                    (lamp_links (S f) (S (S f))))).
Proof.
  intros Hwn Hhost. cbv zeta.
  rewrite (lamp_tree_run template t0 Htemplate Hwn Hhost).
  unfold first_node, fresh. rewrite (clean_sweep_nodes t0 Hwn).
  destruct (find (is_type "OUTPUT_MATERIAL") _) as [o|].
  - left. exists o. split; [reflexivity|].
    cbn [List.length app]. rewrite Nat.add_0_r. reflexivity.
  - right. split; [reflexivity|].
    cbn [List.length app]. rewrite Nat.add_1_r. reflexivity.
Qed.

Lemma find_first_new (f : Node -> bool) (K : list Node) (n : Node)
                     (N : list Node) :
  (forall m, In m K -> f m = false) -> f n = true ->
  find f (K ++ n :: N) = Some n.
Proof.
  intros HK Hn. rewrite find_app_nodes, find_none_iff by exact HK.
  cbn. rewrite Hn. reflexivity.
Qed.

Lemma find_old (f : Node -> bool) (K N : list Node) (o : Node) :
  find f K = Some o -> find f (K ++ N) = Some o.
Proof. intro H. rewrite find_app_nodes, H. reflexivity. Qed.

Lemma count_new (f : Node -> bool) (K N : list Node) (L : list Link) :
  (forall m, In m K -> f m = false) ->
  count f (mkNodeTree (K ++ N) L) = List.length (filter f N).
Proof.
  intro HK. unfold count. cbn [nodes].
  rewrite filter_app, filter_none by exact HK. reflexivity.
Qed.

(** The lamp set-up in the tree [lamp_tree] returns. *)
Lemma lamp_tree_lamp (t0 : NodeTree) :
  well_named t0 -> host_nodes t0 ->
  exists t p b o,
    lamp_tree template t0 = Ok t /\
    first_node (is_type "BSDF_PRINCIPLED") t = Some p /\
    first_node (is_type "BLACKBODY") t = Some b /\
    first_node (is_type "OUTPUT_MATERIAL") t = Some o /\
    count (is_type "BSDF_PRINCIPLED") t = 1%nat /\
    count (is_type "BLACKBODY") t = 1%nat /\
    input_value "Metallic" p = Some 0 /\
    input_value "Roughness" p = Some (50 # 1000) /\
    input_value "IOR" p = Some (1450 # 1000) /\
    first_input_value b = Some 3500 /\
    location p = (0, 300) /\ location b = (- (450), 100) /\
    (forall s v,
       In (s, v) [("IOR Level", 705 # 1000); ("Transmission Weight", 1);
                  ("Coat Weight", 0); ("Sheen Weight", 0)] ->
       input_value s p
       = if has_input s (template "ShaderNodeBsdfPrincipled")
         then Some v else None) /\
    linked (name p) "BSDF" (name o) "Surface" t /\
    linked (name b) "Color" (name p) "Emission Color" t /\
    exists X,
      links t = filter (fun l => negb (into (name p) "Emission Color" l)) X
                ++ [mkLink (name b) "Color" (name p) "Emission Color"].
Proof.
  intros Hwn Hhost.
  pose proof (fun n => unswept_kinds t0 n Hhost) as HK.
  set (K := filter (fun n => negb (swept n)) (nodes t0)) in *.
  set (f := S (fold_right Nat.max 0%nat (map name K))).
  destruct (lamp_principled_facts template Htemplate f)
    as (HPn & HPt & HPl & _ & _ & _ & HPm & HPr & HPi).
  cbv zeta in *. apply is_type_eq in HPt.
  assert (HKp : forall m, In m K -> is_type "BSDF_PRINCIPLED" m = false)
    by (intros m Hm; apply HK; exact Hm).
  assert (HKb : forall m, In m K -> is_type "BLACKBODY" m = false)
    by (intros m Hm; apply HK; exact Hm).
  assert (HBP : forall k, is_type "BSDF_PRINCIPLED" (lamp_blackbody template k)
                          = false).
  { intro k. destruct (lamp_blackbody_facts template Htemplate k) as (_ & Ht & _).
    cbv zeta in Ht. unfold is_type. rewrite Ht. reflexivity. }
  assert (HPB : is_type "BLACKBODY" (lamp_principled template f) = false).
  { apply is_type_eq in HPt. unfold is_type. rewrite HPt. reflexivity. }
  assert (HPO : is_type "OUTPUT_MATERIAL" (lamp_principled template f) = false).
  { apply is_type_eq in HPt. unfold is_type. rewrite HPt. reflexivity. }
  destruct (lamp_tree_cases t0 Hwn Hhost) as [(o & Eo & ->) | (Eo & ->)];
    fold K f; fold K in Eo.
  - destruct (lamp_blackbody_facts template Htemplate (S f))
      as (HBn & HBt & HBl & HBv & _).
    cbv zeta in *. apply is_type_eq in HBt.
    eexists. exists (lamp_principled template f), (lamp_blackbody template (S f)), o.
    split; [reflexivity|]. unfold first_node, linked. cbn [nodes links].
    split; [apply find_first_new; assumption|].
    split. { rewrite find_app_nodes, find_none_iff by exact HKb.
             cbn [find]. rewrite HPB, HBt. reflexivity. }
    split; [apply find_old; exact Eo|].
    split. { rewrite count_new by exact HKp. cbn [filter]. rewrite HPt, HBP. reflexivity. }
    split. { rewrite count_new by exact HKb. cbn [filter]. rewrite HPB, HBt. reflexivity. }
    repeat (split; [assumption|]).
    split; [intros s v; apply lamp_principled_guarded|].
    rewrite HPn, HBn. split; [|split; [|eexists; reflexivity]].
    + apply in_or_app. left. apply filter_In. split.
      * apply in_or_app. right. left. reflexivity.
      * unfold into. cbn [to_node to_socket].
        change (String.eqb "Surface" "Emission Color") with false.
        rewrite andb_false_r. reflexivity.
    + apply in_or_app. right. left. reflexivity.
  - destruct (lamp_blackbody_facts template Htemplate (S (S f)))
      as (HBn & HBt & HBl & HBv & _).
    destruct (lamp_output_facts template Htemplate (S f)) as (HOn & HOt & _).
    cbv zeta in *. apply is_type_eq in HBt.
    eexists. exists (lamp_principled template f),
               (lamp_blackbody template (S (S f))), (lamp_output template (S f)).
    split; [reflexivity|]. unfold first_node, linked. cbn [nodes links].
    assert (HOB : is_type "BLACKBODY" (lamp_output template (S f)) = false)
      by (unfold is_type; rewrite HOt; reflexivity).
    assert (HOP : is_type "BSDF_PRINCIPLED" (lamp_output template (S f)) = false)
      by (unfold is_type; rewrite HOt; reflexivity).
    apply is_type_eq in HOt.
    split; [apply find_first_new; assumption|].
    split. { rewrite find_app_nodes, find_none_iff by exact HKb.
             cbn [find]. rewrite HPB, HOB, HBt. reflexivity. }
    split. { rewrite find_app_nodes, Eo. cbn [find]. rewrite HPO, HOt. reflexivity. }
    split. { rewrite count_new by exact HKp. cbn [filter]. rewrite HPt, HOP, HBP.
             reflexivity. }
    split. { rewrite count_new by exact HKb. cbn [filter]. rewrite HPB, HOB, HBt.
             reflexivity. }
    repeat (split; [assumption|]).
    split; [intros s v; apply lamp_principled_guarded|].
    rewrite HPn, HBn, HOn. split; [|split; [|eexists; reflexivity]].
    + apply in_or_app. left. apply filter_In. split.
      * apply in_or_app. right. left. reflexivity.
      * unfold into. cbn [to_node to_socket].
        change (String.eqb "Surface" "Emission Color") with false.
        rewrite andb_false_r. reflexivity.
    + apply in_or_app. right. left. reflexivity.
Qed.

(** X21.  On a tree of the host, [make_it_lamp] finishes and leaves the
    lamp set-up: one Principled BSDF with the glass presets, linked into the
    surface of the material output, and one Blackbody at 3500 K linked to
    its emission colour.  Each of the four sockets set under a guard holds
    its preset where the new Principled BSDF has the socket, and is simply
    absent where it has not.  The emission properties are not touched. *)
Theorem make_it_lamp_builds_lamp (mat : Material) :
  well_named (node_tree mat) -> host_nodes (node_tree mat) ->
  exists t p b o,
    make_it_lamp template (mkContext (Some (Some mat)))
    = FINISHED (Some (mkMaterial (emission_props mat) true t))
               [("INFO", "Material purged and PBR Lamp setup applied cleanly.")] /\
    first_node (is_type "BSDF_PRINCIPLED") t = Some p /\
    first_node (is_type "BLACKBODY") t = Some b /\
    first_node (is_type "OUTPUT_MATERIAL") t = Some o /\
    count (is_type "BSDF_PRINCIPLED") t = 1%nat /\
    count (is_type "BLACKBODY") t = 1%nat /\
    input_value "Metallic" p = Some 0 /\
    input_value "Roughness" p = Some (50 # 1000) /\
    input_value "IOR" p = Some (1450 # 1000) /\
    first_input_value b = Some 3500 /\
    location p = (0, 300) /\ location b = (- (450), 100) /\
    (forall s v,
       In (s, v) [("IOR Level", 705 # 1000); ("Transmission Weight", 1);
                  ("Coat Weight", 0); ("Sheen Weight", 0)] ->
       input_value s p
       = if has_input s (template "ShaderNodeBsdfPrincipled")
         then Some v else None) /\
    linked (name p) "BSDF" (name o) "Surface" t /\
    linked (name b) "Color" (name p) "Emission Color" t.
Proof.
  intros Hwn Hhost. unfold make_it_lamp. cbn [object].
  destruct (lamp_tree_lamp (node_tree mat) Hwn Hhost)
    as (t & p & b & o & -> & H).
  exists t, p, b, o. split; [reflexivity|]. tauto.
Qed.

End LampTheorems.

Section SweepLinks.

Import graph.

Lemma filter_filter_links (f g : Link -> bool) (l : list Link) :
  filter f (filter g l) = filter (fun n => g n && f n) l.
Proof.
  induction l as [|a l IH]; [reflexivity|].
  cbn. destruct (g a); cbn; [destruct (f a)|]; rewrite IH; reflexivity.
Qed.

Lemma sweep_snapshot_links (l : list Node) :
  forall t,
    links (fold_left (fun t n => if swept n then nodes_remove (name n) t else t)
                     l t)
    = filter (fun k =>
                negb (existsb (fun n => swept n && (name n =? from_node k)%nat) l)
                && negb (existsb (fun n => swept n && (name n =? to_node k)%nat) l))
             (links t).
Proof.
  induction l as [|a l IH]; intro t; cbn [fold_left existsb].
  - cbn. symmetry. apply filter_everything.
  - rewrite IH. destruct (swept a); cbn [andb orb].
    + cbn [links nodes_remove]. rewrite filter_filter_links.
      apply filter_ext. intro k.
      rewrite (Nat.eqb_sym (name a) (from_node k)).
      rewrite (Nat.eqb_sym (name a) (to_node k)).
      destruct (from_node k =? name a)%nat, (to_node k =? name a)%nat;
        cbn [negb andb orb]; try reflexivity.
      destruct (existsb _ l); reflexivity.
    + reflexivity.
Qed.

(** The sweep keeps the links that touch no swept node. *)
Lemma clean_sweep_links (t : NodeTree) :
  links (clean_sweep t)
  = filter (fun k => negb (swept_name t (from_node k))
                     && negb (swept_name t (to_node k)))
           (links t).
Proof. unfold clean_sweep. apply sweep_snapshot_links. Qed.

(** In a well-named tree, the name of an unswept node is no swept name. *)
Lemma unswept_name (t : NodeTree) (n : Node) :
  well_named t -> In n (nodes t) -> swept n = false ->
  swept_name t (name n) = false.
Proof.
  intros Hnd Hn Hs. unfold swept_name.
  destruct (existsb _ (nodes t)) eqn:E; [|reflexivity].
  apply existsb_exists in E. destruct E as (m & Hm & Hc).
  apply andb_prop in Hc. destruct Hc as [Hsm Hname].
  apply Nat.eqb_eq in Hname.
  rewrite (same_name_same_node _ m n Hnd Hm Hn Hname) in Hsm. congruence.
Qed.

End SweepLinks.

Section LampTreeHost.

Import graph.

Variable template : string -> Node.
Hypothesis Htemplate : host_templates template.

Lemma NoDup_names_new (K : list Node) (ks : list nat) (N : list Node) :
  NoDup (map name K) -> map name N = ks -> NoDup ks ->
  (forall k, In k ks -> (fold_right Nat.max 0%nat (map name K) < k)%nat) ->
  NoDup (map name (K ++ N)).
Proof.
  intros HK HN Hks Hlt. rewrite map_app, HN.
  induction K as [|a K IH]; [exact Hks|].
  cbn in *. inversion HK as [|x xs Hnotin HK']; subst.
  constructor.
  - intro Hin. apply in_app_or in Hin. destruct Hin as [Hin | Hin].
    + contradiction.
    + specialize (Hlt _ Hin). lia.
  - apply IH; [exact HK'|]. intros k Hk. specialize (Hlt k Hk). lia.
Qed.

(** The lamp tree is again a tree of the host. *)
Lemma lamp_tree_host (t0 : NodeTree) :
  well_named t0 -> host_nodes t0 ->
  exists t, lamp_tree template t0 = Ok t /\ well_named t /\ host_nodes t.
Proof.
  intros Hwn Hhost.
  pose proof (fun n => unswept_kinds t0 n Hhost) as HK.
  assert (HndK : NoDup (map name (filter (fun n => negb (swept n)) (nodes t0))))
    by (apply NoDup_names_filter; exact Hwn).
  assert (HKhost : forall n, In n (filter (fun n => negb (swept n)) (nodes t0)) ->
                     In n (nodes t0))
    by (intros n Hn; apply filter_In in Hn; tauto).
  set (K := filter (fun n => negb (swept n)) (nodes t0)) in *.
  set (f := S (fold_right Nat.max 0%nat (map name K))).
  destruct (lamp_principled_facts template Htemplate f)
    as (HPn & HPt & _ & HPs & _ & HPe & _).
  assert (Hnew : forall n,
            n = lamp_principled template f \/
            (exists k, n = lamp_output template k) \/
            (exists k, n = lamp_blackbody template k) ->
            (is_type "BLACKBODY" n = true ->
             inputs n <> [] /\ has_output "Color" n = true) /\
            (is_type "BSDF_PRINCIPLED" n = true ->
             has_input "Emission Color" n = true /\ is_shader n = true) /\
            (is_type "OUTPUT_MATERIAL" n = true ->
             has_input "Surface" n = true)).
  { intros n [-> | [[k ->] | [k ->]]].
    - cbv zeta in *. unfold is_type. rewrite HPt.
      split; [intro Hc; vm_compute in Hc; discriminate Hc|].
      split; [intros _; split; assumption|].
      intro Hc; vm_compute in Hc; discriminate Hc.
    - destruct (lamp_output_facts template Htemplate k) as (_ & HOt & _ & HOs).
      cbv zeta in *. unfold is_type. rewrite HOt.
      split; [intro Hc; vm_compute in Hc; discriminate Hc|].
      split; [intro Hc; vm_compute in Hc; discriminate Hc|].
      intros _. assumption.
    - destruct (lamp_blackbody_facts template Htemplate k)
        as (_ & HBt & _ & _ & HBi & HBc).
      cbv zeta in *. unfold is_type. rewrite HBt.
      split; [intros _; split; assumption|].
      split; intro Hc; vm_compute in Hc; discriminate Hc. }
  destruct (lamp_tree_cases template Htemplate t0 Hwn Hhost)
    as [(o & _ & ->) | (_ & ->)]; fold K f; eexists; (split; [reflexivity|]).
  - split.
    + unfold well_named. cbn [nodes].
      apply (NoDup_names_new K [f; S f]); try assumption.
      * cbn [map]. rewrite HPn.
        destruct (lamp_blackbody_facts template Htemplate (S f)) as (-> & _).
        reflexivity.
      * repeat constructor; cbn; lia.
      * intros k [<- | [<- | []]]; unfold f; lia.
    + intros n Hn. cbn [nodes] in Hn. apply in_app_or in Hn.
      destruct Hn as [Hn | [<- | [<- | []]]].
      * apply Hhost, HKhost, Hn.
      * apply Hnew. left. reflexivity.
      * apply Hnew. right. right. eexists. reflexivity.
  - split.
    + unfold well_named. cbn [nodes].
      apply (NoDup_names_new K [f; S f; S (S f)]); try assumption.
      * cbn [map]. rewrite HPn.
        destruct (lamp_blackbody_facts template Htemplate (S (S f))) as (-> & _).
        destruct (lamp_output_facts template Htemplate (S f)) as (-> & _).
        reflexivity.
      * repeat constructor; cbn; lia.
      * intros k [<- | [<- | [<- | []]]]; unfold f; lia.
    + intros n Hn. cbn [nodes] in Hn. apply in_app_or in Hn.
      destruct Hn as [Hn | [<- | [<- | [<- | []]]]].
      * apply Hhost, HKhost, Hn.
      * apply Hnew. left. reflexivity.
      * apply Hnew. right. left. eexists. reflexivity.
      * apply Hnew. right. right. eexists. reflexivity.
Qed.

End LampTreeHost.

Section LampFrame.

Import graph.

Variable template : string -> Node.
Hypothesis Htemplate : host_templates template.

Lemma find_filter_nodes (f g : Node -> bool) (l : list Node) :
  (forall n, f n = true -> g n = true) -> find f (filter g l) = find f l.
Proof.
  intro H. induction l as [|a l IH]; [reflexivity|].
  cbn. destruct (f a) eqn:E.
  - rewrite (H a E). cbn. rewrite E. reflexivity.
  - destruct (g a); [cbn; rewrite E|]; exact IH.
Qed.

(** The sweep never takes an output node. *)
Lemma output_not_swept (n : Node) :
  is_type "OUTPUT_MATERIAL" n = true -> negb (swept n) = true.
Proof.
  intro H. unfold swept. rewrite H. apply is_type_eq in H.
  unfold is_type. rewrite H. cbn [negb]. rewrite andb_false_r. reflexivity.
Qed.

(** X22.  [make_it_lamp] keeps, in their order, the nodes that are neither a
    shader other than the output nor a Blackbody, and puts two new nodes
    after them, or three when the material had no output node. *)
Theorem make_it_lamp_keeps_other_nodes (mat : Material) :
  well_named (node_tree mat) -> host_nodes (node_tree mat) ->
  exists t new log,
    make_it_lamp template (mkContext (Some (Some mat)))
    = FINISHED (Some (mkMaterial (emission_props mat) true t)) log /\
    nodes t = filter (fun n => negb (swept n)) (nodes (node_tree mat)) ++ new /\
    List.length new
    = match first_node (is_type "OUTPUT_MATERIAL") (node_tree mat) with
      | Some _ => 2%nat
      | None => 3%nat
      end.
Proof.
  intros Hwn Hhost. unfold make_it_lamp, first_node. cbn [object].
  rewrite <- (find_filter_nodes (is_type "OUTPUT_MATERIAL")
                (fun n => negb (swept n)) (nodes (node_tree mat))
                output_not_swept).
  destruct (lamp_tree_cases template Htemplate (node_tree mat) Hwn Hhost)
    as [(o & Eo & ->) | (Eo & ->)]; rewrite Eo;
    eexists; eexists; eexists; (split; [reflexivity|]);
    (split; [reflexivity|]); reflexivity.
Qed.

Lemma in_lamp_links (L1 : list Link) (f out b : nat) (l : Link) :
  In l (filter (fun l => negb (into f "Emission Color" l))
               (filter (fun l => negb (into out "Surface" l)) L1
                ++ [mkLink f "BSDF" out "Surface"])
        ++ [mkLink b "Color" f "Emission Color"])
  <-> l = mkLink f "BSDF" out "Surface" \/
      l = mkLink b "Color" f "Emission Color" \/
      (In l L1 /\ into out "Surface" l = false /\
       into f "Emission Color" l = false).
Proof.
  rewrite in_app_iff, filter_In, in_app_iff, filter_In.
  rewrite !negb_true_iff. cbn [In]. split.
  - intros [[[[H1 H2] | [<- | []]] H3] | [<- | []]]; tauto.
  - intros [-> | [-> | (H1 & H2 & H3)]].
    + left. split; [right; left; reflexivity|].
      unfold into. cbn [to_node to_socket].
      change (String.eqb "Surface" "Emission Color") with false.
      apply andb_false_r.
    + right. left. reflexivity.
    + left. split; [left; split; assumption | assumption].
Qed.

(** X23.  The links [make_it_lamp] leaves are the two new ones and, of the old
    ones, those that touch no removed node and do not feed the surface of
    the output, which the new shader takes over. *)
Theorem make_it_lamp_links (mat : Material) :
  well_named (node_tree mat) -> host_nodes (node_tree mat) ->
  exists t p b o log,
    make_it_lamp template (mkContext (Some (Some mat)))
    = FINISHED (Some (mkMaterial (emission_props mat) true t)) log /\
    first_node (is_type "BSDF_PRINCIPLED") t = Some p /\
    first_node (is_type "BLACKBODY") t = Some b /\
    first_node (is_type "OUTPUT_MATERIAL") t = Some o /\
    forall l,
      In l (links t) <->
      l = mkLink (name p) "BSDF" (name o) "Surface" \/
      l = mkLink (name b) "Color" (name p) "Emission Color" \/
      (In l (links (node_tree mat)) /\
       swept_name (node_tree mat) (from_node l) = false /\
       swept_name (node_tree mat) (to_node l) = false /\
       into (name o) "Surface" l = false /\
       into (name p) "Emission Color" l = false).
Proof.
  intros Hwn Hhost. unfold make_it_lamp. cbn [object].
  pose proof (fun n => unswept_kinds (node_tree mat) n Hhost) as HK.
  set (K := filter (fun n => negb (swept n)) (nodes (node_tree mat))) in *.
  set (f := S (fold_right Nat.max 0%nat (map name K))).
  destruct (lamp_principled_facts template Htemplate f) as (HPn & HPt & _).
  cbv zeta in *. apply is_type_eq in HPt.
  assert (HKp : forall m, In m K -> is_type "BSDF_PRINCIPLED" m = false)
    by (intros m Hm; apply HK; exact Hm).
  assert (HKb : forall m, In m K -> is_type "BLACKBODY" m = false)
    by (intros m Hm; apply HK; exact Hm).
  assert (HPB : is_type "BLACKBODY" (lamp_principled template f) = false).
  { apply is_type_eq in HPt. unfold is_type. rewrite HPt. reflexivity. }
  assert (HPO : is_type "OUTPUT_MATERIAL" (lamp_principled template f) = false).
  { apply is_type_eq in HPt. unfold is_type. rewrite HPt. reflexivity. }
  assert (Hold : forall l,
            In l (links (clean_sweep (node_tree mat))) <->
            In l (links (node_tree mat)) /\
            swept_name (node_tree mat) (from_node l) = false /\
            swept_name (node_tree mat) (to_node l) = false).
  { intro l. rewrite clean_sweep_links, filter_In, andb_true_iff.
    rewrite !negb_true_iff. tauto. }
  destruct (lamp_tree_cases template Htemplate (node_tree mat) Hwn Hhost)
    as [(o & Eo & ->) | (Eo & ->)]; fold K f; fold K in Eo.
  - destruct (lamp_blackbody_facts template Htemplate (S f)) as (HBn & HBt & _).
    cbv zeta in *. apply is_type_eq in HBt.
    eexists. exists (lamp_principled template f), (lamp_blackbody template (S f)), o.
    eexists. split; [reflexivity|]. unfold first_node. cbn [nodes links].
    split; [apply find_first_new; assumption|].
    split. { rewrite find_app_nodes, find_none_iff by exact HKb.
             cbn [find]. rewrite HPB, HBt. reflexivity. }
    split; [apply find_old; exact Eo|].
    intro l. rewrite HPn, HBn, in_lamp_links, Hold. tauto.
  - destruct (lamp_blackbody_facts template Htemplate (S (S f)))
      as (HBn & HBt & _).
    destruct (lamp_output_facts template Htemplate (S f)) as (HOn & HOt & _).
    cbv zeta in *. apply is_type_eq in HBt.
    assert (HOB : is_type "BLACKBODY" (lamp_output template (S f)) = false)
      by (unfold is_type; rewrite HOt; reflexivity).
    apply is_type_eq in HOt.
    eexists. exists (lamp_principled template f),
               (lamp_blackbody template (S (S f))), (lamp_output template (S f)).
    eexists. split; [reflexivity|]. unfold first_node. cbn [nodes links].
    split; [apply find_first_new; assumption|].
    split. { rewrite find_app_nodes, find_none_iff by exact HKb.
             cbn [find]. rewrite HPB, HOB, HBt. reflexivity. }
    split. { rewrite find_app_nodes, Eo. cbn [find]. rewrite HPO, HOt.
             reflexivity. }
    intro l. rewrite HPn, HBn, HOn, in_lamp_links, Hold. tauto.
Qed.

Lemma filter_all (f : Node -> bool) (l : list Node) :
  (forall n, In n l -> f n = true) -> filter f l = l.
Proof.
  induction l as [|a l IH]; intro H; [reflexivity|].
  cbn. rewrite (H a) by (left; reflexivity).
  f_equal. apply IH. intros n Hn. apply H. right. exact Hn.
Qed.

(** A second sweep takes the new Principled BSDF and the new Blackbody,
    and nothing else. *)
Lemma sweep_of_lamp (K N : list Node) (k b : nat) :
  (forall n, In n K -> swept n = false) ->
  (forall n, In n N -> is_type "OUTPUT_MATERIAL" n = true) ->
  filter (fun n => negb (swept n))
         (K ++ lamp_principled template k :: N ++ [lamp_blackbody template b])
  = K ++ N.
Proof.
  intros HK HN.
  destruct (lamp_principled_facts template Htemplate k)
    as (_ & HPt & _ & HPs & _).
  destruct (lamp_blackbody_facts template Htemplate b) as (_ & HBt & _).
  cbv zeta in *.
  rewrite filter_app.
  rewrite (filter_all _ K) by (intros n Hn; rewrite (HK n Hn); reflexivity).
  f_equal. cbn [filter].
  replace (swept (lamp_principled template k)) with true.
  2:{ unfold swept, is_type. rewrite HPs, HPt. reflexivity. }
  cbn [negb]. rewrite filter_app.
  rewrite (filter_all _ N)
    by (intros n Hn; apply output_not_swept, HN, Hn).
  cbn [filter].
  replace (swept (lamp_blackbody template b)) with true.
  2:{ unfold swept, is_type. rewrite HBt. cbn. rewrite orb_true_r. reflexivity. }
  cbn [negb]. apply app_nil_r.
Qed.

Lemma sweep_of_lamp2 (K : list Node) (k b : nat) :
  (forall n, In n K -> swept n = false) ->
  filter (fun n => negb (swept n))
         (K ++ [lamp_principled template k; lamp_blackbody template b])
  = K.
Proof.
  intro HK. rewrite <- (app_nil_r K) at 2.
  apply (sweep_of_lamp K [] k b HK). intros ? [].
Qed.

Lemma sweep_of_lamp3 (K : list Node) (k j b : nat) :
  (forall n, In n K -> swept n = false) ->
  filter (fun n => negb (swept n))
         (K ++ [lamp_principled template k; lamp_output template j;
                lamp_blackbody template b])
  = K ++ [lamp_output template j].
Proof.
  intro HK. apply (sweep_of_lamp K [lamp_output template j] k b HK).
  intros n [<- | []]. apply is_type_eq.
  apply (lamp_output_facts template Htemplate j).
Qed.

(** X24.  Run a second time, [make_it_lamp] replaces the Principled BSDF and
    the Blackbody it made by new ones: the other nodes stay, and the tree
    has as many nodes as before. *)
Theorem make_it_lamp_again (mat : Material) :
  well_named (node_tree mat) -> host_nodes (node_tree mat) ->
  exists t1 t2 log,
    make_it_lamp template (mkContext (Some (Some mat)))
    = FINISHED (Some (mkMaterial (emission_props mat) true t1)) log /\
    make_it_lamp template
      (mkContext (Some (Some (mkMaterial (emission_props mat) true t1))))
    = FINISHED (Some (mkMaterial (emission_props mat) true t2)) log /\
    List.length (nodes t2) = List.length (nodes t1) /\
    filter (fun n => negb (swept n)) (nodes t2)
    = filter (fun n => negb (swept n)) (nodes t1).
Proof.
  intros Hwn Hhost. unfold make_it_lamp. cbn [object node_tree emission_props].
  destruct (lamp_tree_host template Htemplate (node_tree mat) Hwn Hhost)
    as (t1 & E1 & Hwn1 & Hhost1).
  pose proof (fun n => unswept_kinds (node_tree mat) n Hhost) as HK.
  assert (HKs : forall n,
            In n (filter (fun n => negb (swept n)) (nodes (node_tree mat))) ->
            swept n = false) by (intros n Hn; apply HK; exact Hn).
  pose proof (lamp_tree_cases template Htemplate t1 Hwn1 Hhost1) as C.
  cbv zeta in C. rewrite E1.
  destruct (lamp_tree_cases template Htemplate (node_tree mat) Hwn Hhost)
    as [(o & Eo & E) | (Eo & E)];
    rewrite E in E1; injection E1 as <-; cbn [nodes] in C;
    set (K := filter (fun n => negb (swept n)) (nodes (node_tree mat))) in *;
    set (f := S (fold_right Nat.max 0%nat (map name K))) in *.
  - rewrite (sweep_of_lamp2 K f (S f) HKs) in C.
    destruct C as [(o' & _ & C) | (C & _)]; [|congruence].
    eexists. eexists. eexists. split; [reflexivity|].
    cbn [node_tree emission_props]. rewrite C. split; [reflexivity|].
    cbn [nodes]. split.
    + rewrite !length_app. reflexivity.
    + rewrite !(sweep_of_lamp2 K _ _ HKs). reflexivity.
  - rewrite (sweep_of_lamp3 K f (S f) (S (S f)) HKs) in C.
    assert (HO : is_type "OUTPUT_MATERIAL" (lamp_output template (S f)) = true).
    { apply is_type_eq. apply (lamp_output_facts template Htemplate (S f)). }
    destruct C as [(o' & _ & C) | (C & _)].
    2:{ rewrite find_app_nodes, Eo in C. cbn [find] in C. rewrite HO in C.
        discriminate. }
    eexists. eexists. eexists. split; [reflexivity|].
    cbn [node_tree emission_props]. rewrite C. split; [reflexivity|].
    cbn [nodes]. split.
    + rewrite !length_app. cbn [List.length]. lia.
    + rewrite (sweep_of_lamp3 K _ _ _ HKs).
      apply sweep_of_lamp2.
      intros n Hn. apply in_app_or in Hn. destruct Hn as [Hn | [<- | []]].
      * apply HKs, Hn.
      * apply negb_true_iff, output_not_swept, HO.
Qed.

End LampFrame.

Section TemperatureRun.

Import graph.

Variable template : string -> Node.
Hypothesis Htemplate : host_templates template.

Lemma find_map_nodes (p : Node -> bool) (h : Node -> Node) (l : list Node) :
  (forall n, p (h n) = p n) -> find p (map h l) = option_map h (find p l).
Proof.
  intro H. induction l as [|a l IH]; [reflexivity|].
  cbn. rewrite H. destruct (p a); [reflexivity | exact IH].
Qed.

Lemma filter_map_nodes (p : Node -> bool) (h : Node -> Node) (l : list Node) :
  (forall n, p (h n) = p n) -> filter p (map h l) = map h (filter p l).
Proof.
  intro H. induction l as [|a l IH]; [reflexivity|].
  cbn. rewrite H. destruct (p a); cbn; rewrite IH; reflexivity.
Qed.

Lemma node_named_in (t : NodeTree) (o : Node) :
  well_named t -> In o (nodes t) -> node_named (name o) t = Some o.
Proof.
  intros Hnd Ho. destruct t as [K L]. cbn [nodes] in *.
  rewrite <- (app_nil_r K). apply node_named_old; assumption.
Qed.

(** Setting the first input of the node called [k] keeps the name and the
    type of every node. *)
Lemma first_input_set_type (k : nat) (v : Q) (s : string) (n : Node) :
  is_type s (if (name n =? k)%nat then set_first_on v n else n) = is_type s n.
Proof. destruct (name n =? k)%nat; reflexivity. Qed.

Lemma first_input_set_name (k j : nat) (v : Q) (n : Node) :
  (name (if (name n =? k)%nat then set_first_on v n else n) =? j)%nat
  = (name n =? j)%nat.
Proof. destruct (name n =? k)%nat; reflexivity. Qed.

Lemma set_first_input_in (t : NodeTree) (b : Node) (v : Q) :
  well_named t -> In b (nodes t) -> inputs b <> [] ->
  set_first_input (name b) v t
  = Ok (mkNodeTree (first_input_set (name b) v (nodes t)) (links t)).
Proof.
  intros Hnd Hb Hi. unfold set_first_input.
  rewrite node_named_in by assumption.
  destruct (inputs b); [contradiction | reflexivity].
Qed.

Lemma node_named_first_input_set (t : NodeTree) (k : nat) (v : Q) (n : Node)
                                 (L : list Link) :
  well_named t -> In n (nodes t) ->
  node_named (name n) (mkNodeTree (first_input_set k v (nodes t)) L)
  = Some (if (name n =? k)%nat then set_first_on v n else n).
Proof.
  intros Hnd Hn. unfold node_named, first_input_set. cbn [nodes].
  rewrite find_map_nodes by (intro m; apply first_input_set_name).
  fold (node_named (name n) t). rewrite node_named_in by assumption.
  reflexivity.
Qed.

(** What [temperature_tree] returns on a tree of the host. *)
Lemma temperature_tree_run (temp : Z) (t : NodeTree) :
  well_named t -> host_nodes t ->
  let b := match first_node (is_type "BLACKBODY") t with
           | Some b => name b
           | None => fresh t
           end in
  let N := match first_node (is_type "BLACKBODY") t with
           | Some b => first_input_set (name b) (inject_Z temp) (nodes t)
           | None => nodes t ++ [temperature_blackbody template temp (fresh t)]
           end in
  temperature_tree template temp t
  = Ok match first_node (is_type "BSDF_PRINCIPLED") t with
       | Some p =>
           (mkNodeTree N
              (filter (fun l => negb (into (name p) "Emission Color" l))
                      (links t)
               ++ [mkLink b "Color" (name p) "Emission Color"]), true)
       | None => (mkNodeTree N (links t), false)
       end.
Proof.
  intros Hwn Hhost. cbv zeta. unfold temperature_tree.
  destruct Htemplate as (_ & _ & _ & _ & _ & _ & _ & _ & _ & HBt & HBi & HBc & _).
  destruct (first_node (is_type "BLACKBODY") t) as [b|] eqn:Eb.
  - unfold first_node in Eb. apply find_some in Eb. destruct Eb as [Hb Eb].
    destruct (Hhost b Hb) as (Hbb & _). destruct (Hbb Eb) as [Hbi Hbc].
    rewrite set_first_input_in by assumption. cbn [bind].
    unfold first_node at 1. cbn [nodes]. unfold first_input_set at 1.
    rewrite find_map_nodes by (intro m; apply first_input_set_type).
    fold (first_node (is_type "BSDF_PRINCIPLED") t).
    destruct (first_node (is_type "BSDF_PRINCIPLED") t) as [p|] eqn:Ep;
      [|reflexivity].
    unfold first_node in Ep. apply find_some in Ep. destruct Ep as [Hp Ep].
    destruct (Hhost p Hp) as (_ & Hpp & _). destruct (Hpp Ep) as [Hpe _].
    cbn [option_map].
    assert (Hne : (name p =? name b)%nat = false).
    { apply Nat.eqb_neq. intro E.
      rewrite (same_name_same_node _ p b Hwn Hp Hb E) in Ep.
      apply is_type_eq in Ep, Eb. rewrite Eb in Ep. discriminate. }
    rewrite Hne. unfold output_socket, input_socket.
    rewrite !node_named_first_input_set by assumption.
    rewrite Nat.eqb_refl, Hne.
    change (has_output "Color" (set_first_on (inject_Z temp) b))
      with (has_output "Color" b).
    rewrite Hbc, Hpe. reflexivity.
  - assert (HKf : forall n, In n (nodes t) -> (name n < fresh t)%nat)
      by (intros n Hn; apply name_lt_fresh; exact Hn).
    unfold nodes_new. cbn [name with_name].
    rewrite (update_node_head (nodes t) [] _ (links t) (fresh t))
      by (try assumption; try reflexivity; intros ? []).
    rewrite (set_first_input_head (nodes t) [] _ (links t) (fresh t))
      by (try assumption; try reflexivity; try (intros ? []); exact HBi).
    cbn [bind]. fold (temperature_blackbody template temp (fresh t)).
    unfold first_node at 1. cbn [nodes]. rewrite find_app_nodes.
    fold (first_node (is_type "BSDF_PRINCIPLED") t).
    destruct (first_node (is_type "BSDF_PRINCIPLED") t) as [p|] eqn:Ep.
    + unfold first_node in Ep. apply find_some in Ep. destruct Ep as [Hp Ep].
      destruct (Hhost p Hp) as (_ & Hpp & _). destruct (Hpp Ep) as [Hpe _].
      rewrite (output_socket_head (nodes t) [] _ (links t) (fresh t))
        by (try assumption; try reflexivity; exact HBc).
      cbn [bind]. unfold input_socket.
      rewrite node_named_old, Hpe by assumption. reflexivity.
    + cbn [find]. unfold is_type at 1.
      cbn [type temperature_blackbody set_first_on with_inputs with_location
           with_name].
      rewrite HBt. reflexivity.
Qed.

End TemperatureRun.

Section TemperatureHost.

Import graph.

Variable template : string -> Node.
Hypothesis Htemplate : host_templates template.

Lemma first_input_set_names (k : nat) (v : Q) (l : list Node) :
  map name (first_input_set k v l) = map name l.
Proof.
  unfold first_input_set. rewrite map_map. apply map_ext.
  intro n. destruct (name n =? k)%nat; reflexivity.
Qed.

Lemma has_input_set_first_on (s : string) (v : Q) (n : Node) :
  has_input s (set_first_on v n) = has_input s n.
Proof.
  unfold has_input, set_first_on. cbn [inputs with_inputs].
  destruct (inputs n); reflexivity.
Qed.

Lemma first_input_value_set (v : Q) (n : Node) :
  inputs n <> [] -> first_input_value (set_first_on v n) = Some v.
Proof.
  intro H. unfold first_input_value, set_first_on. cbn [inputs with_inputs].
  destruct (inputs n); [contradiction | reflexivity].
Qed.

Lemma inputs_set_first_on (v : Q) (n : Node) :
  inputs n <> [] -> inputs (set_first_on v n) <> [].
Proof.
  intro H. unfold set_first_on. cbn [inputs with_inputs].
  destruct (inputs n); [contradiction | discriminate].
Qed.

Lemma temperature_blackbody_facts (temp : Z) (k : nat) :
  let B := temperature_blackbody template temp k in
  name B = k /\ type B = "BLACKBODY" /\ location B = (- (300), 0) /\
  first_input_value B = Some (inject_Z temp) /\ inputs B <> [] /\
  has_output "Color" B = true.
Proof.
  destruct Htemplate as (_ & _ & _ & _ & _ & _ & _ & _ & _ & HBt & HBi & HBc & _).
  cbv zeta. unfold temperature_blackbody.
  split; [reflexivity|]. split; [exact HBt|]. split; [reflexivity|].
  split; [apply first_input_value_set; exact HBi|].
  split; [apply inputs_set_first_on; exact HBi | exact HBc].
Qed.

(** Setting a first input keeps a tree of the host one. *)
Lemma first_input_set_host (k : nat) (v : Q) (t : NodeTree) (L : list Link) :
  well_named t -> host_nodes t ->
  well_named (mkNodeTree (first_input_set k v (nodes t)) L) /\
  host_nodes (mkNodeTree (first_input_set k v (nodes t)) L).
Proof.
  intros Hwn Hhost. split.
  - unfold well_named. cbn [nodes]. rewrite first_input_set_names. exact Hwn.
  - intros n' Hn'. cbn [nodes] in Hn'. unfold first_input_set in Hn'.
    apply in_map_iff in Hn'. destruct Hn' as (n & <- & Hn).
    specialize (Hhost n Hn). rewrite !first_input_set_type.
    destruct (name n =? k)%nat; [|exact Hhost].
    destruct Hhost as (Hb & Hp & Ho).
    rewrite !has_input_set_first_on.
    split; [|split; assumption].
    intro E. destruct (Hb E) as [Hi Hc].
    split; [apply inputs_set_first_on; exact Hi | exact Hc].
Qed.

Lemma new_blackbody_host (temp : Z) (t : NodeTree) (L : list Link) :
  well_named t -> host_nodes t ->
  let t' := mkNodeTree (nodes t ++ [temperature_blackbody template temp (fresh t)])
                       L in
  well_named t' /\ host_nodes t'.
Proof.
  intros Hwn Hhost. cbv zeta.
  destruct (temperature_blackbody_facts temp (fresh t))
    as (HBn & HBt & _ & _ & HBi & HBc).
  cbv zeta in *. split.
  - unfold well_named. cbn [nodes].
    apply (NoDup_names_new (nodes t) [fresh t]); try assumption.
    + cbn [map]. rewrite HBn. reflexivity.
    + repeat constructor. intros [].
    + intros k [<- | []]. unfold fresh. lia.
  - intros n Hn. cbn [nodes] in Hn. apply in_app_or in Hn.
    destruct Hn as [Hn | [<- | []]]; [apply Hhost, Hn|].
    unfold is_type. rewrite HBt.
    split; [intros _; split; assumption|].
    split; intro Hc; vm_compute in Hc; discriminate Hc.
Qed.

(** The tree [temperature_tree] returns is again a tree of the host. *)
Lemma temperature_tree_host (temp : Z) (t : NodeTree) :
  well_named t -> host_nodes t ->
  exists t' linked, temperature_tree template temp t = Ok (t', linked) /\
                    well_named t' /\ host_nodes t'.
Proof.
  intros Hwn Hhost.
  rewrite (temperature_tree_run template Htemplate temp t Hwn Hhost).
  destruct (first_node (is_type "BSDF_PRINCIPLED") t);
    destruct (first_node (is_type "BLACKBODY") t);
    eexists; eexists; (split; [reflexivity|]);
    solve [apply first_input_set_host; assumption
          | apply new_blackbody_host; assumption].
Qed.

(** The report of [apply_temperature]. *)
Lemma apply_temperature_cases (mode : LumensMode) (mat : Material) :
  use_nodes mat = true ->
  well_named (node_tree mat) -> host_nodes (node_tree mat) ->
  exists t linked,
    temperature_tree template
      (temperature_of mode (emission_props mat)) (node_tree mat) = Ok (t, linked) /\
    apply_temperature template mode (mkContext (Some (Some mat)))
    = FINISHED (Some (mkMaterial (emission_props mat) (use_nodes mat) t))
        [("INFO",
          if linked
          then ("Applied "
                ++ str (temperature_of mode (emission_props mat))
                ++ "K to Emission Color")%string
          else ("Created/updated Blackbody node with "
                ++ str (temperature_of mode (emission_props mat))
                ++ "K")%string)].
Proof.
  intros Hu Hwn Hhost. unfold apply_temperature. cbn [object].
  rewrite Hu. cbn [negb].
  destruct (temperature_tree_host
              (temperature_of mode (emission_props mat)) (node_tree mat)
              Hwn Hhost) as (t & l & E & _).
  exists t, l. split; [exact E|]. rewrite E. destruct l; reflexivity.
Qed.

End TemperatureHost.

Section TemperatureFacts.

Import graph.

Variable template : string -> Node.
Hypothesis Htemplate : host_templates template.

Lemma find_none_filter (f : Node -> bool) (l : list Node) :
  find f l = None -> filter f l = [].
Proof.
  intro H. apply filter_none. intros n Hn. exact (find_none f l H n Hn).
Qed.

(** The first Principled BSDF is not the Blackbody whose input is set. *)
Lemma first_principled_kept (t : NodeTree) (b : Node) (v : Q) (L : list Link) :
  well_named t -> first_node (is_type "BLACKBODY") t = Some b ->
  first_node (is_type "BSDF_PRINCIPLED")
             (mkNodeTree (first_input_set (name b) v (nodes t)) L)
  = first_node (is_type "BSDF_PRINCIPLED") t.
Proof.
  intros Hwn Eb. unfold first_node in *. cbn [nodes]. unfold first_input_set.
  rewrite find_map_nodes by (intro m; apply first_input_set_type).
  destruct (find (is_type "BSDF_PRINCIPLED") (nodes t)) as [p|] eqn:Ep;
    [|reflexivity].
  cbn [option_map]. f_equal.
  apply find_some in Ep, Eb. destruct Ep as [Hp Ep], Eb as [Hb Eb].
  destruct (Nat.eqb_spec (name p) (name b)) as [E|]; [|reflexivity].
  rewrite (same_name_same_node _ p b Hwn Hp Hb E) in Ep.
  apply is_type_eq in Ep, Eb. rewrite Eb in Ep. discriminate.
Qed.

Lemma first_blackbody_set (t : NodeTree) (b : Node) (v : Q) (L : list Link) :
  first_node (is_type "BLACKBODY") t = Some b ->
  first_node (is_type "BLACKBODY")
             (mkNodeTree (first_input_set (name b) v (nodes t)) L)
  = Some (set_first_on v b).
Proof.
  intro Eb. unfold first_node in *. cbn [nodes]. unfold first_input_set.
  rewrite find_map_nodes by (intro m; apply first_input_set_type).
  rewrite Eb. cbn [option_map]. rewrite Nat.eqb_refl. reflexivity.
Qed.

Lemma count_first_input_set (k : nat) (v : Q) (t : NodeTree) (L : list Link)
                            (s : string) :
  count (is_type s) (mkNodeTree (first_input_set k v (nodes t)) L)
  = count (is_type s) t.
Proof.
  unfold count. cbn [nodes]. unfold first_input_set.
  rewrite filter_map_nodes by (intro m; apply first_input_set_type).
  apply length_map.
Qed.

(** X25.  On a material that uses nodes, [apply_temperature] finishes with the
    chosen temperature in the first input of the first Blackbody, which it
    creates only when the tree has none.  With a Principled BSDF in the
    tree the Blackbody's colour is the one link into its emission colour,
    and the report says so; without one the links stay. *)
Theorem apply_temperature_sets_blackbody (mode : LumensMode) (mat : Material) :
  use_nodes mat = true ->
  well_named (node_tree mat) -> host_nodes (node_tree mat) ->
  let temp := temperature_of mode (emission_props mat) in
  exists t b msg,
    apply_temperature template mode (mkContext (Some (Some mat)))
    = FINISHED (Some (mkMaterial (emission_props mat) true t))
               [("INFO", msg)] /\
    first_node (is_type "BLACKBODY") t = Some b /\
    first_input_value b = Some (inject_Z temp) /\
    count (is_type "BLACKBODY") t
    = Nat.max 1 (count (is_type "BLACKBODY") (node_tree mat)) /\
    match first_node (is_type "BSDF_PRINCIPLED") (node_tree mat) with
    | Some p =>
        first_node (is_type "BSDF_PRINCIPLED") t = Some p /\
        linked (name b) "Color" (name p) "Emission Color" t /\
        (forall l, In l (links t) -> into (name p) "Emission Color" l = true ->
                   l = mkLink (name b) "Color" (name p) "Emission Color") /\
        msg = ("Applied " ++ str temp ++ "K to Emission Color")%string
    | None =>
        links t = links (node_tree mat) /\
        msg = ("Created/updated Blackbody node with " ++ str temp ++ "K")%string
    end.
Proof.
  intros Hu Hwn Hhost temp.
  destruct (apply_temperature_cases template Htemplate mode mat Hu Hwn Hhost)
    as (t & l & E & ->).
  rewrite (temperature_tree_run template Htemplate _ _ Hwn Hhost) in E.
  fold temp in E |- *. rewrite Hu.
  assert (Hlinks : forall (L : list Link) k j l,
            In l (filter (fun l => negb (into j "Emission Color" l)) L
                  ++ [mkLink k "Color" j "Emission Color"]) ->
            into j "Emission Color" l = true ->
            l = mkLink k "Color" j "Emission Color").
  { intros L k j l0 Hin Hinto. apply in_app_or in Hin.
    destruct Hin as [Hin | [<- | []]]; [|reflexivity].
    apply filter_In in Hin. destruct Hin as [_ Hin].
    rewrite Hinto in Hin. discriminate. }
  destruct (first_node (is_type "BLACKBODY") (node_tree mat)) as [b|] eqn:Eb.
  - assert (Hb : In b (nodes (node_tree mat)) /\ is_type "BLACKBODY" b = true)
      by (apply find_some in Eb; exact Eb).
    destruct Hb as [Hb Hbt].
    destruct (Hhost b Hb) as (Hbb & _). destruct (Hbb Hbt) as [Hbi _].
    assert (Hc : (1 <= count (is_type "BLACKBODY") (node_tree mat))%nat).
    { unfold count.
      assert (In b (filter (is_type "BLACKBODY") (nodes (node_tree mat))))
        by (apply filter_In; split; assumption).
      destruct (filter _ _); [contradiction | cbn; lia]. }
    exists t, (set_first_on (inject_Z temp) b). eexists.
    split; [reflexivity|].
    destruct (first_node (is_type "BSDF_PRINCIPLED") (node_tree mat)) as [p|] eqn:Ep;
      injection E as <- <-.
    + split; [apply first_blackbody_set; exact Eb|].
      split; [apply first_input_value_set; exact Hbi|].
      split; [rewrite count_first_input_set; lia|].
      split; [rewrite (first_principled_kept _ b) by assumption; exact Ep|].
      split; [apply in_or_app; right; left; reflexivity|].
      split; [apply Hlinks | reflexivity].
    + split; [apply first_blackbody_set; exact Eb|].
      split; [apply first_input_value_set; exact Hbi|].
      split; [rewrite count_first_input_set; lia|].
      split; reflexivity.
  - destruct (temperature_blackbody_facts template Htemplate temp
                (fresh (node_tree mat)))
      as (HBn & HBt & _ & HBv & _).
    cbv zeta in *.
    assert (HBB : is_type "BLACKBODY"
                    (temperature_blackbody template temp (fresh (node_tree mat)))
                  = true) by (apply is_type_eq; exact HBt).
    assert (HBP : is_type "BSDF_PRINCIPLED"
                    (temperature_blackbody template temp (fresh (node_tree mat)))
                  = false) by (unfold is_type; rewrite HBt; reflexivity).
    assert (Hfirst : forall L,
              first_node (is_type "BLACKBODY")
                (mkNodeTree (nodes (node_tree mat)
                             ++ [temperature_blackbody template temp
                                   (fresh (node_tree mat))]) L)
              = Some (temperature_blackbody template temp (fresh (node_tree mat)))).
    { intro L. unfold first_node in *. cbn [nodes].
      rewrite find_app_nodes, Eb. cbn [find]. rewrite HBB. reflexivity. }
    assert (Hcount : forall L,
              count (is_type "BLACKBODY")
                (mkNodeTree (nodes (node_tree mat)
                             ++ [temperature_blackbody template temp
                                   (fresh (node_tree mat))]) L)
              = Nat.max 1 (count (is_type "BLACKBODY") (node_tree mat))).
    { intro L. unfold count, first_node in *. cbn [nodes].
      rewrite filter_app, (find_none_filter _ _ Eb). cbn [filter app].
      rewrite HBB. reflexivity. }
    exists t, (temperature_blackbody template temp (fresh (node_tree mat))).
    eexists. split; [reflexivity|].
    destruct (first_node (is_type "BSDF_PRINCIPLED") (node_tree mat)) as [p|] eqn:Ep;
      injection E as <- <-.
    + split; [apply Hfirst|]. split; [exact HBv|]. split; [apply Hcount|].
      split. { unfold first_node in *. cbn [nodes].
               rewrite find_app_nodes, Ep. reflexivity. }
      rewrite HBn.
      split; [apply in_or_app; right; left; reflexivity|].
      split; [apply Hlinks | reflexivity].
    + split; [apply Hfirst|]. split; [exact HBv|]. split; [apply Hcount|].
      split; reflexivity.
Qed.

(** What [apply_temperature] leaves alone on a material that uses nodes. *)
Lemma apply_temperature_frame (mode : LumensMode) (mat : Material) :
  use_nodes mat = true ->
  well_named (node_tree mat) -> host_nodes (node_tree mat) ->
  exists t log,
    apply_temperature template mode (mkContext (Some (Some mat)))
    = FINISHED (Some (mkMaterial (emission_props mat) true t)) log /\
    well_named t /\ host_nodes t /\
    (forall n, In n (nodes (node_tree mat)) ->
               first_node (is_type "BLACKBODY") (node_tree mat) <> Some n ->
               In n (nodes t)) /\
    List.length (nodes t)
    = (List.length (nodes (node_tree mat))
       + match first_node (is_type "BLACKBODY") (node_tree mat) with
         | Some _ => 0
         | None => 1
         end)%nat /\
    (forall l, In l (links (node_tree mat)) ->
               (forall p, first_node (is_type "BSDF_PRINCIPLED") (node_tree mat)
                          = Some p ->
                          into (name p) "Emission Color" l = false) ->
               In l (links t)).
Proof.
  intros Hu Hwn Hhost.
  destruct (apply_temperature_cases template Htemplate mode mat Hu Hwn Hhost)
    as (t & l & E & ->).
  destruct (temperature_tree_host template Htemplate
              (temperature_of mode (emission_props mat)) _ Hwn Hhost)
    as (t' & l' & E' & Hwn' & Hhost').
  rewrite E in E'. injection E' as <- <-.
  rewrite (temperature_tree_run template Htemplate _ _ Hwn Hhost) in E.
  rewrite Hu. exists t. eexists. split; [reflexivity|].
  split; [exact Hwn'|]. split; [exact Hhost'|].
  assert (Hnodes : nodes t
                   = match first_node (is_type "BLACKBODY") (node_tree mat) with
                     | Some b =>
                         first_input_set (name b)
                           (inject_Z (temperature_of mode (emission_props mat)))
                           (nodes (node_tree mat))
                     | None =>
                         nodes (node_tree mat)
                         ++ [temperature_blackbody template
                               (temperature_of mode (emission_props mat))
                               (fresh (node_tree mat))]
                     end).
  { destruct (first_node (is_type "BSDF_PRINCIPLED") (node_tree mat));
      injection E as <- _; reflexivity. }
  split; [|split].
  - intros n Hn Hne. rewrite Hnodes.
    destruct (first_node (is_type "BLACKBODY") (node_tree mat)) as [b|] eqn:Eb.
    + unfold first_input_set. apply in_map_iff. exists n. split; [|exact Hn].
      destruct (Nat.eqb_spec (name n) (name b)) as [En|]; [|reflexivity].
      exfalso. apply Hne. f_equal. symmetry.
      apply find_some in Eb. destruct Eb as [Hb _].
      exact (same_name_same_node _ n b Hwn Hn Hb En).
    + apply in_or_app. left. exact Hn.
  - rewrite Hnodes.
    destruct (first_node (is_type "BLACKBODY") (node_tree mat)).
    + unfold first_input_set. rewrite length_map. lia.
    + rewrite length_app. reflexivity.
  - intros l0 Hl Hp.
    destruct (first_node (is_type "BSDF_PRINCIPLED") (node_tree mat)) as [p|];
      injection E as <- _; cbn [links]; [|exact Hl].
    apply in_or_app. left. apply filter_In. split; [exact Hl|].
    rewrite (Hp p eq_refl). reflexivity.
Qed.

(** X26.  The outcomes of [apply_temperature].  Without an active material,
    or with one that does not use nodes, it is cancelled with the warning
    that the material must use nodes, and nothing is changed.  Otherwise, on
    a tree of the host, it finishes and leaves the rest of the material
    alone: every node but the first Blackbody stays as it is, a node is
    added only when there was no Blackbody, and every link stays but those
    into the emission colour of the first Principled BSDF.  The tree it
    leaves is again one of the host. *)
Theorem apply_temperature_outcome (mode : LumensMode) (mat : option Material) :
  (forall m, mat = Some m -> use_nodes m = true ->
             well_named (node_tree m) /\ host_nodes (node_tree m)) ->
  match mat with
  | None =>
      apply_temperature template mode (mkContext (Some mat))
      = CANCELLED None [("WARNING", "Material must use nodes")]
  | Some m =>
      if use_nodes m
      then
        exists t log,
          apply_temperature template mode (mkContext (Some mat))
          = FINISHED (Some (mkMaterial (emission_props m) true t)) log /\
          well_named t /\ host_nodes t /\
          (forall n, In n (nodes (node_tree m)) ->
                     first_node (is_type "BLACKBODY") (node_tree m) <> Some n ->
                     In n (nodes t)) /\
          List.length (nodes t)
          = (List.length (nodes (node_tree m))
             + match first_node (is_type "BLACKBODY") (node_tree m) with
               | Some _ => 0
               | None => 1
               end)%nat /\
          (forall l, In l (links (node_tree m)) ->
                     (forall p, first_node (is_type "BSDF_PRINCIPLED") (node_tree m)
                                = Some p ->
                                into (name p) "Emission Color" l = false) ->
                     In l (links t))
      else
        apply_temperature template mode (mkContext (Some mat))
        = CANCELLED (Some m) [("WARNING", "Material must use nodes")]
  end.
Proof.
  intro H. destruct mat as [m|]; [|reflexivity].
  destruct (use_nodes m) eqn:Eu.
  - destruct (H m eq_refl Eu) as [Hwn Hhost].
    exact (apply_temperature_frame mode m Eu Hwn Hhost).
  - unfold apply_temperature. cbn [object]. rewrite Eu. reflexivity.
Qed.

End TemperatureFacts.

Section LampAndTemperature.

Import graph.

Variable template : string -> Node.
Hypothesis Htemplate : host_templates template.

Lemma filter_twice_links (f : Link -> bool) (l : list Link) :
  filter f (filter f l) = filter f l.
Proof.
  rewrite filter_filter_links. apply filter_ext.
  intro a. destruct (f a); reflexivity.
Qed.

(** Linking again what is linked already changes no link. *)
Lemma relink (X : list Link) (k j : nat) (a b : string) :
  filter (fun l => negb (into j b l))
         (filter (fun l => negb (into j b l)) X ++ [mkLink k a j b])
  ++ [mkLink k a j b]
  = filter (fun l => negb (into j b l)) X ++ [mkLink k a j b].
Proof.
  rewrite filter_app, filter_twice_links. cbn [filter].
  unfold into at 2. cbn [to_node to_socket].
  rewrite Nat.eqb_refl, String.eqb_refl. cbn [andb negb].
  rewrite app_nil_r. reflexivity.
Qed.

Lemma set_first_on_twice (v : Q) (n : Node) :
  set_first_on v (set_first_on v n) = set_first_on v n.
Proof.
  unfold set_first_on. cbn. destruct (inputs n); reflexivity.
Qed.

Lemma first_input_set_twice (k : nat) (v : Q) (l : list Node) :
  first_input_set k v (first_input_set k v l) = first_input_set k v l.
Proof.
  unfold first_input_set. rewrite map_map. apply map_ext. intro n.
  destruct (name n =? k)%nat eqn:E.
  - cbn [name set_first_on with_inputs]. rewrite E. apply set_first_on_twice.
  - rewrite E. reflexivity.
Qed.

(** X27.  [apply_temperature] is idempotent: applied a second time with the
    same choice it leaves the material as the first run left it, with the
    same report. *)
Theorem apply_temperature_idempotent (mode : LumensMode) (mat : Material) :
  use_nodes mat = true ->
  well_named (node_tree mat) -> host_nodes (node_tree mat) ->
  exists mat' log,
    apply_temperature template mode (mkContext (Some (Some mat)))
    = FINISHED (Some mat') log /\
    apply_temperature template mode (mkContext (Some (Some mat')))
    = FINISHED (Some mat') log.
Proof.
  intros Hu Hwn Hhost.
  destruct (apply_temperature_cases template Htemplate mode mat Hu Hwn Hhost)
    as (t & l & E & ->).
  destruct (temperature_tree_host template Htemplate
              (temperature_of mode (emission_props mat)) _ Hwn Hhost)
    as (t' & l' & E' & Hwn' & Hhost').
  rewrite E in E'. injection E' as <- <-.
  eexists. eexists. split; [reflexivity|].
  destruct (apply_temperature_cases template Htemplate mode
              (mkMaterial (emission_props mat) (use_nodes mat) t) Hu Hwn' Hhost')
    as (t2 & l2 & E2 & ->).
  cbn [emission_props use_nodes node_tree] in *.
  enough (H : t2 = t /\ l2 = l) by (destruct H as [-> ->]; reflexivity).
  rewrite (temperature_tree_run template Htemplate _ _ Hwn Hhost) in E.
  rewrite (temperature_tree_run template Htemplate _ _ Hwn' Hhost') in E2.
  set (v := temperature_of mode (emission_props mat)) in *.
  destruct (temperature_blackbody_facts template Htemplate v
              (fresh (node_tree mat))) as (HBn & HBt & _).
  cbv zeta in *.
  assert (HBB : is_type "BLACKBODY"
                  (temperature_blackbody template v (fresh (node_tree mat)))
                = true) by (apply is_type_eq; exact HBt).
  destruct (first_node (is_type "BLACKBODY") (node_tree mat)) as [b|] eqn:Eb.
  - destruct (first_node (is_type "BSDF_PRINCIPLED") (node_tree mat)) as [p|] eqn:Ep;
      injection E as <- <-;
      rewrite (first_principled_kept _ b) in E2 by assumption;
      rewrite Ep, (first_blackbody_set _ b) in E2 by exact Eb;
      cbn [name set_first_on with_inputs nodes links] in E2;
      rewrite first_input_set_twice in E2; rewrite ?relink in E2;
      injection E2 as <- <-; split; reflexivity.
  - assert (Hnew1 : forall L,
              first_node (is_type "BLACKBODY")
                (mkNodeTree (nodes (node_tree mat)
                             ++ [temperature_blackbody template v
                                   (fresh (node_tree mat))]) L)
              = Some (temperature_blackbody template v (fresh (node_tree mat)))).
    { intro L. unfold first_node in *. cbn [nodes].
      rewrite find_app_nodes, Eb. cbn [find]. rewrite HBB. reflexivity. }
    assert (Hnew2 : first_input_set (fresh (node_tree mat)) (inject_Z v)
                      (nodes (node_tree mat)
                       ++ [temperature_blackbody template v (fresh (node_tree mat))])
                    = nodes (node_tree mat)
                      ++ [temperature_blackbody template v (fresh (node_tree mat))]).
    { unfold first_input_set. rewrite map_app. f_equal.
      - apply map_update_others. intros n Hn.
        pose proof (name_lt_fresh _ _ Hn). lia.
      - cbn [map]. rewrite HBn, Nat.eqb_refl.
        unfold temperature_blackbody. rewrite set_first_on_twice. reflexivity. }
    assert (Hpr : forall L,
              first_node (is_type "BSDF_PRINCIPLED")
                (mkNodeTree (nodes (node_tree mat)
                             ++ [temperature_blackbody template v
                                   (fresh (node_tree mat))]) L)
              = first_node (is_type "BSDF_PRINCIPLED") (node_tree mat)).
    { intro L. unfold first_node. cbn [nodes]. rewrite find_app_nodes.
      destruct (find _ (nodes (node_tree mat))); [reflexivity|].
      cbn [find]. unfold is_type. rewrite HBt. reflexivity. }
    destruct (first_node (is_type "BSDF_PRINCIPLED") (node_tree mat)) as [p|] eqn:Ep;
      injection E as <- <-;
      rewrite Hpr, Hnew1 in E2; rewrite HBn in E2;
      cbn [nodes links] in E2; rewrite Hnew2 in E2; rewrite ?relink in E2;
      injection E2 as <- <-; split; reflexivity.
Qed.

(** X28.  After [make_it_lamp], [apply_temperature] puts the chosen
    temperature into the lamp's one Blackbody and reports that it was
    applied to the emission colour; it adds no node and changes no link. *)
Theorem apply_temperature_after_make_it_lamp (mode : LumensMode)
                                             (mat : Material) :
  well_named (node_tree mat) -> host_nodes (node_tree mat) ->
  let temp := temperature_of mode (emission_props mat) in
  exists t1 t2 b log,
    make_it_lamp template (mkContext (Some (Some mat)))
    = FINISHED (Some (mkMaterial (emission_props mat) true t1)) log /\
    apply_temperature template mode
      (mkContext (Some (Some (mkMaterial (emission_props mat) true t1))))
    = FINISHED (Some (mkMaterial (emission_props mat) true t2))
        [("INFO", ("Applied " ++ str temp ++ "K to Emission Color")%string)] /\
    first_node (is_type "BLACKBODY") t2 = Some b /\
    first_input_value b = Some (inject_Z temp) /\
    count (is_type "BLACKBODY") t2 = 1%nat /\
    List.length (nodes t2) = List.length (nodes t1) /\
    links t2 = links t1.
Proof.
  intros Hwn Hhost temp. unfold make_it_lamp. cbn [object].
  destruct (lamp_tree_host template Htemplate (node_tree mat) Hwn Hhost)
    as (t1 & E1 & Hwn1 & Hhost1).
  destruct (lamp_tree_lamp template Htemplate (node_tree mat) Hwn Hhost)
    as (t1' & p & b & o & E1' & Hp & Hb & _ & _ & Hc & _ & _ & _ & _ & _ & _
        & _ & _ & _ & X & HX).
  rewrite E1 in E1'. injection E1' as <-. rewrite E1.
  destruct (apply_temperature_cases template Htemplate mode
              (mkMaterial (emission_props mat) true t1) eq_refl Hwn1 Hhost1)
    as (t2 & l2 & E2 & E).
  cbn [emission_props use_nodes node_tree] in *. fold temp in E2, E.
  rewrite (temperature_tree_run template Htemplate _ _ Hwn1 Hhost1) in E2.
  rewrite Hp, Hb in E2. injection E2 as <- <-.
  assert (Hbi : inputs b <> []).
  { apply find_some in Hb. destruct Hb as [Hb Hbt].
    destruct (Hhost1 b Hb) as (Hbb & _). apply (Hbb Hbt). }
  exists t1. eexists. exists (set_first_on (inject_Z temp) b). eexists.
  split; [reflexivity|]. split; [exact E|].
  split; [apply first_blackbody_set; exact Hb|].
  split; [apply first_input_value_set; exact Hbi|].
  split; [rewrite count_first_input_set; exact Hc|].
  split; [cbn [nodes]; unfold first_input_set; apply length_map|].
  cbn [links]. rewrite HX. apply relink.
Qed.

(** X29.  On a tree of the host [make_it_lamp] never raises: it finishes,
    switches the material to nodes, and leaves a tree of the host, with
    unique names and the sockets of each kind, so that the operators can
    run on it again.  Without an active material it is cancelled with a
    warning. *)
Theorem make_it_lamp_outcome (mat : option Material) :
  (forall m, mat = Some m -> well_named (node_tree m) /\ host_nodes (node_tree m)) ->
  match mat with
  | None =>
      make_it_lamp template (mkContext (Some mat))
      = CANCELLED None [("WARNING", "No active material found")]
  | Some m =>
      exists t,
        make_it_lamp template (mkContext (Some mat))
        = FINISHED (Some (mkMaterial (emission_props m) true t))
            [("INFO", "Material purged and PBR Lamp setup applied cleanly.")] /\
        well_named t /\ host_nodes t
  end.
Proof.
  intro H. destruct mat as [m|]; [|reflexivity].
  destruct (H m eq_refl) as [Hwn Hhost].
  destruct (lamp_tree_host template Htemplate (node_tree m) Hwn Hhost)
    as (t & E & Hwn' & Hhost').
  exists t. unfold make_it_lamp. cbn [object]. rewrite E.
  split; [reflexivity|]. split; assumption.
Qed.

End LampAndTemperature.

Section GraphSamples.

Import graph.

(** The sample host and the sample trees meet the assumptions. *)
Lemma host_template_conforms : host_templates host_template.
Proof.
  unfold host_templates. cbv zeta.
  repeat split; try reflexivity. intro H. discriminate H.
Qed.

Lemma new_material_tree_of_host :
  well_named new_material_tree /\ host_nodes new_material_tree.
Proof.
  split.
  - unfold well_named. cbn. repeat constructor; cbn; intuition discriminate.
  - intros n Hn. cbn in Hn.
    destruct Hn as [<- | [<- | []]]; vm_compute;
      (split; [|split]); intro H; try discriminate H;
      repeat split; try reflexivity; intro H'; discriminate H'.
Qed.

Lemma cluttered_tree_of_host :
  well_named cluttered_tree /\ host_nodes cluttered_tree.
Proof.
  split.
  - unfold well_named. cbn. repeat constructor; cbn; intuition discriminate.
  - intros n Hn. cbn in Hn.
    destruct Hn as [<- | [<- | [<- | [<- | [<- | []]]]]]; vm_compute;
      (split; [|split]); intro H; try discriminate H;
      repeat split; try reflexivity; intro H'; discriminate H'.
Qed.

Lemma make_it_lamp_builds_lamp_witness :
  exists t p b,
    make_it_lamp host_template (graph_context default_props false cluttered_tree)
    = FINISHED (Some (mkMaterial default_props true t))
               [("INFO", "Material purged and PBR Lamp setup applied cleanly.")] /\
    first_node (is_type "BSDF_PRINCIPLED") t = Some p /\
    input_value "Roughness" p = Some (50 # 1000) /\
    input_value "IOR Level" p = Some (705 # 1000) /\
    first_node (is_type "BLACKBODY") t = Some b /\
    first_input_value b = Some 3500 /\
    count (is_type "BLACKBODY") t = 1%nat.
Proof.
  destruct (make_it_lamp_builds_lamp host_template host_template_conforms
              (mkMaterial default_props false cluttered_tree)
              (proj1 cluttered_tree_of_host) (proj2 cluttered_tree_of_host))
    as (t & p & b & o & H1 & H2 & H3 & _ & _ & H6 & _ & H8 & _ & H10 & _ & _
        & Hg & _).
  exists t, p, b. repeat (split; [assumption|]).
  split; [exact (Hg "IOR Level" (705 # 1000) (or_introl eq_refl))|].
  repeat split; assumption.
Defined.

Lemma make_it_lamp_keeps_other_nodes_witness :
  exists t new log,
    make_it_lamp host_template (graph_context default_props false cluttered_tree)
    = FINISHED (Some (mkMaterial default_props true t)) log /\
    nodes t = filter (fun n => negb (swept n)) (nodes cluttered_tree) ++ new /\
    List.length new = 2%nat.
Proof.
  exact (make_it_lamp_keeps_other_nodes host_template host_template_conforms
           (mkMaterial default_props false cluttered_tree)
           (proj1 cluttered_tree_of_host) (proj2 cluttered_tree_of_host)).
Defined.

Lemma make_it_lamp_links_witness :
  exists t p o log,
    make_it_lamp host_template (graph_context default_props false cluttered_tree)
    = FINISHED (Some (mkMaterial default_props true t)) log /\
    first_node (is_type "OUTPUT_MATERIAL") t = Some o /\
    In (mkLink (name p) "BSDF" (name o) "Surface") (links t).
Proof.
  destruct (make_it_lamp_links host_template host_template_conforms
              (mkMaterial default_props false cluttered_tree)
              (proj1 cluttered_tree_of_host) (proj2 cluttered_tree_of_host))
    as (t & p & b & o & log & H1 & _ & _ & H4 & H).
  exists t, p, o, log. split; [exact H1|]. split; [exact H4|].
  apply H. left. reflexivity.
Defined.

Lemma make_it_lamp_again_witness :
  exists t1 t2 log,
    make_it_lamp host_template (graph_context default_props false cluttered_tree)
    = FINISHED (Some (mkMaterial default_props true t1)) log /\
    make_it_lamp host_template (graph_context default_props true t1)
    = FINISHED (Some (mkMaterial default_props true t2)) log /\
    List.length (nodes t2) = List.length (nodes t1).
Proof.
  destruct (make_it_lamp_again host_template host_template_conforms
              (mkMaterial default_props false cluttered_tree)
              (proj1 cluttered_tree_of_host) (proj2 cluttered_tree_of_host))
    as (t1 & t2 & log & H1 & H2 & H3 & _).
  exists t1, t2, log. repeat split; assumption.
Defined.

Lemma make_it_lamp_outcome_witness :
  exists t,
    make_it_lamp host_template (graph_context default_props false new_material_tree)
    = FINISHED (Some (mkMaterial default_props true t))
        [("INFO", "Material purged and PBR Lamp setup applied cleanly.")] /\
    well_named t /\ host_nodes t.
Proof.
  apply (make_it_lamp_outcome host_template host_template_conforms
           (Some (mkMaterial default_props false new_material_tree))).
  intros m H. injection H as <-. exact new_material_tree_of_host.
Defined.

Lemma apply_temperature_sets_blackbody_witness :
  exists t b,
    apply_temperature host_template AVG
      (graph_context (room_lumens_result default_props (100, 150, 200)%Z
                        (2700, 3000, 3500)%Z) true new_material_tree)
    = FINISHED (Some (mkMaterial (room_lumens_result default_props
                                    (100, 150, 200)%Z (2700, 3000, 3500)%Z)
                                 true t))
               [("INFO", "Applied 3000K to Emission Color")] /\
    first_node (is_type "BLACKBODY") t = Some b /\
    first_input_value b = Some 3000 /\
    count (is_type "BLACKBODY") t = 1%nat.
Proof.
  destruct (apply_temperature_sets_blackbody host_template host_template_conforms
              AVG
              (mkMaterial (room_lumens_result default_props (100, 150, 200)%Z
                             (2700, 3000, 3500)%Z) true new_material_tree)
              eq_refl (proj1 new_material_tree_of_host)
              (proj2 new_material_tree_of_host))
    as (t & b & msg & H1 & H2 & H3 & H4 & H5).
  destruct H5 as (_ & _ & _ & ->).
  exists t, b. repeat split; assumption.
Defined.

Lemma apply_temperature_outcome_witness :
  exists t log,
    apply_temperature host_template MAX
      (graph_context default_props true cluttered_tree)
    = FINISHED (Some (mkMaterial default_props true t)) log /\
    List.length (nodes t) = 5%nat /\
    In (mkLink 2 "Color" 1 "Color") (links t).
Proof.
  destruct (apply_temperature_outcome host_template host_template_conforms
              MAX (Some (mkMaterial default_props true cluttered_tree)))
    as (t & log & H1 & _ & _ & _ & H5 & H6).
  - intros m H _. injection H as <-. exact cluttered_tree_of_host.
  - exists t, log. split; [exact H1|]. split; [exact H5|].
    apply H6; [left; reflexivity|]. intros p Hp. discriminate Hp.
Defined.

Lemma apply_temperature_idempotent_witness :
  exists mat' log,
    apply_temperature host_template MIN
      (graph_context default_props true new_material_tree)
    = FINISHED (Some mat') log /\
    apply_temperature host_template MIN (mkContext (Some (Some mat')))
    = FINISHED (Some mat') log.
Proof.
  exact (apply_temperature_idempotent host_template host_template_conforms
           MIN (mkMaterial default_props true new_material_tree)
           eq_refl (proj1 new_material_tree_of_host)
           (proj2 new_material_tree_of_host)).
Defined.

Lemma apply_temperature_after_make_it_lamp_witness :
  exists t1 t2 b log,
    make_it_lamp host_template
      (graph_context (room_lumens_result default_props (100, 150, 200)%Z
                        (2700, 3000, 3500)%Z) false cluttered_tree)
    = FINISHED (Some (mkMaterial (room_lumens_result default_props
                                    (100, 150, 200)%Z (2700, 3000, 3500)%Z)
                                 true t1)) log /\
    apply_temperature host_template MAX
      (graph_context (room_lumens_result default_props (100, 150, 200)%Z
                        (2700, 3000, 3500)%Z) true t1)
    = FINISHED (Some (mkMaterial (room_lumens_result default_props
                                    (100, 150, 200)%Z (2700, 3000, 3500)%Z)
                                 true t2))
        [("INFO", "Applied 3500K to Emission Color")] /\
    first_node (is_type "BLACKBODY") t2 = Some b /\
    first_input_value b = Some 3500 /\
    links t2 = links t1.
Proof.
  destruct (apply_temperature_after_make_it_lamp host_template
              host_template_conforms MAX
              (mkMaterial (room_lumens_result default_props (100, 150, 200)%Z
                             (2700, 3000, 3500)%Z) false cluttered_tree)
              (proj1 cluttered_tree_of_host) (proj2 cluttered_tree_of_host))
    as (t1 & t2 & b & log & H1 & H2 & H3 & H4 & _ & _ & H7).
  exists t1, t2, b, log. repeat split; assumption.
Defined.

End GraphSamples.

(** ** Registration *)

Lemma not_registered (c : string) (l : list string) :
  ~ In c l -> existsb (String.eqb c) l = false.
Proof.
  intro H. destruct (existsb (String.eqb c) l) eqn:E; [|reflexivity].
  apply existsb_exists in E. destruct E as (x & Hx & E).
  apply String.eqb_eq in E. subst x. contradiction.
Qed.

Lemma remove_absent (c : string) (l : list string) :
  ~ In c l -> filter (fun x => negb (String.eqb c x)) l = l.
Proof.
  induction l as [|a l IH]; intro H; [reflexivity|].
  cbn. destruct (String.eqb_spec c a) as [-> | _].
  - exfalso. apply H. left. reflexivity.
  - cbn. f_equal. apply IH. intro Hin. apply H. right. exact Hin.
Qed.

Lemma for_each_app (f : string -> Host -> Result Host) (a b : list string)
                   (h : Host) :
  for_each f (a ++ b) h
  = match for_each f a h with
    | Ok h' => for_each f b h'
    | Raise exn => Raise exn
    end.
Proof.
  revert h. induction a as [|c a IH]; intro h; [reflexivity|].
  cbn. destruct (f c h); [apply IH | reflexivity].
Qed.

(** Registering classes the host does not know appends them. *)
Lemma register_all (cs l attrs : list string) :
  NoDup cs -> (forall c, In c cs -> ~ In c l) ->
  for_each register_class cs (mkHost l attrs) = Ok (mkHost (l ++ cs) attrs).
Proof.
  revert l. induction cs as [|c cs IH]; intros l Hnd Hl.
  - cbn. rewrite app_nil_r. reflexivity.
  - inversion Hnd as [|x xs Hnotin Hnd']; subst.
    cbn [for_each]. unfold register_class, is_registered.
    cbn [registered_classes material_properties].
    rewrite not_registered by (apply Hl; left; reflexivity).
    rewrite IH.
    + rewrite <- app_assoc. reflexivity.
    + exact Hnd'.
    + intros c' Hc' Hin. apply in_app_or in Hin. destruct Hin as [Hin | [<- | []]].
      * apply (Hl c'); [right; exact Hc' | exact Hin].
      * contradiction.
Qed.

(** Unregistering them in the reverse order takes them away again. *)
Lemma unregister_all (cs l attrs : list string) :
  NoDup cs -> (forall c, In c cs -> ~ In c l) ->
  for_each unregister_class (rev cs) (mkHost (l ++ cs) attrs)
  = Ok (mkHost l attrs).
Proof.
  revert l. induction cs as [|c cs IH]; intros l Hnd Hl.
  - cbn. rewrite app_nil_r. reflexivity.
  - inversion Hnd as [|x xs Hnotin Hnd']; subst.
    cbn [rev]. rewrite for_each_app.
    change (l ++ c :: cs) with (l ++ [c] ++ cs). rewrite app_assoc.
    rewrite IH.
    + cbn [for_each]. unfold unregister_class, is_registered.
      cbn [registered_classes material_properties].
      rewrite existsb_app. cbn [existsb]. rewrite String.eqb_refl.
      rewrite orb_true_l, orb_true_r.
      rewrite filter_app, remove_absent by (apply Hl; left; reflexivity).
      cbn [filter]. rewrite String.eqb_refl. cbn [negb].
      rewrite app_nil_r. reflexivity.
    + exact Hnd'.
    + intros c' Hc' Hin. apply in_app_or in Hin. destruct Hin as [Hin | [<- | []]].
      * apply (Hl c'); [right; exact Hc' | exact Hin].
      * contradiction.
Qed.

Lemma class_names_distinct : NoDup class_names.
Proof.
  unfold class_names. cbn.
  repeat constructor; cbn; intuition discriminate.
Qed.

(** X30.  [unregister] undoes [register].  On a host that knows none of the
    add-on's classes and has no material property [emission_props],
    [register] succeeds, with every class registered and the property
    defined, and [unregister] then restores the host as it was.  A second
    [register] is refused by the host, and so is [unregister] before any
    [register]. *)
Theorem register_unregister_round_trip (h : Host) :
  (forall c, In c class_names -> ~ In c (registered_classes h)) ->
  ~ In "emission_props" (material_properties h) ->
  exists h',
    register h = Ok h' /\
    (forall c, In c class_names -> is_registered c h' = true) /\
    In "emission_props" (material_properties h') /\
    unregister h' = Ok h /\
    register h' = Raise "ValueError" /\
    unregister h = Raise "RuntimeError".
Proof.
  intros Hc Hp. destruct h as [l attrs].
  cbn [registered_classes material_properties] in *.
  unfold register.
  rewrite (register_all class_names l attrs class_names_distinct Hc).
  cbn [registered_classes material_properties].
  rewrite (remove_absent _ attrs Hp).
  eexists. split; [reflexivity|]. split; [|split; [|split; [|split]]].
  - intros c Hin. unfold is_registered. cbn [registered_classes].
    apply existsb_exists. exists c. split; [|apply String.eqb_refl].
    apply in_or_app. right. exact Hin.
  - left. reflexivity.
  - unfold unregister.
    rewrite (unregister_all class_names l _ class_names_distinct Hc).
    cbn [material_properties registered_classes existsb].
    rewrite String.eqb_refl. cbn [orb filter negb].
    rewrite String.eqb_refl. cbn [negb].
    rewrite (remove_absent _ attrs Hp). reflexivity.
  - unfold class_names. cbn [map classes fst for_each].
    unfold register_class at 1, is_registered.
    cbn [registered_classes]. rewrite existsb_app.
    cbn [existsb map fst classes]. rewrite String.eqb_refl.
    rewrite orb_true_l, orb_true_r. reflexivity.
  - unfold unregister, class_names. cbn [map classes fst rev app for_each].
    unfold unregister_class at 1, is_registered. cbn [registered_classes].
    rewrite not_registered; [reflexivity|].
    apply Hc. unfold class_names. cbn. tauto.
Qed.

Lemma register_unregister_round_trip_witness :
  exists h',
    register (mkHost ["Material"; "Object"] ["diffuse_color"]) = Ok h' /\
    unregister h' = Ok (mkHost ["Material"; "Object"] ["diffuse_color"]).
Proof.
  destruct (register_unregister_round_trip
              (mkHost ["Material"; "Object"] ["diffuse_color"]))
    as (h' & H1 & _ & _ & H4 & _).
  - intros c Hc Hin. cbn in Hc, Hin. intuition (subst; discriminate).
  - intro Hin. cbn in Hin. intuition discriminate.
  - exists h'. split; assumption.
Defined.
